(** * Medical-Insurance-Data-Insights: a shallow embedding of [finaldraft.py]

    The script is a load / coerce / save / analyse pipeline over a pandas
    DataFrame, followed by a polling loop of the [schedule] package.  This
    file embeds the script function by function, together with the part of
    pandas and of [schedule] that the script calls, and proves the properties
    of the specification about it.

    Layout:
    - [Frame]     the DataFrame data model and the pandas kernels whose
                  results the specification describes ([unique],
                  [value_counts]);
    - [Host]      what the script takes from its host: the numeric kernels of
                  numpy, the CSV reader and writer, the plotting backend; and
                  [astype], [mean] and [groupby.mean] over them;
    - [Script]    the functions of [finaldraft.py], in a state-and-exception
                  monad over the process state;
    - [Schedule]  the job of [schedule.every().day.at(..).do(..)],
                  [run_pending] and [main];
    - [Demo]      a small host and the tables of the examples;
    - [FrameFacts], [ScriptFacts], [ScheduleFacts] and the properties of the
      specification. *)

From Stdlib Require Import ZArith Ascii String List SpecFloat.
From stdpp Require Import base option list sorting gmap strings numbers.

Local Open Scope string_scope.
Local Open Scope Z_scope.
Local Open Scope list_scope.

(* ===================================================================== *)
(** * DataFrame data model *)
(* ===================================================================== *)

Module Frame.

(** A Python scalar as it comes out of a pandas column.  A float64 is an
    IEEE-754 binary64 value ([spec_float]); a missing entry of any column is
    the float NaN, as in pandas. *)
Inductive scalar : Type :=
  | SInt (z : Z)
  | SFloat (f : spec_float)
  | SBool (b : bool)
  | SStr (s : string).

Definition NaN : scalar := SFloat S754_nan.

(** A column carries one dtype.  [ObjCol] is the "object" column that
    [read_csv] builds for text: strings, with [None] for a missing entry. *)
Inductive column : Type :=
  | IntCol (l : list Z)
  | FloatCol (l : list spec_float)
  | BoolCol (l : list bool)
  | ObjCol (l : list (option string)).

Definition obj_scalar (o : option string) : scalar :=
  match o with Some s => SStr s | None => NaN end.

(** The values of a column, in row order. *)
Definition cells (c : column) : list scalar :=
  match c with
  | IntCol l => SInt <$> l
  | FloatCol l => SFloat <$> l
  | BoolCol l => SBool <$> l
  | ObjCol l => obj_scalar <$> l
  end.

(** A table is an ordered sequence of named columns. *)
Definition table : Type := list (string * column).

Fixpoint get_col (name : string) (df : table) : option column :=
  match df with
  | [] => None
  | (n, c) :: df' => if String.eqb n name then Some c else get_col name df'
  end.

(** [df[name] = c]: an existing column is replaced where it stands, a new one
    is appended. *)
Fixpoint set_col (name : string) (c : column) (df : table) : table :=
  match df with
  | [] => [(name, c)]
  | (n, c0) :: df' =>
      if String.eqb n name then (n, c) :: df' else (n, c0) :: set_col name c df'
  end.

(** ** Keys of the pandas hash tables

    [unique] and [value_counts] put the values in a hash table.  Two float
    keys are the same key when they are equal as floats or both NaN; the other
    dtypes compare by value. *)
Definition is_nan (f : spec_float) : bool :=
  match f with S754_nan => true | _ => false end.

Definition float_key_eqb (a b : spec_float) : bool :=
  (is_nan a && is_nan b) || SFeqb a b.

Definition same_key (a b : scalar) : bool :=
  match a, b with
  | SInt x, SInt y => Z.eqb x y
  | SFloat x, SFloat y => float_key_eqb x y
  | SBool x, SBool y => Bool.eqb x y
  | SStr x, SStr y => String.eqb x y
  | _, _ => false
  end.

Definition isna (v : scalar) : bool :=
  match v with SFloat f => is_nan f | _ => false end.

Definition notna (v : scalar) : bool := negb (isna v).

(** ** [Series.unique]

    One pass over the values; [seen] is the content of the hash table.  A
    value whose key is in the table is skipped, another one is entered in the
    table and appended to the result. *)
Fixpoint unique_from (seen l : list scalar) : list scalar :=
  match l with
  | [] => []
  | x :: l' =>
      if existsb (same_key x) seen then unique_from seen l'
      else x :: unique_from (seen ++ [x]) l'
  end.

Definition unique (l : list scalar) : list scalar := unique_from [] l.

(** ** [Series.value_counts]

    [value_counts(sort=True, ascending=False, dropna=True)], the defaults:
    missing entries are dropped, the remaining values are counted in a hash
    table that keeps its keys in the order of first appearance, and the
    counts are sorted in descending order by a sort that keeps entries of
    equal count in the order it finds them. *)
Fixpoint bump (x : scalar) (acc : list (scalar * nat)) : list (scalar * nat) :=
  match acc with
  | [] => [(x, 1%nat)]
  | (k, n) :: acc' =>
      if same_key x k then (k, S n) :: acc' else (k, n) :: bump x acc'
  end.

Definition tally_from (acc : list (scalar * nat)) (l : list scalar)
  : list (scalar * nat) :=
  fold_left (fun a x => bump x a) l acc.

Fixpoint insert_desc (e : scalar * nat) (out : list (scalar * nat))
  : list (scalar * nat) :=
  match out with
  | [] => [e]
  | e' :: out' =>
      if (e.2 <? e'.2)%nat then e' :: insert_desc e out' else e :: out
  end.

Definition sort_values_desc (l : list (scalar * nat)) : list (scalar * nat) :=
  foldr insert_desc [] l.

Definition value_counts (l : list scalar) : list (scalar * nat) :=
  sort_values_desc (tally_from [] (List.filter notna l)).

(** Position of the first row of [l] that holds the key [k]. *)
Fixpoint first_pos (k : scalar) (l : list scalar) : option nat :=
  match l with
  | [] => None
  | y :: l' => if same_key k y then Some 0%nat else S <$> first_pos k l'
  end.

(** Number of rows of [l] that hold the key [k]. *)
Definition count_key (k : scalar) (l : list scalar) : nat :=
  length (List.filter (same_key k) l).

(** The key of a value: the two zeros are one key. *)
Definition float_key (f : spec_float) : spec_float :=
  match f with S754_zero _ => S754_zero false | _ => f end.

Definition key (v : scalar) : scalar :=
  match v with SFloat f => SFloat (float_key f) | _ => v end.

(** [x] is met in the column before [y]: the first row holding the key of
    [x] comes before the first row holding the key of [y]. *)
Definition met_before (col : list scalar) (x y : scalar) : Prop :=
  ∃ p q, first_pos x col = Some p ∧ first_pos y col = Some q ∧ (p < q)%nat.

(** Each value of [out] is the first row of [l] that holds its key. *)
Definition first_rows (l out : list scalar) : Prop :=
  ∀ x, x ∈ out → ∃ n, first_pos x l = Some n ∧ l !! n = Some x.

(** The count recorded for the key [k] in a table of counts. *)
Definition count_of (k : scalar) (acc : list (scalar * nat)) : nat :=
  sum_list ((List.filter (fun e => same_key k e.1) acc).*2).

(** The order of the entries of [value_counts]: the larger count first, and
    of two equal counts the key met first in the column. *)
Definition freq_then_first (col : list scalar) (e1 e2 : scalar * nat) : Prop :=
  (e2.2 < e1.2)%nat ∨ (e1.2 = e2.2 ∧ met_before col e1.1 e2.1).

End Frame.

(* ===================================================================== *)
(** * The host: numpy kernels, CSV files, plotting backend *)
(* ===================================================================== *)

Module Host.
Import Frame.

Inductive dtype : Type := Float64 | Int64.

(** The exceptions of the script.  [TypeConversionError] is the [ValueError]
    that [astype] raises on the value [v]. *)
Inductive exn : Type :=
  | KeyError (key : string)
  | TypeConversionError (target : dtype) (v : scalar)
  | TypeError (what : string)
  | IOError (what : string)
  | RenderError (what : string).

Inductive result (A : Type) : Type :=
  | Ok (a : A)
  | Raise (e : exn).
Arguments Ok {A} a.
Arguments Raise {A} e.

(** The numeric kernels.  The script never looks inside them: which text is
    a number, how a float is cast, in which order a mean is summed and how a
    float is rounded are the host's business. *)
Class Numerics : Type := {
  (** [float(s)] *)
  float_of_string : string -> option spec_float;
  (** [int(s)], an int64 *)
  int_of_string : string -> option Z;
  (** int64 to float64 *)
  float_of_int : Z -> spec_float;
  (** the C cast of a finite float64 to int64 *)
  int_of_float : spec_float -> Z;
  (** [Series.mean] of an int64, a float64 (NaN skipped) and a bool column *)
  mean_int : list Z -> spec_float;
  mean_float : list spec_float -> spec_float;
  mean_bool : list bool -> spec_float;
  (** [round(x, ndigits)] *)
  round_float : spec_float -> Z -> spec_float;
  (** the message of the [TypeError] that [Series.mean] raises on a text
      column; it depends on the pandas version and on the text *)
  mean_text_message : list (option string) -> string
}.

(** The files.  [to_csv] takes the [index] flag of [DataFrame.to_csv]; a
    write changes the files and may fail, and a write that fails may have
    created, truncated or partly written its file before. *)
Class Storage : Type := {
  fs : Type;
  read_csv : string -> fs -> result table;
  to_csv : table -> string -> bool -> fs -> fs * option exn
}.

(** The calls the script makes to matplotlib and seaborn. *)
Inductive plot_call : Type :=
  | Figure (width height : Z)
  | Barplot (x : list scalar) (y : list spec_float) (palette : string)
  | Xlabel (s : string)
  | Ylabel (s : string)
  | Title (s : string)
  | Xticks (rotation : Z)
  | Show.

(** The plotting backend: a call changes the display and may fail. *)
Class Backend : Type := {
  display : Type;
  plot : plot_call -> display -> display * option exn
}.

Section Kernels.
Context `{Numerics}.

(** ** [Series.astype] *)

Definition bool_int (b : bool) : Z := if b then 1 else 0.

Definition to_float (v : scalar) : option spec_float :=
  match v with
  | SInt z => Some (float_of_int z)
  | SFloat f => Some f
  | SBool b => Some (float_of_int (bool_int b))
  | SStr s => float_of_string s
  end.

Definition is_finite (f : spec_float) : bool :=
  match f with
  | S754_zero _ | S754_finite _ _ _ => true
  | S754_infinity _ | S754_nan => false
  end.

Definition to_int (v : scalar) : option Z :=
  match v with
  | SInt z => Some z
  | SFloat f => if is_finite f then Some (int_of_float f) else None
  | SBool b => Some (bool_int b)
  | SStr s => int_of_string s
  end.

(** Converts every value or raises on the first one that does not convert:
    no column comes out of a failed conversion. *)
Fixpoint convert {A : Type} (f : scalar -> option A) (target : dtype)
    (l : list scalar) : result (list A) :=
  match l with
  | [] => Ok []
  | v :: l' =>
      match f v with
      | None => Raise (TypeConversionError target v)
      | Some a =>
          match convert f target l' with
          | Ok r => Ok (a :: r)
          | Raise e => Raise e
          end
      end
  end.

Definition astype_float (c : column) : result column :=
  match convert to_float Float64 (cells c) with
  | Ok l => Ok (FloatCol l)
  | Raise e => Raise e
  end.

Definition astype_int (c : column) : result column :=
  match convert to_int Int64 (cells c) with
  | Ok l => Ok (IntCol l)
  | Raise e => Raise e
  end.

(** ** [Series.mean] *)

Definition is_missing (o : option string) : bool :=
  match o with None => true | Some _ => false end.

(** The mean of a text column raises; an object column of missing entries
    only has the mean of that many NaN. *)
Definition col_mean (c : column) : result spec_float :=
  match c with
  | IntCol l => Ok (mean_int l)
  | FloatCol l => Ok (mean_float l)
  | BoolCol l => Ok (mean_bool l)
  | ObjCol l =>
      if forallb is_missing l then Ok (mean_float ((fun _ => S754_nan) <$> l))
      else Raise (TypeError (mean_text_message l))
  end.

(** ** [df.groupby(by)[val].mean()] *)

Fixpoint take_mask {A : Type} (m : list bool) (l : list A) : list A :=
  match m, l with
  | b :: m', x :: l' => if b then x :: take_mask m' l' else take_mask m' l'
  | _, _ => []
  end.

Definition select (m : list bool) (c : column) : column :=
  match c with
  | IntCol l => IntCol (take_mask m l)
  | FloatCol l => FloatCol (take_mask m l)
  | BoolCol l => BoolCol (take_mask m l)
  | ObjCol l => ObjCol (take_mask m l)
  end.

Definition scalar_ltb (a b : scalar) : bool :=
  match a, b with
  | SInt x, SInt y => x <? y
  | SFloat x, SFloat y => SFltb x y
  | SBool x, SBool y => negb x && y
  | SStr x, SStr y => String.ltb x y
  | _, _ => false
  end.

Fixpoint insert_key (k : scalar) (out : list scalar) : list scalar :=
  match out with
  | [] => [k]
  | k' :: out' => if scalar_ltb k k' then k :: out else k' :: insert_key k out'
  end.

Definition sort_keys (l : list scalar) : list scalar := foldr insert_key [] l.

Fixpoint group_means (kc : list scalar) (vc : column) (keys : list scalar)
  : result (list (scalar * spec_float)) :=
  match keys with
  | [] => Ok []
  | k :: keys' =>
      match col_mean (select (same_key k <$> kc) vc) with
      | Raise e => Raise e
      | Ok m =>
          match group_means kc vc keys' with
          | Ok r => Ok ((k, m) :: r)
          | Raise e => Raise e
          end
      end
  end.

(** The groups are the distinct non-missing keys in sorted order.
    [df.groupby(by)] raises the [KeyError] of [by]; the selection [[val]]
    that follows raises the one of its own message. *)
Definition groupby_mean (by_ val : string) (df : table)
  : result (list (scalar * spec_float)) :=
  match get_col by_ df with
  | None => Raise (KeyError by_)
  | Some kc =>
      match get_col val df with
      | None => Raise (KeyError ("Column not found: " ++ val))
      | Some vc =>
          group_means (cells kc) vc
            (sort_keys (unique (List.filter notna (cells kc))))
      end
  end.

End Kernels.
End Host.

(* ===================================================================== *)
(** * The script *)
(* ===================================================================== *)

Module Script.
Import Frame Host.

(** A DataFrame is a mutable object: the script passes references to it. *)
Definition loc : Type := nat.

Inductive level : Type := INFO | ERROR.

(** The messages of the script, one constructor per format string. *)
Inductive message : Type :=
  | DataLoaded
  | ErrorLoading (e : exn)
  | DataProcessed
  | ErrorProcessing (e : exn)
  | DataSaved (file_path : string)
  | ErrorSaving (e : exn)
  | AverageAge (avg_age : spec_float)
  | SexDistribution (sex_distribution : list (scalar * nat))
  | AverageCharges (avg_charges : spec_float)
  | UniqueRegions (unique_regions : list scalar)
  | ErrorVisualizing (e : exn).

Definition record : Type := level * message.

Section WithHost.
Context `{Numerics} `{Storage} `{Backend}.

(** The state of the process and of what it acts on: the files, the
    DataFrame objects, the lines of [analysis_log.txt] (oldest first), the
    display and the wall clock in microseconds. *)
Record world : Type := World {
  w_fs : fs;
  w_heap : gmap loc table;
  w_log : list record;
  w_display : display;
  w_clock : Z
}.

(** ** State and exceptions *)

Definition M (A : Type) : Type := world -> result A * world.

Definition ret {A : Type} (a : A) : M A := fun w => (Ok a, w).

Definition raise {A : Type} (e : exn) : M A := fun w => (Raise e, w).

Definition bind {A B : Type} (m : M A) (k : A -> M B) : M B :=
  fun w =>
    match m w with
    | (Ok a, w') => k a w'
    | (Raise e, w') => (Raise e, w')
    end.

(** [try: m except Exception as e: h e]; what [m] did before it raised
    stays done. *)
Definition try_except {A : Type} (m : M A) (h : exn -> M A) : M A :=
  fun w =>
    match m w with
    | (Ok a, w') => (Ok a, w')
    | (Raise e, w') => h e w'
    end.

Definition lift {A : Type} (r : result A) : M A := fun w => (r, w).

End WithHost.

Declare Scope script_scope.
Delimit Scope script_scope with script.
Notation "x <- m ;; k" := (bind m (fun x => k))
  (at level 100, m at next level, right associativity) : script_scope.
Notation "m ;; k" := (bind m (fun _ => k))
  (at level 100, right associativity) : script_scope.
Local Open Scope script_scope.

Section Functions.
Context `{Numerics} `{Storage} `{Backend}.

(** ** Primitive actions *)

Definition set_fs (f : fs) (w : world) : world :=
  World f (w_heap w) (w_log w) (w_display w) (w_clock w).

Definition set_heap (h : gmap loc table) (w : world) : world :=
  World (w_fs w) h (w_log w) (w_display w) (w_clock w).

Definition set_display (d : display) (w : world) : world :=
  World (w_fs w) (w_heap w) (w_log w) d (w_clock w).

Definition set_clock (t : Z) (w : world) : world :=
  World (w_fs w) (w_heap w) (w_log w) (w_display w) t.

(** [logging.info] and [logging.error] append one line. *)
Definition logging (l : level) (m : message) : M unit :=
  fun w =>
    (Ok tt, World (w_fs w) (w_heap w) (w_log w ++ [(l, m)]) (w_display w)
              (w_clock w)).

(** [pd.read_csv]: a new DataFrame object. *)
Definition pd_read_csv (file_path : string) : M loc :=
  fun w =>
    match read_csv file_path (w_fs w) with
    | Ok t =>
        let r := fresh (dom (w_heap w)) in
        (Ok r, set_heap (<[r := t]> (w_heap w)) w)
    | Raise e => (Raise e, w)
    end.

(** The table behind a reference; something that is no DataFrame cannot be
    subscripted. *)
Definition deref (df : loc) : M table :=
  fun w =>
    match w_heap w !! df with
    | Some t => (Ok t, w)
    | None => (Raise (TypeError "object is not subscriptable"), w)
    end.

(** [df[name]] *)
Definition getitem (df : loc) (name : string) : M column :=
  t <- deref df ;;
  match get_col name t with
  | Some c => ret c
  | None => raise (KeyError name)
  end.

(** [df[name] = c], in place. *)
Definition setitem (df : loc) (name : string) (c : column) : M unit :=
  t <- deref df ;;
  fun w => (Ok tt, set_heap (<[df := set_col name c t]> (w_heap w)) w).

(** [df.to_csv(file_path, index=index)] *)
Definition df_to_csv (df : loc) (file_path : string) (index : bool) : M unit :=
  t <- deref df ;;
  fun w =>
    match to_csv t file_path index (w_fs w) with
    | (f, None) => (Ok tt, set_fs f w)
    | (f, Some e) => (Raise e, set_fs f w)
    end.

(** A call to the plotting backend. *)
Definition plt (c : plot_call) : M unit :=
  fun w =>
    match plot c (w_display w) with
    | (d, None) => (Ok tt, set_display d w)
    | (d, Some e) => (Raise e, set_display d w)
    end.

(** [df.groupby(by)[val].mean()] *)
Definition df_groupby_mean (df : loc) (by_ val : string)
  : M (list (scalar * spec_float)) :=
  t <- deref df ;; lift (groupby_mean by_ val t).

(** ** [finaldraft.py] *)

Definition load_data (file_path : string) : M loc :=
  try_except
    (df <- pd_read_csv file_path ;;
     logging INFO DataLoaded ;;
     ret df)
    (fun e => logging ERROR (ErrorLoading e) ;; raise e).

Definition process_data (df : loc) : M loc :=
  try_except
    (charges <- getitem df "charges" ;;
     charges <- lift (astype_float charges) ;;
     setitem df "charges" charges ;;
     age <- getitem df "age" ;;
     age <- lift (astype_int age) ;;
     setitem df "age" age ;;
     logging INFO DataProcessed ;;
     ret df)
    (fun e => logging ERROR (ErrorProcessing e) ;; raise e).

Definition save_data (df : loc) (file_path : string) : M unit :=
  try_except
    (df_to_csv df file_path false ;;
     logging INFO (DataSaved file_path))
    (fun e => logging ERROR (ErrorSaving e) ;; raise e).

Record PatientsInfo : Type := { self_df : loc }.

Definition analyze_ages (self : PatientsInfo) : M spec_float :=
  age <- getitem (self_df self) "age" ;;
  m <- lift (col_mean age) ;;
  ret (round_float m 2).

Definition analyze_sexes (self : PatientsInfo) : M (list (scalar * nat)) :=
  sex <- getitem (self_df self) "sex" ;;
  ret (value_counts (cells sex)).

Definition unique_regions (self : PatientsInfo) : M (list scalar) :=
  region <- getitem (self_df self) "region" ;;
  ret (unique (cells region)).

Definition average_charges (self : PatientsInfo) : M spec_float :=
  charges <- getitem (self_df self) "charges" ;;
  m <- lift (col_mean charges) ;;
  ret (round_float m 2).

Definition create_dictionary (self : PatientsInfo)
  : M (list (string * list scalar)) :=
  t <- deref (self_df self) ;;
  ret ((fun nc => (nc.1, cells nc.2)) <$> t).

(** The body of the [try] of [visualize_data]. *)
Definition visualize_body (df : loc) : M unit :=
  plt (Figure 8 5) ;;
  x <- df_groupby_mean df "region" "charges" ;;
  y <- df_groupby_mean df "region" "charges" ;;
  plt (Barplot (x.*1) (y.*2) "Blues") ;;
  plt (Xlabel "Region") ;;
  plt (Ylabel "Average Charges ($)") ;;
  plt (Title "Average Medical Insurance Charges by Region") ;;
  plt (Xticks 45) ;;
  plt Show ;;
  plt (Figure 8 5) ;;
  x <- df_groupby_mean df "smoker" "charges" ;;
  y <- df_groupby_mean df "smoker" "charges" ;;
  plt (Barplot (x.*1) (y.*2) "Set1") ;;
  plt (Xlabel "Smoker Status") ;;
  plt (Ylabel "Average Charges ($)") ;;
  plt (Title "Average Charges by Smoking Status") ;;
  plt Show.

Definition visualize_data (df : loc) : M unit :=
  try_except (visualize_body df)
    (fun e => logging ERROR (ErrorVisualizing e)).

Definition automated_analysis (df : loc) : M unit :=
  let patients_info := {| self_df := df |} in
  avg_age <- analyze_ages patients_info ;;
  sex_distribution <- analyze_sexes patients_info ;;
  avg_charges <- average_charges patients_info ;;
  regions <- unique_regions patients_info ;;
  logging INFO (AverageAge avg_age) ;;
  logging INFO (SexDistribution sex_distribution) ;;
  logging INFO (AverageCharges avg_charges) ;;
  logging INFO (UniqueRegions regions) ;;
  visualize_data df.

(** The lines that one analysis of the table [t] logs, or the exception of
    the first query that fails. *)
Definition analysis_lines (t : table) : result (list record) :=
  match get_col "age" t with
  | None => Raise (KeyError "age")
  | Some age =>
  match col_mean age with
  | Raise e => Raise e
  | Ok avg_age =>
  match get_col "sex" t with
  | None => Raise (KeyError "sex")
  | Some sex =>
  match get_col "charges" t with
  | None => Raise (KeyError "charges")
  | Some charges =>
  match col_mean charges with
  | Raise e => Raise e
  | Ok avg_charges =>
  match get_col "region" t with
  | None => Raise (KeyError "region")
  | Some region =>
      Ok [(INFO, AverageAge (round_float avg_age 2));
          (INFO, SexDistribution (value_counts (cells sex)));
          (INFO, AverageCharges (round_float avg_charges 2));
          (INFO, UniqueRegions (unique (cells region)))]
  end end end end end end.

(** The world after the lines [ls] are logged. *)
Definition logged (ls : list record) (w : world) : world :=
  World (w_fs w) (w_heap w) (w_log w ++ ls) (w_display w) (w_clock w).

(** The world after a stage that touched the log and the display only. *)
Definition shown (ls : list record) (d : display) (w : world) : world :=
  World (w_fs w) (w_heap w) (w_log w ++ ls) d (w_clock w).

(** [w'] is [w] but for the display. *)
Definition drew (w w' : world) : Prop :=
  w_fs w' = w_fs w ∧ w_heap w' = w_heap w ∧ w_log w' = w_log w ∧
  w_clock w' = w_clock w.

(** An action that reads nothing but the tables and the display and writes
    nothing but log lines of the kind [ok] and the display: its result, its
    lines and the display it leaves are the same in every world with these
    tables and this display, whatever the files, the earlier log and the
    clock. *)
Definition table_reader (ok : record → Prop) {A : Type} (m : M A) : Prop :=
  ∀ w, ∃ r ls d,
    Forall ok ls ∧
    m w = (r, shown ls d w) ∧
    ∀ w2, w_heap w2 = w_heap w → w_display w2 = w_display w →
          m w2 = (r, shown ls d w2).

(** A column of numbers, as [process_data] leaves [age] and [charges]. *)
Definition numeric (c : column) : bool :=
  match c with ObjCol _ => false | _ => true end.

End Functions.
End Script.

(* ===================================================================== *)
(** * The [schedule] package and [main] *)
(* ===================================================================== *)

Module Schedule.
Import Frame Host Script.
Local Open Scope script_scope.

(** Wall-clock time is a number of microseconds; a day starts at a multiple
    of [day]. *)
Definition second : Z := 1000000.
Definition day : Z := 86400 * second.

(** The time of day ["HH:MM"]. *)
Definition at_ (hh mm : Z) : Z := (hh * 3600 + mm * 60) * second.

(** The next occurrence of the time of day [at_time] strictly after [now]. *)
Definition schedule_next_run (at_time now : Z) : Z :=
  let today := now / day * day + at_time in
  if today <=? now then today + day else today.

Section WithHost.
Context `{Numerics} `{Storage} `{Backend}.

(** A daily job: [job_func] is the callable given to [do]. *)
Record job : Type := Job {
  at_time : Z;
  next_run : Z;
  last_run : option Z;
  job_func : M unit
}.

(** [schedule.every().day.at(t).do(f)]: the job is appended to the jobs of
    the scheduler, due at the next [t]. *)
Definition every_day_at_do (t : Z) (f : M unit) (jobs : list job)
  : M (list job) :=
  fun w =>
    (Ok (jobs ++ [Job t (schedule_next_run t (w_clock w)) None f])%list, w).

Definition should_run (now : Z) (j : job) : bool := next_run j <=? now.

(** The indices of the jobs that are due, the earliest [next_run] first;
    jobs due at the same time keep the order in which they were registered
    ([sorted] is stable). *)
Fixpoint insert_due (jobs : list job) (i : nat) (out : list nat) : list nat :=
  match out with
  | [] => [i]
  | i' :: out' =>
      match jobs !! i, jobs !! i' with
      | Some j, Some j' =>
          if next_run j <=? next_run j' then i :: out
          else i' :: insert_due jobs i out'
      | _, _ => i :: out
      end
  end.

Definition runnable_jobs (now : Z) (jobs : list job) : list nat :=
  foldr (insert_due jobs) []
    (List.filter
       (fun i => match jobs !! i with Some j => should_run now j | None => false end)
       (seq 0 (length jobs))).

(** [Job.run]: call the function, then record the run and schedule the next
    one.  A function that raises leaves the job as it was. *)
Definition run_job (jobs : list job) (i : nat) : M (list job) :=
  match jobs !! i with
  | None => ret jobs
  | Some j =>
      job_func j ;;
      fun w =>
        let now := w_clock w in
        (Ok (<[i := Job (at_time j) (schedule_next_run (at_time j) now)
                     (Some now) (job_func j)]> jobs), w)
  end.

Fixpoint run_jobs (due : list nat) (jobs : list job) : M (list job) :=
  match due with
  | [] => ret jobs
  | i :: due' => jobs <- run_job jobs i ;; run_jobs due' jobs
  end.

(** [schedule.run_pending()] *)
Definition run_pending (jobs : list job) : M (list job) :=
  fun w => run_jobs (runnable_jobs (w_clock w) jobs) jobs w.

(** What happens while the script sleeps: the clock moves on and other
    processes may rewrite the files. *)
Record env : Type := Env { env_clock : Z; env_fs : fs }.

Definition slept (e : env) (w : world) : world :=
  set_clock (env_clock e) (set_fs (env_fs e) w).

Definition sleep (e : env) : M unit := fun w => (Ok tt, slept e w).

(** [while True: schedule.run_pending(); time.sleep(1)], run until the poll
    that follows the last sleep of [envs]. *)
Fixpoint run_forever (jobs : list job) (envs : list env) : M (list job) :=
  match envs with
  | [] => run_pending jobs
  | e :: envs' =>
      jobs <- run_pending jobs ;;
      sleep e ;;
      run_forever jobs envs'
  end.

(** A stretch of the loop in which no job is due: the script only sleeps. *)
Fixpoint idle (envs : list env) : M unit :=
  match envs with
  | [] => ret tt
  | e :: envs' => sleep e ;; idle envs'
  end.

(** The files as the last sleep of [envs] leaves them. *)
Fixpoint final_fs (envs : list env) (f : fs) : fs :=
  match envs with
  | [] => f
  | e :: envs' => final_fs envs' (env_fs e)
  end.

(** The lines of one poll of the steady state, when one analysis logs the
    lines [ls]: none, or [ls] and at most one error of the charts. *)
Definition poll_lines (ls block : list record) : Prop :=
  block = [] ∨
  ∃ es, block = ls ++ es ∧ (es = [] ∨ ∃ e, es = [(ERROR, ErrorVisualizing e)]).

(** The polls of the loop, the first at the time [now] and one after every
    sleep of [envs], with whether a daily job due at [nr] is due at each: a
    poll at or after the due time finds it due, and the job is then due at
    its time of day that follows that poll. *)
Fixpoint due_polls (at_time nr now : Z) (envs : list env) : list bool :=
  match envs with
  | [] => [nr <=? now]
  | e :: envs' =>
      (nr <=? now) ::
      due_polls at_time
        (if nr <=? now then schedule_next_run at_time now else nr)
        (env_clock e) envs'
  end.

(** The loop as the specification words it: at every poll at which the job
    is due, one call of [f]; between two polls, the sleep. *)
Fixpoint daily_runs (f : M unit) (dues : list bool) (envs : list env)
  : M unit :=
  match dues with
  | [] => ret tt
  | due :: dues' =>
      (if due then f else ret tt) ;;
      match envs with
      | [] => ret tt
      | e :: envs' => sleep e ;; daily_runs f dues' envs'
      end
  end.

(** The lines of one poll, when one analysis logs the lines [ls]: at a poll
    at which the job is due, [ls] and at most one error of the charts; at any
    other poll, none. *)
Definition poll_block (ls : list record) (due : bool) (block : list record)
  : Prop :=
  if due
  then ∃ es, block = ls ++ es ∧
             (es = [] ∨ ∃ e, es = [(ERROR, ErrorVisualizing e)])
  else block = [].

(** The clock of a simulation stands still while a job function runs. *)
Definition keeps_clock (f : M unit) : Prop :=
  ∀ w r w', f w = (r, w') → w_clock w' = w_clock w.

(** The polls that follow the sleeps of [envs] come one second after one
    another, the first one second after [t]. *)
Fixpoint ticking (t : Z) (envs : list env) : Prop :=
  match envs with
  | [] => True
  | e :: envs' => env_clock e = t + second ∧ ticking (env_clock e) envs'
  end.

(** The job as [Job.run] leaves it after a run at the time [t]. *)
Definition ran_at (t : Z) (j : job) : job :=
  Job (at_time j) (schedule_next_run (at_time j) t) (Some t) (job_func j).

(** Steps 1 to 4 of [main]. *)
Definition startup : M loc :=
  df <- load_data "insurance.csv" ;;
  df <- process_data df ;;
  save_data df "processed_insurance.csv" ;;
  automated_analysis df ;;
  ret df.

(** [main], with step 5 and the loop.  The script never returns; the model
    returns the jobs of the scheduler after a finite run. *)
Definition main (envs : list env) : M (list job) :=
  df <- startup ;;
  jobs <- every_day_at_do (at_ 9 0) (automated_analysis df) [] ;;
  run_forever jobs envs.

End WithHost.
End Schedule.

(* ===================================================================== *)
(** * A small host, for the examples *)
(* ===================================================================== *)

Module Demo.
Import Frame Host Script Schedule.

Definition digit (a : ascii) : option Z :=
  let n := Z.of_nat (nat_of_ascii a) in
  if (48 <=? n) && (n <=? 57) then Some (n - 48) else None.

Fixpoint digits (acc : Z) (s : string) : option Z :=
  match s with
  | EmptyString => Some acc
  | String a s' =>
      match digit a with
      | Some d => digits (10 * acc + d) s'
      | None => None
      end
  end.

(** A decimal integer literal within int64. *)
Definition int_literal (s : string) : option Z :=
  let r :=
    match s with
    | EmptyString => None
    | String "-" EmptyString => None
    | String "-" s' => Z.opp <$> digits 0 s'
    | _ => digits 0 s
    end in
  match r with
  | Some z => if (- 2 ^ 63 <=? z) && (z <? 2 ^ 63) then Some z else None
  | None => None
  end.

Definition b64 (z : Z) : spec_float := binary_normalize 53 1024 z 0 false.

Definition trunc (f : spec_float) : Z :=
  match f with
  | S754_finite s m e =>
      let v := if 0 <=? e then Z.pos m * 2 ^ e else Z.pos m / 2 ^ (- e) in
      if s then - v else v
  | _ => 0
  end.

(** Nearest integer, ties to even. *)
Definition rint (f : spec_float) : spec_float :=
  match f with
  | S754_finite s m e =>
      if 0 <=? e then f
      else
        let d := 2 ^ (- e) in
        let q := Z.pos m / d in
        let r := Z.pos m mod d in
        let q' :=
          if (d <? 2 * r) || ((d =? 2 * r) && Z.odd q) then q + 1 else q in
        if s then SFopp (b64 q') else b64 q'
  | _ => f
  end.

Definition mean_of (l : list spec_float) : spec_float :=
  let present := List.filter (fun f => negb (is_nan f)) l in
  SFdiv 53 1024 (fold_left (SFadd 53 1024) present (S754_zero false))
    (b64 (Z.of_nat (length present))).

(** An example host for the concrete inputs below: [float] and [int] read
    plain decimal integer literals only (no sign [+], no blanks, no
    fraction), the cast to int64 truncates and does not wrap, and a mean is
    summed from left to right. *)
Definition numerics : Numerics := {|
  float_of_string := fun s => b64 <$> int_literal s;
  int_of_string := int_literal;
  float_of_int := b64;
  int_of_float := trunc;
  mean_int := fun l => mean_of (b64 <$> l);
  mean_float := mean_of;
  mean_bool := fun l => mean_of ((fun b => b64 (bool_int b)) <$> l);
  round_float := fun x n =>
    SFdiv 53 1024 (rint (SFmul 53 1024 x (b64 (10 ^ n)))) (b64 (10 ^ n));
  mean_text_message := fun _ => "Could not convert string to numeric"
|}.

(** Files that hold the table itself, the newest first; a missing file cannot
    be read. *)
Definition storage : Storage := {|
  fs := list (string * table);
  read_csv := fun file_path f =>
    match List.find (fun entry => String.eqb entry.1 file_path) f with
    | Some entry => Ok entry.2
    | None => Raise (IOError file_path)
    end;
  to_csv := fun t file_path _ f => ((file_path, t) :: f, None)
|}.

(** A backend that records the calls, and one without a display. *)
Definition recorder : Backend := {|
  display := list plot_call;
  plot := fun c d => ((d ++ [c])%list, None)
|}.

Definition headless : Backend := {|
  display := unit;
  plot := fun c d => (d, Some (RenderError "no display"))
|}.

(** A table of three patients; the ages are still text. *)
Definition patients : table :=
  [("age", ObjCol [Some "19"; Some "18"; Some "28"]);
   ("sex", ObjCol [Some "male"; Some "female"; Some "male"]);
   ("region", ObjCol [Some "west"; Some "east"; Some "west"]);
   ("charges", IntCol [16884; 1725; 4449]);
   ("smoker", ObjCol [Some "yes"; Some "no"; Some "no"])].

(** The patients after [process_data], in a file without [smoker]. *)
Definition no_smoker : table :=
  [("age", IntCol [19; 18; 28]);
   ("sex", ObjCol [Some "male"; Some "female"; Some "male"]);
   ("region", ObjCol [Some "west"; Some "east"; Some "west"]);
   ("charges", FloatCol [b64 16884; b64 1725; b64 4449])].

(** A process that holds the table [t] behind the reference 0. *)
Definition holding (B : Backend) (d : @display B) (t : table)
  : @world storage B :=
  @World storage B [] {[ 0%nat := t ]} [] d 0.

(** The same patients with an age that is no number. *)
Definition unreadable_age : table :=
  set_col "age" (ObjCol [Some "19"; Some "abc"; Some "28"]) patients.

(** Half of [z] as a float64, and the patients of a file with decimal
    charges (16884.5 the first), which are float64 from the start, and an age
    that is no number. *)
Definition b64_half (z : Z) : spec_float :=
  binary_normalize 53 1024 z (-1) false.

Definition decimal_charges_bad_age : table :=
  [("age", ObjCol [Some "19"; Some "abc"; Some "28"]);
   ("sex", ObjCol [Some "male"; Some "female"; Some "male"]);
   ("region", ObjCol [Some "west"; Some "east"; Some "west"]);
   ("charges", FloatCol [b64_half 33769; b64 1725; b64 4449]);
   ("smoker", ObjCol [Some "yes"; Some "no"; Some "no"])].

(** A process started in a directory that holds [insurance.csv] with the
    content [t]. *)
Definition boot (B : Backend) (d : @display B) (clock : Z) (t : table)
  : @world storage B :=
  @World storage B [("insurance.csv", t)] ∅ [] d clock.

(** A process started on the file of the three patients. *)
Definition clinic : @world storage recorder := boot recorder [] 0 patients.

(** A process that holds the processed table at 08:59:59 of day 0, and the
    sleeps that end at 09:00:00 and at 09:00:01. *)
Definition before_nine : @world storage recorder :=
  @World storage recorder [] {[ 0%nat := no_smoker ]} [] []
    (at_ 8 59 + 59 * second).

Definition nine_sharp : @env storage := @Env storage (at_ 9 0) [].

Definition nine_past : @env storage := @Env storage (at_ 9 0 + second) [].

(** A process that holds one table with the regions of four patients. *)
Definition regions_world : @world storage recorder :=
  @World storage recorder []
    {[ 0%nat := [("region",
                   ObjCol [Some "west"; Some "east"; Some "west"; Some "north"])] ]}
    [] [] 0.

(** A process that holds one table with the sexes of three patients. *)
Definition sexes_world : @world storage recorder :=
  holding recorder [] [("sex", ObjCol [Some "male"; Some "female"; Some "male"])].

End Demo.



(* ===================================================================== *)
(** * Notions for the further properties *)
(* ===================================================================== *)

Module Views.
Import Frame Host Script Schedule.

(** The level of the line with which a stage reports its outcome. *)
Definition level_of {A : Type} (r : result A) : level :=
  match r with Ok _ => INFO | Raise _ => ERROR end.

(** [d[name]] for the dictionary of [create_dictionary]. *)
Fixpoint dict_get (name : string) (d : list (string * list scalar))
  : option (list scalar) :=
  match d with
  | [] => None
  | (n, l) :: d' => if String.eqb n name then Some l else dict_get name d'
  end.

(** [a] does not come after [b] in the order of the group keys. *)
Definition not_after (a b : scalar) : Prop := scalar_ltb b a = false.

End Views.

(* ===================================================================== *)
(** * Further concrete inputs *)
(* ===================================================================== *)

Module Cases.
Import Frame Host Script Schedule Demo.

(** The patients after [process_data]. *)
Definition processed : table :=
  [("age", IntCol [19; 18; 28]);
   ("sex", ObjCol [Some "male"; Some "female"; Some "male"]);
   ("region", ObjCol [Some "west"; Some "east"; Some "west"]);
   ("charges", FloatCol [b64 16884; b64 1725; b64 4449]);
   ("smoker", ObjCol [Some "yes"; Some "no"; Some "no"])].

(** Files of the patients that lack one column. *)
Definition no_charges : table :=
  [("age", ObjCol [Some "19"; Some "18"; Some "28"]);
   ("sex", ObjCol [Some "male"; Some "female"; Some "male"]);
   ("region", ObjCol [Some "west"; Some "east"; Some "west"])].

Definition no_age : table :=
  [("sex", ObjCol [Some "male"; Some "female"; Some "male"]);
   ("region", ObjCol [Some "west"; Some "east"; Some "west"]);
   ("charges", IntCol [16884; 1725; 4449])].

Definition no_region : table :=
  [("age", IntCol [19; 18; 28]);
   ("sex", ObjCol [Some "male"; Some "female"; Some "male"]);
   ("charges", FloatCol [b64 16884; b64 1725; b64 4449]);
   ("smoker", ObjCol [Some "yes"; Some "no"; Some "no"])].

Definition no_sex : table :=
  [("age", ObjCol [Some "19"; Some "18"; Some "28"]);
   ("region", ObjCol [Some "west"; Some "east"; Some "west"]);
   ("charges", IntCol [16884; 1725; 4449]);
   ("smoker", ObjCol [Some "yes"; Some "no"; Some "no"])].

(** Files on a full disk: a write creates its file, leaves it empty and
    fails. *)
Definition full_disk : Storage := {|
  fs := list (string * table);
  read_csv := fun file_path f =>
    match List.find (fun entry => String.eqb entry.1 file_path) f with
    | Some entry => Ok entry.2
    | None => Raise (IOError file_path)
    end;
  to_csv := fun _ file_path _ f => ((file_path, []) :: f, Some (IOError file_path))
|}.

(** A process started in an empty directory, and one started on the file of
    the patients on a full disk. *)
Definition empty_dir : @world storage recorder :=
  @World storage recorder [] ∅ [] [] 0.

Definition full_dir : @world full_disk recorder :=
  @World full_disk recorder [("insurance.csv", patients)] ∅ [] [] 0.

(** The process that holds the patients after [process_data], and the one
    started on their file after the startup of [main]. *)
Definition patients_processed : @world storage recorder :=
  (@process_data numerics storage recorder 0%nat
     (holding recorder [] patients)).2.

Definition clinic_started : @world storage recorder :=
  (@startup numerics storage recorder clinic).2.

(** The sleeps that end at 00:00:01 and at 09:00:00 of the next day. *)
Definition first_second : @env storage := @Env storage second [].

Definition next_nine : @env storage := @Env storage (day + at_ 9 0) [].

End Cases.
(* ===================================================================== *)
(** * Facts about the pandas kernels *)
(* ===================================================================== *)

Module FrameFacts.
Import Frame.

Lemma float_key_eqb_key (a b : spec_float) :
  float_key_eqb a b = true ↔ float_key a = float_key b.
Proof.
  unfold float_key_eqb, SFeqb.
  destruct a as [sa|sa| |sa ma ea], b as [sb|sb| |sb mb eb]; simpl;
    try (split; (discriminate || reflexivity || congruence));
    try (destruct sa; simpl; split; congruence);
    try (destruct sb; simpl; split; congruence).
  - destruct sa, sb; simpl; split; congruence.
  - change (PosDef.Pos.compare_cont Eq ma mb) with (Pos.compare ma mb).
    destruct sa, sb; simpl; try (split; congruence);
      destruct (Z.compare_spec ea eb) as [->| |]; simpl;
      try (split; [discriminate | intros [= ? ?]; lia]);
      destruct (Pos.compare_spec ma mb) as [->| |]; simpl;
      try (split; [discriminate | intros [= ?]; lia]);
      split; reflexivity.
Qed.

Lemma same_key_key (a b : scalar) : same_key a b = true ↔ key a = key b.
Proof.
  destruct a as [x|x|x|x], b as [y|y|y|y]; simpl;
    try (split; (discriminate || congruence)).
  - rewrite Z.eqb_eq. split; congruence.
  - rewrite float_key_eqb_key. split; congruence.
  - rewrite Bool.eqb_true_iff. split; congruence.
  - rewrite String.eqb_eq. split; congruence.
Qed.

Lemma same_key_false (a b : scalar) : same_key a b = false ↔ key a ≠ key b.
Proof.
  rewrite <- same_key_key. destruct (same_key a b); split; congruence.
Qed.

Lemma same_key_refl (a : scalar) : same_key a a = true.
Proof. by apply same_key_key. Qed.

Lemma same_key_sym (a b : scalar) : same_key a b = same_key b a.
Proof.
  destruct (same_key b a) eqn:E.
  - apply same_key_key. symmetry. by apply same_key_key.
  - apply same_key_false. intros E'. apply same_key_false in E. congruence.
Qed.

Lemma same_key_isna (a b : scalar) : same_key a b = true → isna a = isna b.
Proof.
  destruct a as [x|x|x|x], b as [y|y|y|y]; simpl; try done.
  unfold float_key_eqb, SFeqb. destruct x, y; simpl; try done.
Qed.

Lemma seen_key (x : scalar) (seen : list scalar) :
  existsb (same_key x) seen = true ↔ key x ∈ key <$> seen.
Proof.
  rewrite existsb_exists, list_elem_of_fmap. split.
  - intros (y & Hy & E). exists y. split; [by apply same_key_key|].
    by apply list_elem_of_In.
  - intros (y & E & Hy). exists y. split; [by apply list_elem_of_In|].
    by apply same_key_key.
Qed.

Lemma unseen_key (x : scalar) (seen : list scalar) :
  existsb (same_key x) seen = false ↔ key x ∉ key <$> seen.
Proof.
  rewrite <- seen_key. destruct (existsb (same_key x) seen); split; congruence.
Qed.

(** ** First positions *)

Lemma first_pos_cons_ne (x y : scalar) (l : list scalar) :
  key x ≠ key y → first_pos x (y :: l) = S <$> first_pos x l.
Proof. intros E. simpl. apply same_key_false in E. by rewrite E. Qed.

Lemma first_pos_cons_eq (x y : scalar) (l : list scalar) :
  key x = key y → first_pos x (y :: l) = Some 0%nat.
Proof. intros E. simpl. apply same_key_key in E. by rewrite E. Qed.

Lemma first_pos_Some (x : scalar) (l : list scalar) :
  key x ∈ key <$> l → ∃ p, first_pos x l = Some p.
Proof.
  induction l as [|y l IH]; simpl.
  - by intros ?%elem_of_nil.
  - intros Hin. destruct (same_key x y) eqn:E; [by eexists|].
    apply same_key_false in E. apply elem_of_cons in Hin as [?|Hin]; [done|].
    destruct (IH Hin) as [p ->]. by eexists.
Qed.

Lemma met_before_cons (y : scalar) (l : list scalar) (a b : scalar) :
  key a ≠ key y → key b ≠ key y →
  met_before l a b → met_before (y :: l) a b.
Proof.
  intros Ha Hb (p & q & Hp & Hq & Hpq). exists (S p), (S q).
  rewrite !first_pos_cons_ne, Hp, Hq by done. simpl. repeat split; lia.
Qed.

Lemma met_before_head (y : scalar) (l : list scalar) (b : scalar) :
  key b ≠ key y → key b ∈ key <$> l → met_before (y :: l) y b.
Proof.
  intros Hb Hin. destruct (first_pos_Some b l Hin) as [q Hq].
  exists 0%nat, (S q). rewrite first_pos_cons_eq, first_pos_cons_ne, Hq by done.
  simpl. repeat split; lia.
Qed.

(** ** [unique] *)

(** What one pass computes, for the values that pass the filter [p] (the
    filter of [value_counts] drops the missing ones; [unique] drops
    nothing). *)
Lemma sorted_met_before_cons (y : scalar) (l out : list scalar) :
  (∀ x, x ∈ out → key x ≠ key y) →
  StronglySorted (met_before l) out →
  StronglySorted (met_before (y :: l)) out.
Proof.
  intros Hne Hs. induction Hs as [|a out Hs IHs Hf]; constructor.
  - apply IHs. intros x Hx. apply Hne. by right.
  - apply list.Forall_forall. intros b Hb. apply met_before_cons.
    + apply Hne. by left.
    + apply Hne. by right.
    + by eapply list.Forall_forall in Hf.
Qed.

Lemma first_rows_cons (y : scalar) (l out : list scalar) :
  (∀ x, x ∈ out → key x ≠ key y) →
  first_rows l out → first_rows (y :: l) out.
Proof.
  intros Hne Hf x Hx. destruct (Hf x Hx) as (n & Hn & Hl). exists (S n).
  rewrite first_pos_cons_ne by (by apply Hne). by rewrite Hn.
Qed.

(** What one pass computes, for the values that pass the filter [p] (the
    filter of [value_counts] drops the missing ones; [unique] drops
    nothing). *)
Lemma unique_from_spec (p : scalar → bool) (l seen : list scalar) :
  (∀ x y, key x = key y → p x = p y) →
  (∀ x, x ∈ unique_from seen (List.filter p l) →
     (key x ∉ key <$> seen) ∧ p x = true) ∧
  first_rows l (unique_from seen (List.filter p l)) ∧
  StronglySorted (met_before l) (unique_from seen (List.filter p l)) ∧
  NoDup (key <$> unique_from seen (List.filter p l)) ∧
  (∀ v, v ∈ l → p v = true →
     key v ∈ key <$> seen ∨ key v ∈ key <$> unique_from seen (List.filter p l)).
Proof.
  intros Hp. revert seen. induction l as [|y l IH]; intros seen; simpl.
  { split; [|split; [|split; [|split]]]; try (by intros ? ?%elem_of_nil);
      constructor. }
  destruct (p y) eqn:Py; simpl.
  - destruct (existsb (same_key y) seen) eqn:Ey.
    + apply seen_key in Ey.
      destruct (IH seen) as (H1 & H2 & H3 & H4 & H5).
      assert (Hne : ∀ x, x ∈ unique_from seen (List.filter p l) → key x ≠ key y).
      { intros x Hx E. destruct (H1 x Hx) as (Hs & _). congruence. }
      split; [done|]. split; [by apply first_rows_cons|].
      split; [by apply sorted_met_before_cons|]. split; [done|].
      intros v [->|Hv]%elem_of_cons Pv; [by left|by apply H5].
    + apply unseen_key in Ey.
      destruct (IH (seen ++ [y])) as (H1 & H2 & H3 & H4 & H5).
      assert (Hne : ∀ x, x ∈ unique_from (seen ++ [y]) (List.filter p l) →
                         key x ≠ key y).
      { intros x Hx E. destruct (H1 x Hx) as (Hs & _). apply Hs.
        rewrite fmap_app, elem_of_app. right. rewrite E. by left. }
      split; [|split; [|split; [|split]]].
      * intros x [->|Hx]%elem_of_cons; [done|].
        destruct (H1 x Hx) as (Hs & Px). split; [|done]. intros Hin. apply Hs.
        rewrite fmap_app, elem_of_app. by left.
      * intros x [->|Hx]%elem_of_cons.
        -- exists 0%nat. by rewrite first_pos_cons_eq.
        -- by apply (first_rows_cons y l _ Hne H2).
      * constructor; [by apply sorted_met_before_cons|].
        apply list.Forall_forall. intros b Hb. apply met_before_head.
        -- by apply Hne.
        -- destruct (H2 b Hb) as (n & Hn & Hl).
           apply list_elem_of_fmap. exists b. split; [done|].
           by eapply list_elem_of_lookup_2.
      * simpl. constructor; [|done].
        intros (x & E & Hx)%list_elem_of_fmap. by apply (Hne x).
      * intros v [->|Hv]%elem_of_cons Pv.
        -- right. simpl. by left.
        -- destruct (H5 v Hv Pv) as [Hs|Ho].
           ++ rewrite fmap_app, elem_of_app in Hs.
              destruct Hs as [?|Hs]; [by left|].
              right. simpl. apply list_elem_of_singleton in Hs. rewrite Hs.
              by left.
           ++ right. simpl. by right.
  - destruct (IH seen) as (H1 & H2 & H3 & H4 & H5).
    assert (Hne : ∀ x, x ∈ unique_from seen (List.filter p l) → key x ≠ key y).
    { intros x Hx E. destruct (H1 x Hx) as (_ & Px).
      rewrite (Hp _ _ E) in Px. congruence. }
    split; [done|]. split; [by apply first_rows_cons|].
    split; [by apply sorted_met_before_cons|]. split; [done|].
    intros v [->|Hv]%elem_of_cons Pv; [congruence|by apply H5].
Qed.


(** ** [value_counts] *)

Lemma bump_keys (x : scalar) (acc : list (scalar * nat)) :
  (bump x acc).*1 =
  if existsb (same_key x) acc.*1 then acc.*1 else acc.*1 ++ [x].
Proof.
  induction acc as [|[k n] acc IH]; csimpl; [done|].
  destruct (same_key x k); csimpl; [done|].
  rewrite IH. by destruct (existsb (same_key x) acc.*1).
Qed.

Lemma tally_keys (l : list scalar) (acc : list (scalar * nat)) :
  (tally_from acc l).*1 = acc.*1 ++ unique_from acc.*1 l.
Proof.
  revert acc. induction l as [|x l IH]; intros acc; csimpl.
  - by rewrite app_nil_r.
  - unfold tally_from in *. csimpl. rewrite IH, bump_keys.
    destruct (existsb (same_key x) acc.*1); [done|].
    by rewrite <- app_assoc.
Qed.

Lemma count_of_cons (k : scalar) (e : scalar * nat) (acc : list (scalar * nat)) :
  count_of k (e :: acc) =
  ((if same_key k e.1 then e.2 else 0) + count_of k acc)%nat.
Proof. unfold count_of. simpl. by destruct (same_key k e.1). Qed.

Lemma bump_count (k x : scalar) (acc : list (scalar * nat)) :
  count_of k (bump x acc) =
  (count_of k acc + if same_key k x then 1 else 0)%nat.
Proof.
  induction acc as [|[k' n] acc IH]; simpl.
  - rewrite count_of_cons. simpl. unfold count_of. simpl.
    destruct (same_key k x); lia.
  - destruct (same_key x k') eqn:E; rewrite !count_of_cons; simpl.
    + apply same_key_key in E.
      destruct (same_key k k') eqn:E'.
      * apply same_key_key in E'.
        assert (same_key k x = true) as -> by (apply same_key_key; congruence).
        lia.
      * apply same_key_false in E'.
        assert (same_key k x = false) as -> by (apply same_key_false; congruence).
        lia.
    + rewrite IH. lia.
Qed.

Lemma tally_count (k : scalar) (l : list scalar) (acc : list (scalar * nat)) :
  count_of k (tally_from acc l) = (count_of k acc + count_key k l)%nat.
Proof.
  revert acc. unfold tally_from, count_key.
  induction l as [|x l IH]; intros acc; simpl; [lia|].
  rewrite IH, bump_count. destruct (same_key k x); simpl; lia.
Qed.

Lemma count_of_absent (k : scalar) (acc : list (scalar * nat)) :
  key k ∉ key <$> acc.*1 → count_of k acc = 0%nat.
Proof.
  induction acc as [|[k' n'] acc IH]; csimpl; [done|].
  intros [Hk Hin]%not_elem_of_cons. rewrite count_of_cons. simpl.
  apply same_key_false in Hk. rewrite Hk. by rewrite IH.
Qed.

Lemma count_of_entry (k : scalar) (n : nat) (acc : list (scalar * nat)) :
  NoDup (key <$> acc.*1) → (k, n) ∈ acc → count_of k acc = n.
Proof.
  induction acc as [|[k' n'] acc IH]; csimpl.
  - by intros _ ?%elem_of_nil.
  - intros [Hk Hnd]%list.NoDup_cons Hin. rewrite count_of_cons. simpl.
    apply elem_of_cons in Hin as [[= <- <-]|Hin].
    + rewrite same_key_refl, count_of_absent by done. lia.
    + assert (same_key k k' = false) as ->.
      { apply same_key_false. intros E. apply Hk. rewrite <- E.
        apply list_elem_of_fmap. exists k. split; [done|].
        apply list_elem_of_fmap. by exists (k, n). }
      by rewrite IH.
Qed.

Lemma count_key_notna (k : scalar) (l : list scalar) :
  isna k = false → count_key k (List.filter notna l) = count_key k l.
Proof.
  intros Hk. unfold count_key. f_equal.
  induction l as [|x l IH]; simpl; [done|].
  destruct (same_key k x) eqn:E.
  - assert (notna x = true) as ->.
    { unfold notna. apply same_key_isna in E. by rewrite <- E, Hk. }
    simpl. by rewrite E, IH.
  - destruct (notna x); simpl; by rewrite ?E.
Qed.


Lemma insert_desc_perm (e : scalar * nat) (out : list (scalar * nat)) :
  insert_desc e out ≡ₚ e :: out.
Proof.
  induction out as [|e' out IH]; simpl; [done|].
  destruct (e.2 <? e'.2)%nat; [|done].
  rewrite IH. apply Permutation_swap.
Qed.

Lemma sort_values_desc_perm (l : list (scalar * nat)) :
  sort_values_desc l ≡ₚ l.
Proof.
  induction l as [|e l IH]; simpl; [done|].
  by rewrite insert_desc_perm, IH.
Qed.

(** Inserting an entry whose key was met before every key of a sorted table
    keeps the table sorted: the sort is stable. *)
Lemma insert_desc_sorted (col : list scalar) (e : scalar * nat)
    (out : list (scalar * nat)) :
  StronglySorted (freq_then_first col) out →
  Forall (fun e' => met_before col e.1 e'.1) out →
  StronglySorted (freq_then_first col) (insert_desc e out).
Proof.
  intros Hs. induction Hs as [|e' out Hs IH Hf]; intros Hm; simpl.
  - repeat constructor.
  - apply list.Forall_cons in Hm as [Hm' Hm].
    destruct (Nat.ltb_spec e.2 e'.2) as [Hlt|Hge].
    + constructor; [by apply IH|].
      rewrite insert_desc_perm. constructor; [by left|done].
    + assert (He' : freq_then_first col e e').
      { destruct (decide (e'.2 < e.2)%nat); [by left|].
        right. split; [lia|done]. }
      constructor; [by constructor|].
      constructor; [done|].
      apply list.Forall_forall. intros e'' Hin.
      assert (Hc : (e''.2 ≤ e'.2)%nat).
      { eapply list.Forall_forall in Hf; [|done]. destruct Hf as [?|[? _]]; lia. }
      destruct (decide (e''.2 < e.2)%nat); [by left|].
      right. split; [lia|]. by eapply list.Forall_forall in Hm.
Qed.

Lemma sort_values_desc_sorted (col : list scalar) (l : list (scalar * nat)) :
  StronglySorted (met_before col) l.*1 →
  StronglySorted (freq_then_first col) (sort_values_desc l).
Proof.
  induction l as [|e l IH]; csimpl; intros Hs.
  - constructor.
  - apply StronglySorted_inv in Hs as [Hs Hf].
    apply insert_desc_sorted; [by apply IH|].
    rewrite sort_values_desc_perm.
    apply list.Forall_forall. intros e' Hin.
    eapply list.Forall_forall in Hf; [done|].
    apply list_elem_of_fmap. by exists e'.
Qed.

(** What [value_counts] returns for a column. *)
Lemma value_counts_spec (col : list scalar) :
  NoDup (key <$> (value_counts col).*1) ∧
  (∀ v, v ∈ col → isna v = false → key v ∈ key <$> (value_counts col).*1) ∧
  (∀ k n, (k, n) ∈ value_counts col →
     k ∈ col ∧ isna k = false ∧ n = count_key k col) ∧
  first_rows col (value_counts col).*1 ∧
  StronglySorted (freq_then_first col) (value_counts col).
Proof.
  unfold value_counts.
  set (t := tally_from [] (List.filter notna col)).
  assert (Hk : t.*1 = unique_from [] (List.filter notna col)).
  { unfold t. by rewrite tally_keys. }
  destruct (unique_from_spec notna col []) as (H1 & H2 & H3 & H4 & H5).
  { intros x y E. unfold notna. f_equal. apply same_key_isna.
    by apply same_key_key. }
  rewrite <- Hk in H1, H2, H3, H4, H5.
  assert (Hp : (sort_values_desc t).*1 ≡ₚ t.*1).
  { apply fmap_Permutation, sort_values_desc_perm. }
  split; [by rewrite Hp|]. split; [|split; [|split]].
  - intros v Hv Nv. rewrite Hp.
    assert (Pv : notna v = true) by (unfold notna; by rewrite Nv).
    by destruct (H5 v Hv Pv) as [?%elem_of_nil|?].
  - intros k n Hin. rewrite sort_values_desc_perm in Hin.
    assert (Hkin : k ∈ t.*1). { apply list_elem_of_fmap. by exists (k, n). }
    destruct (H1 k Hkin) as (_ & Nk). destruct (H2 k Hkin) as (p & _ & Hp').
    assert (Nk' : isna k = false).
    { unfold notna in Nk. by destruct (isna k). }
    split; [by eapply list_elem_of_lookup_2|]. split; [done|].
    rewrite <- (count_key_notna k col Nk').
    rewrite <- (count_of_entry k n t H4 Hin). unfold t.
    rewrite tally_count. unfold count_of. simpl. lia.
  - intros x Hx. apply H2. by rewrite <- Hp.
  - by apply sort_values_desc_sorted.
Qed.

Lemma filter_all (l : list scalar) : List.filter (fun _ => true) l = l.
Proof. induction l as [|x l IH]; simpl; [done|]. by rewrite IH. Qed.

Lemma unique_spec (col : list scalar) :
  NoDup (key <$> unique col) ∧
  (∀ v, v ∈ col → key v ∈ key <$> unique col) ∧
  first_rows col (unique col) ∧
  StronglySorted (met_before col) (unique col).
Proof.
  destruct (unique_from_spec (fun _ => true) col []) as (H1 & H2 & H3 & H4 & H5);
    [done|].
  rewrite filter_all in *. unfold unique. split; [done|]. split; [|by split].
  intros v Hv. by destruct (H5 v Hv eq_refl) as [?%elem_of_nil|?].
Qed.

End FrameFacts.

(* ===================================================================== *)
(** * Facts about the script *)
(* ===================================================================== *)

Module ScriptFacts.
Import Frame Host Script.
Local Open Scope script_scope.

Lemma get_col_set_col_eq (name : string) (c : column) (t : table) :
  get_col name (set_col name c t) = Some c.
Proof.
  induction t as [|[n c0] t IH]; simpl.
  - by rewrite String.eqb_refl.
  - destruct (String.eqb n name) eqn:E; simpl; by rewrite E.
Qed.

Lemma get_col_set_col_ne (name name' : string) (c : column) (t : table) :
  name ≠ name' → get_col name' (set_col name c t) = get_col name' t.
Proof.
  intros Hne. induction t as [|[n c0] t IH]; simpl.
  - apply String.eqb_neq in Hne. by rewrite Hne.
  - destruct (String.eqb n name) eqn:E; simpl.
    + apply String.eqb_eq in E as ->.
      apply String.eqb_neq in Hne. by rewrite Hne.
    + by rewrite IH.
Qed.

(** Replacing a column by a different one changes the table. *)
Lemma set_col_changes (name : string) (c c' : column) (t : table) :
  get_col name t = Some c → c ≠ c' → set_col name c' t ≠ t.
Proof.
  intros Hc Hne E. rewrite <- E, get_col_set_col_eq in Hc. congruence.
Qed.

(** Replacing a column by itself does not. *)
Lemma set_col_same (name : string) (c : column) (t : table) :
  get_col name t = Some c → set_col name c t = t.
Proof.
  induction t as [|[n c1] t IH]; simpl; [done|].
  destruct (String.eqb n name) eqn:E; [by intros [= ->]|].
  intros Hc. by rewrite IH.
Qed.

Section WithHost.
Context `{Numerics} `{Storage} `{Backend}.

(** ** [astype] *)

Lemma convert_fails {A : Type} (f : scalar → option A) (target : dtype)
    (l : list scalar) :
  (∃ v, v ∈ l ∧ f v = None) →
  ∃ v, v ∈ l ∧ f v = None ∧ convert f target l = Raise (TypeConversionError target v).
Proof.
  induction l as [|x l IH]; simpl.
  - by intros (v & ?%elem_of_nil & _).
  - intros (v & Hv & Hf). destruct (f x) as [a|] eqn:E.
    + apply elem_of_cons in Hv as [->|Hv]; [congruence|].
      destruct IH as (v' & Hv' & Hf' & ->); [by exists v|].
      exists v'. split; [by right|done].
    + exists x. split; [by left|done].
Qed.

Lemma convert_raises {A : Type} (f : scalar → option A) (target : dtype)
    (l : list scalar) (e : exn) :
  convert f target l = Raise e →
  ∃ v, v ∈ l ∧ f v = None ∧ e = TypeConversionError target v.
Proof.
  induction l as [|x l IH]; simpl; [done|].
  destruct (f x) as [a|] eqn:E.
  - destruct (convert f target l) as [r|e'] eqn:E'; [done|].
    intros [= <-]. destruct IH as (v & Hv & Hf & ->); [done|].
    exists v. split; [by right|done].
  - intros [= <-]. exists x. split; [by left|done].
Qed.

(** ** The stages *)

Lemma getitem_ok (w : world) (df : loc) (t : table) (name : string)
    (c : column) :
  w_heap w !! df = Some t → get_col name t = Some c →
  getitem df name w = (Ok c, w).
Proof. intros Hh Hc. unfold getitem, bind, deref. by rewrite Hh, Hc. Qed.

Lemma getitem_missing (w : world) (df : loc) (t : table) (name : string) :
  w_heap w !! df = Some t → get_col name t = None →
  getitem df name w = (Raise (KeyError name), w).
Proof. intros Hh Hc. unfold getitem, bind, deref. by rewrite Hh, Hc. Qed.

Lemma load_data_ok (w : world) (file_path : string) (t : table) :
  read_csv file_path (w_fs w) = Ok t →
  load_data file_path w =
    (Ok (fresh (dom (w_heap w))),
     logged [(INFO, DataLoaded)]
       (set_heap (<[fresh (dom (w_heap w)) := t]> (w_heap w)) w)).
Proof.
  intros Hr. unfold load_data, try_except, bind, pd_read_csv. by rewrite Hr.
Qed.

Lemma load_data_raises (w : world) (file_path : string) (e : exn) :
  read_csv file_path (w_fs w) = Raise e →
  load_data file_path w = (Raise e, logged [(ERROR, ErrorLoading e)] w).
Proof.
  intros Hr. unfold load_data, try_except, bind, pd_read_csv. rewrite Hr.
  by destruct w.
Qed.

Lemma process_data_no_charges (w : world) (df : loc) (t : table) :
  w_heap w !! df = Some t → get_col "charges" t = None →
  process_data df w =
    (Raise (KeyError "charges"),
     logged [(ERROR, ErrorProcessing (KeyError "charges"))] w).
Proof.
  intros Hh Hc. unfold process_data, try_except, bind.
  rewrite (getitem_missing w df t) by done. by destruct w.
Qed.

Lemma process_data_charges_raise (w : world) (df : loc) (t : table)
    (charges : column) (e : exn) :
  w_heap w !! df = Some t → get_col "charges" t = Some charges →
  astype_float charges = Raise e →
  process_data df w = (Raise e, logged [(ERROR, ErrorProcessing e)] w).
Proof.
  intros Hh Hc He. unfold process_data, try_except, bind.
  rewrite (getitem_ok w df t _ _ Hh Hc). unfold lift. rewrite He.
  by destruct w.
Qed.

Lemma process_data_age_raise (w : world) (df : loc) (t : table)
    (charges charges' age : column) (e : exn) :
  w_heap w !! df = Some t → get_col "charges" t = Some charges →
  astype_float charges = Ok charges' →
  get_col "age" t = Some age → astype_int age = Raise e →
  process_data df w =
    (Raise e,
     logged [(ERROR, ErrorProcessing e)]
       (set_heap (<[df := set_col "charges" charges' t]> (w_heap w)) w)).
Proof.
  intros Hh Hc Hf Ha He. unfold process_data, try_except, bind.
  rewrite (getitem_ok w df t _ _ Hh Hc). unfold lift. rewrite Hf.
  unfold setitem, bind, deref. rewrite Hh.
  erewrite getitem_ok; [| by apply lookup_insert_eq |
    by rewrite get_col_set_col_ne].
  by rewrite He.
Qed.

Lemma process_data_no_age (w : world) (df : loc) (t : table)
    (charges charges' : column) :
  w_heap w !! df = Some t → get_col "charges" t = Some charges →
  astype_float charges = Ok charges' →
  get_col "age" t = None →
  process_data df w =
    (Raise (KeyError "age"),
     logged [(ERROR, ErrorProcessing (KeyError "age"))]
       (set_heap (<[df := set_col "charges" charges' t]> (w_heap w)) w)).
Proof.
  intros Hh Hc Hf Ha. unfold process_data, try_except, bind.
  rewrite (getitem_ok w df t _ _ Hh Hc). unfold lift. rewrite Hf.
  unfold setitem, bind, deref. rewrite Hh.
  erewrite getitem_missing; [done | by apply lookup_insert_eq |
    by rewrite get_col_set_col_ne].
Qed.

Lemma process_data_ok (w : world) (df : loc) (t : table)
    (charges charges' age age' : column) :
  w_heap w !! df = Some t → get_col "charges" t = Some charges →
  astype_float charges = Ok charges' →
  get_col "age" t = Some age → astype_int age = Ok age' →
  process_data df w =
    (Ok df,
     logged [(INFO, DataProcessed)]
       (set_heap
          (<[df := set_col "age" age' (set_col "charges" charges' t)]> (w_heap w))
          w)).
Proof.
  intros Hh Hc Hf Ha Hi. unfold process_data, try_except, bind.
  rewrite (getitem_ok w df t _ _ Hh Hc). unfold lift. rewrite Hf.
  unfold setitem, bind, deref. rewrite Hh.
  erewrite getitem_ok; [| by apply lookup_insert_eq |
    by rewrite get_col_set_col_ne].
  rewrite Hi. simpl. rewrite lookup_insert_eq. simpl.
  by rewrite insert_insert_eq.
Qed.


(** [process_data] leaves [age] and [charges] numeric. *)
Lemma process_data_numeric (w w' : world) (df df' : loc) (t : table) :
  w_heap w !! df = Some t → process_data df w = (Ok df', w') →
  ∃ t' age charges,
    df' = df ∧ w_heap w' !! df = Some t' ∧
    get_col "age" t' = Some age ∧ numeric age = true ∧
    get_col "charges" t' = Some charges ∧ numeric charges = true.
Proof.
  intros Hh Hp.
  destruct (get_col "charges" t) as [charges|] eqn:Ec;
    [|by rewrite (process_data_no_charges w df t Hh Ec) in Hp].
  destruct (astype_float charges) as [charges'|e] eqn:Ef;
    [|by rewrite (process_data_charges_raise w df t _ _ Hh Ec Ef) in Hp].
  destruct (get_col "age" t) as [age|] eqn:Ea;
    [|by rewrite (process_data_no_age w df t _ _ Hh Ec Ef Ea) in Hp].
  destruct (astype_int age) as [age'|e] eqn:Ei;
    [|by rewrite (process_data_age_raise w df t _ _ _ _ Hh Ec Ef Ea Ei) in Hp].
  rewrite (process_data_ok w df t _ _ _ _ Hh Ec Ef Ea Ei) in Hp.
  injection Hp as <- <-.
  exists (set_col "age" age' (set_col "charges" charges' t)), age', charges'.
  split; [done|]. split; [apply lookup_insert_eq|].
  rewrite get_col_set_col_eq, get_col_set_col_ne, get_col_set_col_eq by done.
  unfold astype_int in Ei. unfold astype_float in Ef.
  destruct (convert to_int Int64 (cells age)); [|done].
  destruct (convert to_float Float64 (cells charges)); [|done].
  injection Ei as <-. injection Ef as <-. done.
Qed.

Lemma save_data_ok (w : world) (df : loc) (t : table) (file_path : string)
    (f : fs) :
  w_heap w !! df = Some t → to_csv t file_path false (w_fs w) = (f, None) →
  save_data df file_path w =
    (Ok tt, logged [(INFO, DataSaved file_path)] (set_fs f w)).
Proof.
  intros Hh Hf. unfold save_data, try_except, bind, df_to_csv, bind, deref.
  by rewrite Hh, Hf.
Qed.

Lemma save_data_raises (w : world) (df : loc) (t : table) (file_path : string)
    (f : fs) (e : exn) :
  w_heap w !! df = Some t →
  to_csv t file_path false (w_fs w) = (f, Some e) →
  save_data df file_path w =
    (Raise e, logged [(ERROR, ErrorSaving e)] (set_fs f w)).
Proof.
  intros Hh Hf. unfold save_data, try_except, bind, df_to_csv, bind, deref.
  by rewrite Hh, Hf.
Qed.

(** ** Actions that only look at the tables *)

Lemma shown_nil (w : world) : shown [] (w_display w) w = w.
Proof. destruct w. unfold shown. simpl. by rewrite app_nil_r. Qed.

Lemma shown_shown (ls ls' : list record) (d d' : display) (w : world) :
  shown ls' d' (shown ls d w) = shown (ls ++ ls') d' w.
Proof. unfold shown. simpl. by rewrite app_assoc. Qed.

Section Lines.
Context (ok : record → Prop).

Lemma table_reader_ret {A : Type} (a : A) : table_reader ok (ret a).
Proof.
  intros w. exists (Ok a), [], (w_display w). unfold ret.
  split; [done|]. split; [by rewrite shown_nil|].
  intros w2 _ <-. by rewrite shown_nil.
Qed.

Lemma table_reader_raise {A : Type} (e : exn) :
  table_reader ok (@raise _ _ A e).
Proof.
  intros w. exists (Raise e), [], (w_display w). unfold raise.
  split; [done|]. split; [by rewrite shown_nil|].
  intros w2 _ <-. by rewrite shown_nil.
Qed.

Lemma table_reader_lift {A : Type} (r : result A) : table_reader ok (lift r).
Proof.
  intros w. exists r, [], (w_display w). unfold lift.
  split; [done|]. split; [by rewrite shown_nil|].
  intros w2 _ <-. by rewrite shown_nil.
Qed.

Lemma table_reader_logging (l : level) (m : message) :
  ok (l, m) → table_reader ok (logging l m).
Proof.
  intros Hok w. exists (Ok tt), [(l, m)], (w_display w).
  split; [by repeat constructor|]. split; [done|].
  by intros w2 _ <-.
Qed.

Lemma table_reader_deref (df : loc) : table_reader ok (deref df).
Proof.
  intros w. unfold deref. destruct (w_heap w !! df) as [t|] eqn:E.
  - exists (Ok t), [], (w_display w). split; [done|].
    split; [by rewrite shown_nil|].
    intros w2 Hh <-. by rewrite Hh, E, shown_nil.
  - eexists _, [], (w_display w). split; [done|].
    split; [by rewrite shown_nil|].
    intros w2 Hh <-. by rewrite Hh, E, shown_nil.
Qed.

Lemma table_reader_plt (c : plot_call) : table_reader ok (plt c).
Proof.
  intros w. unfold plt. destruct (plot c (w_display w)) as [d [e|]] eqn:E.
  - exists (Raise e), [], d. split; [done|]. split.
    + unfold shown, set_display. simpl. by rewrite app_nil_r.
    + intros w2 _ Hd. rewrite Hd, E. unfold shown, set_display. simpl.
      by rewrite app_nil_r.
  - exists (Ok tt), [], d. split; [done|]. split.
    + unfold shown, set_display. simpl. by rewrite app_nil_r.
    + intros w2 _ Hd. rewrite Hd, E. unfold shown, set_display. simpl.
      by rewrite app_nil_r.
Qed.

Lemma table_reader_bind {A B : Type} (m : M A) (k : A → M B) :
  table_reader ok m → (∀ a, table_reader ok (k a)) →
  table_reader ok (bind m k).
Proof.
  intros Hm Hk w. destruct (Hm w) as (r & ls & d & Hok & E & E2).
  destruct r as [a|e].
  - destruct (Hk a (shown ls d w)) as (r' & ls' & d' & Hok' & E' & E2').
    exists r', (ls ++ ls'), d'. unfold bind.
    split; [by apply Forall_app|]. split.
    + by rewrite E, E', shown_shown.
    + intros w2 Hh Hd. rewrite (E2 w2 Hh Hd), (E2' (shown ls d w2)) by done.
      by rewrite shown_shown.
  - exists (Raise e), ls, d. unfold bind. split; [done|].
    split; [by rewrite E|].
    intros w2 Hh Hd. by rewrite (E2 w2 Hh Hd).
Qed.

Lemma table_reader_try {A : Type} (m : M A) (h : exn → M A) :
  table_reader ok m → (∀ e, table_reader ok (h e)) →
  table_reader ok (try_except m h).
Proof.
  intros Hm Hh w. destruct (Hm w) as (r & ls & d & Hok & E & E2).
  destruct r as [a|e].
  - exists (Ok a), ls, d. unfold try_except. split; [done|].
    split; [by rewrite E|].
    intros w2 Hh' Hd. by rewrite (E2 w2 Hh' Hd).
  - destruct (Hh e (shown ls d w)) as (r' & ls' & d' & Hok' & E' & E2').
    exists r', (ls ++ ls'), d'. unfold try_except.
    split; [by apply Forall_app|]. split.
    + by rewrite E, E', shown_shown.
    + intros w2 Hh' Hd. rewrite (E2 w2 Hh' Hd), (E2' (shown ls d w2)) by done.
      by rewrite shown_shown.
Qed.

Lemma table_reader_getitem (df : loc) (name : string) :
  table_reader ok (getitem df name).
Proof.
  apply table_reader_bind; [apply table_reader_deref|].
  intros t. destruct (get_col name t);
    [apply table_reader_ret|apply table_reader_raise].
Qed.

Lemma table_reader_groupby (df : loc) (by_ val : string) :
  table_reader ok (df_groupby_mean df by_ val).
Proof.
  apply table_reader_bind; [apply table_reader_deref|].
  intros t. apply table_reader_lift.
Qed.

End Lines.

Ltac table_reader :=
  repeat first
    [ apply table_reader_getitem
    | apply table_reader_groupby
    | apply table_reader_deref
    | apply table_reader_plt
    | apply table_reader_logging; [done]
    | apply table_reader_lift
    | apply table_reader_ret
    | apply table_reader_raise
    | apply table_reader_try; [|intros ?]
    | apply table_reader_bind; [|intros ?] ].

(** The body of [visualize_data] logs nothing. *)
Lemma table_reader_visualize_body (df : loc) :
  table_reader (fun _ => False) (visualize_body df).
Proof. unfold visualize_body. table_reader. Qed.

Lemma table_reader_visualize_data (df : loc) :
  table_reader (fun _ => True) (visualize_data df).
Proof. unfold visualize_data, visualize_body. table_reader. Qed.

Lemma table_reader_automated_analysis (df : loc) :
  table_reader (fun _ => True) (automated_analysis df).
Proof.
  unfold automated_analysis, analyze_ages, analyze_sexes, average_charges,
    unique_regions. cbv zeta. cbn [self_df].
  repeat (apply table_reader_bind; [table_reader|intros ?]).
  apply table_reader_visualize_data.
Qed.

(** [visualize_data] in every world with the same tables and display: it
    ends normally, with the same display and the same line, if any. *)
Lemma visualize_data_lines (df : loc) (w : world) :
  ∃ es d,
    (es = [] ∨ ∃ e, es = [(ERROR, ErrorVisualizing e)]) ∧
    ∀ w2, w_heap w2 = w_heap w → w_display w2 = w_display w →
          visualize_data df w2 = (Ok tt, shown es d w2).
Proof.
  destruct (table_reader_visualize_body df w) as (r & ls & d & Hok & _ & E).
  assert (ls = []) as -> by (by destruct Hok).
  destruct r as [[]|e].
  - exists [], d. split; [by left|]. intros w2 Hh Hd.
    unfold visualize_data, try_except. by rewrite (E w2 Hh Hd).
  - exists [(ERROR, ErrorVisualizing e)], d. split; [right; by exists e|].
    intros w2 Hh Hd. unfold visualize_data, try_except.
    rewrite (E w2 Hh Hd). unfold logging, shown. simpl.
    by rewrite app_nil_r.
Qed.

(** ** [visualize_data] *)

(** [visualize_data] ends normally; what its body raised is the one line it
    logs. *)
Lemma visualize_data_swallows (df : loc) (w : world) :
  ∃ w',
    visualize_data df w = (Ok tt, w') ∧
    match visualize_body df w with
    | (Ok _, w0) => w' = w0
    | (Raise e, w0) => w' = logged [(ERROR, ErrorVisualizing e)] w0
    end.
Proof.
  unfold visualize_data, try_except.
  destruct (visualize_body df w) as [[[]|e] w0]; eexists; split; done.
Qed.

(** ** [automated_analysis] *)

Lemma bind_eq {A B : Type} (m : M A) (k : A → M B) (w : world) :
  bind m k w =
  match m w with
  | (Ok a, w') => k a w'
  | (Raise e, w') => (Raise e, w')
  end.
Proof. done. Qed.

Lemma mean_query_eq (w : world) (df : loc) (t : table) (name : string) :
  w_heap w !! df = Some t →
  (c <- getitem df name ;; m <- lift (col_mean c) ;; ret (round_float m 2)) w =
    match get_col name t with
    | None => (Raise (KeyError name), w)
    | Some c =>
        match col_mean c with
        | Ok m => (Ok (round_float m 2), w)
        | Raise e => (Raise e, w)
        end
    end.
Proof.
  intros Hh. rewrite bind_eq. destruct (get_col name t) as [c|] eqn:E.
  - rewrite (getitem_ok w df t _ _ Hh E). unfold bind, lift, ret.
    by destruct (col_mean c).
  - by rewrite (getitem_missing w df t _ Hh E).
Qed.

Lemma column_query_eq {A : Type} (w : world) (df : loc) (t : table)
    (name : string) (f : column → A) :
  w_heap w !! df = Some t →
  (c <- getitem df name ;; ret (f c)) w =
    match get_col name t with
    | None => (Raise (KeyError name), w)
    | Some c => (Ok (f c), w)
    end.
Proof.
  intros Hh. rewrite bind_eq. destruct (get_col name t) as [c|] eqn:E.
  - by rewrite (getitem_ok w df t _ _ Hh E).
  - by rewrite (getitem_missing w df t _ Hh E).
Qed.

Lemma automated_analysis_eq (w : world) (df : loc) (t : table) :
  w_heap w !! df = Some t →
  automated_analysis df w =
    match analysis_lines t with
    | Raise e => (Raise e, w)
    | Ok ls => visualize_data df (logged ls w)
    end.
Proof.
  intros Hh. unfold automated_analysis, analysis_lines, analyze_ages,
    analyze_sexes, average_charges, unique_regions.
  cbv zeta. cbn [self_df].
  rewrite bind_eq, (mean_query_eq w df t "age" Hh).
  destruct (get_col "age" t) as [age|]; [|done].
  destruct (col_mean age) as [avg_age|e]; [|done].
  rewrite bind_eq, (column_query_eq w df t "sex" _ Hh).
  destruct (get_col "sex" t) as [sex|]; [|done].
  rewrite bind_eq, (mean_query_eq w df t "charges" Hh).
  destruct (get_col "charges" t) as [charges|]; [|done].
  destruct (col_mean charges) as [avg_charges|e]; [|done].
  rewrite bind_eq, (column_query_eq w df t "region" _ Hh).
  destruct (get_col "region" t) as [region|]; [|done].
  unfold bind, logging, logged.
  cbn [w_fs w_heap w_log w_display w_clock].
  by rewrite <- !app_assoc.
Qed.

(** ** Means of numeric columns *)

Lemma col_mean_numeric (c : column) :
  numeric c = true → ∃ m, col_mean c = Ok m.
Proof. destruct c; simpl; intros ?; try done; by eexists. Qed.

Lemma select_numeric (m : list bool) (c : column) :
  numeric (select m c) = numeric c.
Proof. by destruct c. Qed.

Lemma group_means_numeric (kc : list scalar) (vc : column) (keys : list scalar) :
  numeric vc = true → ∃ r, group_means kc vc keys = Ok r.
Proof.
  intros Hn. induction keys as [|k keys [r IH]]; simpl; [by eexists|].
  destruct (col_mean_numeric (select (same_key k <$> kc) vc)) as [m ->].
  { by rewrite select_numeric. }
  rewrite IH. by eexists.
Qed.

(** ** The charts *)

Lemma plt_bind {B : Type} (c : plot_call) (k : unit → M B) (w : world) :
  bind (plt c) k w =
  match plot c (w_display w) with
  | (d, None) => k tt (set_display d w)
  | (d, Some e) => (Raise e, set_display d w)
  end.
Proof. unfold bind, plt. by destruct (plot c (w_display w)) as [d [e|]]. Qed.

Lemma groupby_bind {B : Type} (df : loc) (by_ val : string)
    (k : list (scalar * spec_float) → M B) (w : world) (t : table) :
  w_heap w !! df = Some t →
  bind (df_groupby_mean df by_ val) k w =
  match groupby_mean by_ val t with
  | Ok r => k r w
  | Raise e => (Raise e, w)
  end.
Proof.
  intros Hh. unfold bind, df_groupby_mean, bind, deref, lift. rewrite Hh.
  by destruct (groupby_mean by_ val t).
Qed.

Lemma groupby_mean_numeric (by_ val : string) (t : table) (kc vc : column) :
  get_col by_ t = Some kc → get_col val t = Some vc → numeric vc = true →
  ∃ r, groupby_mean by_ val t = Ok r.
Proof.
  intros Hk Hv Hn. unfold groupby_mean. rewrite Hk, Hv.
  by apply group_means_numeric.
Qed.

(** One call of the backend in the body of [visualize_data]: either it
    fails, and the body has raised, or the body goes on. *)
Ltac draw :=
  rewrite plt_bind;
  match goal with
  | |- context [plot ?c ?d] =>
      let E := fresh "E" in
      destruct (plot c d) as [? [?|]] eqn:E;
      [ eexists _, _; split; [reflexivity|]; split; [done|];
        let Hb := fresh in
        intros Hb; specialize (Hb c d); rewrite E in Hb; discriminate Hb
      | ]
  end.

(** Without a [smoker] column the body of [visualize_data] raises: the
    [KeyError] of the second chart, unless the backend failed before. *)
Lemma visualize_body_no_smoker (w : world) (df : loc) (t : table)
    (region charges : column) :
  w_heap w !! df = Some t →
  get_col "region" t = Some region →
  get_col "charges" t = Some charges → numeric charges = true →
  get_col "smoker" t = None →
  ∃ e w',
    visualize_body df w = (Raise e, w') ∧ drew w w' ∧
    ((∀ c d, (plot c d).2 = None) → e = KeyError "smoker").
Proof.
  intros Hh Hr Hc Hn Hs. unfold visualize_body.
  destruct (groupby_mean_numeric "region" "charges" t region charges Hr Hc Hn)
    as [means Hg].
  assert (Hsm : groupby_mean "smoker" "charges" t = Raise (KeyError "smoker")).
  { unfold groupby_mean. by rewrite Hs. }
  draw.
  rewrite (groupby_bind _ _ _ _ _ t), Hg by done.
  rewrite (groupby_bind _ _ _ _ _ t), Hg by done.
  do 7 draw.
  rewrite (groupby_bind _ _ _ _ _ t), Hsm by done.
  eexists _, _. split; [reflexivity|]. split; done.
Qed.

End WithHost.
End ScriptFacts.

(* ===================================================================== *)
(** * Facts about the scheduler *)
(* ===================================================================== *)

Module ScheduleFacts.
Import Frame Host Script Schedule ScriptFacts.
Local Open Scope script_scope.

(** The next run is the first occurrence of the time of day after [now]. *)
Lemma schedule_next_run_spec (at_time now : Z) :
  0 ≤ at_time < day →
  now < schedule_next_run at_time now ≤ now + day ∧
  schedule_next_run at_time now mod day = at_time.
Proof.
  intros Hat. unfold schedule_next_run.
  change day with 86400000000 in *.
  destruct (Z.leb_spec (now / 86400000000 * 86400000000 + at_time) now).
  - split; [Z.to_euclidean_division_equations; lia|].
    symmetry. apply Z.mod_unique_pos with (q := now / 86400000000 + 1); lia.
  - split; [Z.to_euclidean_division_equations; lia|].
    symmetry. apply Z.mod_unique_pos with (q := now / 86400000000); lia.
Qed.

(** After a run that is less than a day late the job is due a day later. *)
Lemma schedule_next_run_after (at_time nr now : Z) :
  0 ≤ at_time < day → nr mod day = at_time → nr ≤ now < nr + day →
  schedule_next_run at_time now = nr + day.
Proof.
  intros Hat Hnr Hnow. unfold schedule_next_run.
  change day with 86400000000 in *.
  destruct (Z.leb_spec (now / 86400000000 * 86400000000 + at_time) now);
    Z.to_euclidean_division_equations; lia.
Qed.

Section WithHost.
Context `{Numerics} `{Storage} `{Backend}.

Lemma run_pending_single (j : job) (w : world) :
  run_pending [j] w =
  if next_run j <=? w_clock w
  then (job_func j ;; fun w' => (Ok [ran_at (w_clock w') j], w')) w
  else (Ok [j], w).
Proof.
  unfold run_pending, runnable_jobs, should_run. simpl.
  destruct (next_run j <=? w_clock w); [|done].
  simpl. unfold run_job, bind. simpl.
  destruct (job_func j w) as [[[]|e] w']; done.
Qed.

Lemma run_pending_idle (j : job) (w : world) :
  w_clock w < next_run j → run_pending [j] w = (Ok [j], w).
Proof.
  intros Hlt. rewrite run_pending_single.
  destruct (Z.leb_spec (next_run j) (w_clock w)); [lia|done].
Qed.

Lemma run_pending_due (j : job) (w : world) :
  next_run j ≤ w_clock w →
  run_pending [j] w =
  (job_func j ;; fun w' => (Ok [ran_at (w_clock w') j], w')) w.
Proof.
  intros Hle. rewrite run_pending_single.
  destruct (Z.leb_spec (next_run j) (w_clock w)); [done|lia].
Qed.

Lemma bind_assoc {A B C : Type} (m : M A) (k : A → M B) (k' : B → M C)
    (w : world) :
  bind (bind m k) k' w = bind m (fun a => bind (k a) k') w.
Proof. unfold bind. by destruct (m w) as [[a|e] w']. Qed.

Lemma sleep_bind {B : Type} (e : env) (k : unit → M B) (w : world) :
  bind (sleep e) k w = k tt (slept e w).
Proof. done. Qed.

Lemma idle_ok (envs : list env) (w : world) :
  idle envs w = (Ok tt, (idle envs w).2).
Proof.
  revert w. induction envs as [|e envs IH]; intros w; simpl; [done|].
  rewrite sleep_bind. apply IH.
Qed.

Lemma idle_bind {B : Type} (envs : list env) (k : unit → M B) (w : world) :
  bind (idle envs) k w = k tt (idle envs w).2.
Proof. rewrite bind_eq. by rewrite idle_ok. Qed.

(** A poll before the job is due does nothing. *)
Lemma run_forever_skip (j : job) (e : env) (envs : list env) (w : world) :
  w_clock w < next_run j →
  run_forever [j] (e :: envs) w = run_forever [j] envs (slept e w).
Proof.
  intros Hw. simpl. rewrite bind_eq, run_pending_idle by done.
  by rewrite sleep_bind.
Qed.

(** While the job is not due the loop only sleeps. *)
Lemma run_forever_idle (j : job) (envs : list env) (w : world) :
  w_clock w < next_run j →
  Forall (fun e => env_clock e < next_run j) envs →
  run_forever [j] envs w = (Ok [j], (idle envs w).2).
Proof.
  revert w. induction envs as [|e envs IH]; intros w Hw Hf.
  - simpl. by rewrite run_pending_idle.
  - apply list.Forall_cons in Hf as [He Hf].
    rewrite run_forever_skip by done. simpl. rewrite sleep_bind.
    by apply IH.
Qed.

(** A poll at which the job is due runs it; the polls that follow, until it
    is due again, do nothing. *)
Lemma run_forever_fire (j : job) (post : list env) (w : world) :
  keeps_clock (job_func j) →
  next_run j ≤ w_clock w →
  Forall (fun x => env_clock x < schedule_next_run (at_time j) (w_clock w))
    post →
  run_forever [j] post w =
  (job_func j ;; idle post ;; ret [ran_at (w_clock w) j]) w.
Proof.
  intros Hk Hw Hpost. rewrite (bind_eq (job_func j)).
  destruct post as [|p post]; simpl.
  - rewrite run_pending_due, bind_eq by done.
    destruct (job_func j w) as [[[]|ex] w1] eqn:Ef; [|done].
    by rewrite (Hk _ _ _ Ef).
  - rewrite bind_eq, run_pending_due, bind_eq by done.
    destruct (job_func j w) as [[[]|ex] w1] eqn:Ef; [|done].
    rewrite (Hk _ _ _ Ef). apply list.Forall_cons in Hpost as [Hp Hpost].
    rewrite bind_assoc, !sleep_bind, idle_bind.
    by rewrite (run_forever_idle (ran_at (w_clock w) j)).
Qed.

(** The job runs at the first poll at or after [next_run], and only then. *)
Lemma run_forever_fires_once (j : job) (pre post : list env) (e : env)
    (w : world) :
  keeps_clock (job_func j) →
  w_clock w < next_run j →
  Forall (fun x => env_clock x < next_run j) pre →
  next_run j ≤ env_clock e →
  Forall (fun x => env_clock x < schedule_next_run (at_time j) (env_clock e))
    post →
  run_forever [j] (pre ++ e :: post) w =
  (idle pre ;; sleep e ;; job_func j ;; idle post ;;
   ret [ran_at (env_clock e) j]) w.
Proof.
  intros Hk. revert w.
  induction pre as [|x pre IH]; intros w Hw Hpre He Hpost.
  - simpl app. rewrite run_forever_skip by done.
    rewrite idle_bind, sleep_bind. simpl idle. unfold ret at 1. simpl snd.
    by rewrite run_forever_fire.
  - apply list.Forall_cons in Hpre as [Hx Hpre]. simpl app.
    rewrite run_forever_skip by done.
    rewrite IH by done. simpl idle. by rewrite bind_assoc, sleep_bind.
Qed.

(** ** The steady state *)

Lemma load_data_inv (w w' : world) (file_path : string) (df : loc) :
  load_data file_path w = (Ok df, w') →
  ∃ t, read_csv file_path (w_fs w) = Ok t ∧ w_heap w' !! df = Some t.
Proof.
  destruct (read_csv file_path (w_fs w)) as [t|e] eqn:E.
  - rewrite (load_data_ok w file_path t E). intros [= <- <-].
    exists t. split; [done|]. apply lookup_insert_eq.
  - by rewrite (load_data_raises w file_path e E).
Qed.

Lemma save_data_heap (w w' : world) (df : loc) (file_path : string)
    (r : result unit) :
  save_data df file_path w = (r, w') → w_heap w' = w_heap w.
Proof.
  unfold save_data, try_except, bind, df_to_csv, bind, deref.
  destruct (w_heap w !! df) as [t|]; [|by intros [= <- <-]].
  destruct (to_csv t file_path false (w_fs w)) as [f [e|]];
    by intros [= <- <-].
Qed.

Lemma automated_analysis_frame (w w' : world) (df : loc) (r : result unit) :
  automated_analysis df w = (r, w') →
  w_heap w' = w_heap w ∧ w_fs w' = w_fs w ∧ w_clock w' = w_clock w.
Proof.
  destruct (table_reader_automated_analysis df w) as (r0 & ls & d & _ & E & _).
  rewrite E. by intros [= <- <-].
Qed.

Lemma keeps_clock_automated_analysis (df : loc) :
  keeps_clock (automated_analysis df).
Proof. intros w r w' E. by apply automated_analysis_frame in E as (_ & _ & ?). Qed.

(** An analysis that ended normally found its four results. *)
Lemma automated_analysis_ok_lines (w w' : world) (df : loc) (t : table) :
  w_heap w !! df = Some t → automated_analysis df w = (Ok tt, w') →
  ∃ ls, analysis_lines t = Ok ls.
Proof.
  intros Hh. rewrite (automated_analysis_eq w df t Hh).
  destruct (analysis_lines t) as [ls|e]; [by exists ls|done].
Qed.

Section Steady.
Context (df : loc) (T : table) (ls : list record).
Context (Hlines : analysis_lines T = Ok ls).

Lemma poll_block_lines (due : bool) (block : list record) :
  poll_block ls due block → poll_lines ls block.
Proof. destruct due; simpl; [by right|by left]. Qed.

Lemma poll_blocks_lines (dues : list bool) (blocks : list (list record)) :
  Forall2 (poll_block ls) dues blocks → Forall (poll_lines ls) blocks.
Proof.
  induction 1 as [|due block dues blocks Hb _ IH]; constructor; [|done].
  by eapply poll_block_lines.
Qed.

(** One poll of the steady state, in every world with the startup table,
    the same display and the same clock: the job runs when it is due, and
    only then. *)
Lemma steady_poll (j : job) (w : world) :
  job_func j = automated_analysis df → w_heap w !! df = Some T →
  ∃ block d,
    poll_block ls (next_run j <=? w_clock w) block ∧
    ∀ w2, w_heap w2 = w_heap w → w_display w2 = w_display w →
          w_clock w2 = w_clock w →
          (if next_run j <=? w_clock w then automated_analysis df else ret tt)
            w2 = (Ok tt, shown block d w2) ∧
          run_pending [j] w2 =
            (Ok [if next_run j <=? w_clock w then ran_at (w_clock w) j else j],
             shown block d w2).
Proof.
  intros Hf Hh. destruct (Z.leb_spec (next_run j) (w_clock w)) as [Hdue|Hnot].
  - destruct (visualize_data_lines df (logged ls w)) as (es & d & Hes & E).
    exists (ls ++ es), d. split; [by exists es|].
    intros w2 Hh2 Hd2 Hc2.
    assert (Ea : automated_analysis df w2 = (Ok tt, shown (ls ++ es) d w2)).
    { rewrite (automated_analysis_eq w2 df T) by by rewrite Hh2.
      rewrite Hlines, (E (logged ls w2)) by done.
      unfold shown, logged. simpl. by rewrite app_assoc. }
    split; [done|]. rewrite run_pending_due by lia.
    rewrite bind_eq, Hf, Ea. by rewrite <- Hc2.
  - exists [], (w_display w). split; [done|].
    intros w2 Hh2 Hd2 Hc2. rewrite <- Hd2, shown_nil. split; [done|].
    by rewrite run_pending_idle by lia.
Qed.

(** The loop of the steady state is the daily runs of the analysis: what it
    logs and draws depends on the startup table, the display and the clock
    only. *)
Lemma steady_loop (envs : list env) (j : job) (w : world) :
  job_func j = automated_analysis df → w_heap w !! df = Some T →
  ∃ j' blocks d,
    job_func j' = automated_analysis df ∧ at_time j' = at_time j ∧
    Forall2 (poll_block ls)
      (due_polls (at_time j) (next_run j) (w_clock w) envs) blocks ∧
    ∀ envs2 w2,
      env_clock <$> envs2 = env_clock <$> envs →
      w_heap w2 = w_heap w → w_display w2 = w_display w →
      w_clock w2 = w_clock w →
      ∃ w2',
        run_forever [j] envs2 w2 = (Ok [j'], w2') ∧
        daily_runs (automated_analysis df)
          (due_polls (at_time j) (next_run j) (w_clock w) envs) envs2 w2 =
          (Ok tt, w2') ∧
        w_heap w2' = w_heap w2 ∧
        w_fs w2' = final_fs envs2 (w_fs w2) ∧
        w_log w2' = w_log w2 ++ concat blocks ∧
        w_display w2' = d.
Proof.
  revert j w. induction envs as [|e envs IH]; intros j w Hf Hh.
  - destruct (steady_poll j w Hf Hh) as (block & d & Hb & E).
    exists (if next_run j <=? w_clock w then ran_at (w_clock w) j else j),
      [block], d.
    split; [by destruct (next_run j <=? w_clock w)|].
    split; [by destruct (next_run j <=? w_clock w)|].
    split; [simpl; constructor; [done|constructor]|].
    intros envs2 w2 Hc Hh2 Hd2 Hc2.
    apply fmap_nil_inv in Hc as ->. simpl.
    destruct (E w2 Hh2 Hd2 Hc2) as [Ea Er].
    rewrite Er, bind_eq, Ea. eexists. split; [done|]. split; [done|].
    simpl. by rewrite app_nil_r.
  - destruct (steady_poll j w Hf Hh) as (block & d1 & Hb1 & E).
    set (j1 := if next_run j <=? w_clock w then ran_at (w_clock w) j else j)
      in *.
    assert (Hf1 : job_func j1 = automated_analysis df).
    { unfold j1. by destruct (next_run j <=? w_clock w). }
    assert (Ha1 : at_time j1 = at_time j).
    { unfold j1. by destruct (next_run j <=? w_clock w). }
    assert (Hn1 : next_run j1 =
                  if next_run j <=? w_clock w
                  then schedule_next_run (at_time j) (w_clock w)
                  else next_run j).
    { unfold j1. by destruct (next_run j <=? w_clock w). }
    destruct (IH j1 (slept e (shown block d1 w)) Hf1 Hh)
      as (j' & blocks & d & Hf' & Ha' & Hbs & E').
    rewrite Ha1, Hn1 in Hbs, E'. simpl w_clock in Hbs, E'.
    exists j', (block :: blocks), d. split; [done|].
    split; [congruence|]. split; [simpl; by constructor|].
    intros envs2 w2 Hc Hh2 Hd2 Hc2.
    destruct envs2 as [|e2 envs2]; [done|]. injection Hc as Hc1 Hc.
    destruct (E w2 Hh2 Hd2 Hc2) as [Ea Er].
    cbn [run_forever due_polls daily_runs].
    rewrite bind_eq, Er, sleep_bind.
    rewrite (bind_eq (if next_run j <=? w_clock w then _ else _)), Ea.
    rewrite sleep_bind.
    destruct (E' envs2 (slept e2 (shown block d1 w2)) Hc)
      as (w2' & Er' & Ed' & Hh' & Hfs' & Hlog' & Hd'); [done|done|done|].
    exists w2'. split; [done|]. split; [done|]. split; [done|].
    split; [done|].
    split; [|done]. rewrite Hlog'. simpl. by rewrite app_assoc.
Qed.

End Steady.

(** Polls one second apart reach the trigger less than a second late. *)
Lemma first_tick_at_or_after (nr t : Z) (envs : list env) :
  ticking t envs → t < nr → nr ≤ t + Z.of_nat (length envs) * second →
  ∃ pre e post,
    envs = pre ++ e :: post ∧
    Forall (fun x => env_clock x < nr) pre ∧
    nr ≤ env_clock e < nr + second ∧
    Forall (fun x => env_clock x ≤ t + Z.of_nat (length envs) * second) post.
Proof.
  revert t. induction envs as [|x envs IH]; intros t Ht Hlt Hreach.
  - simpl in Hreach. lia.
  - destruct Ht as [Hx Ht].
    assert (Hbound : ∀ l u, ticking u l →
              Forall (fun y => env_clock y ≤ u + Z.of_nat (length l) * second) l).
    { clear. induction l as [|y l IHl]; intros u Hu; [done|].
      destruct Hu as [Hy Hu]. constructor.
      - rewrite Hy. unfold second. simpl length. lia.
      - eapply list.Forall_impl; [by apply IHl|].
        intros z Hz. simpl in Hz. rewrite Hy in Hz. simpl length. lia. }
    destruct (Z.le_gt_cases nr (env_clock x)) as [Hge|Hlt'].
    + exists [], x, envs. split; [done|]. split; [done|].
      split; [lia|].
      eapply list.Forall_impl; [by apply Hbound|].
      intros z Hz. simpl in Hz. rewrite Hx in Hz. simpl length. lia.
    + destruct (IH (env_clock x) Ht) as (pre & e & post & -> & Hpre & He & Hpost);
        [lia|simpl length in Hreach; lia|].
      exists (x :: pre), e, post. split; [done|].
      split; [by constructor|]. split; [done|].
      eapply list.Forall_impl; [done|].
      intros z Hz. simpl in Hz. simpl length. lia.
Qed.

End WithHost.
End ScheduleFacts.

(* ===================================================================== *)
(** * Examples *)
(* ===================================================================== *)

Section Examples.
Import Frame Host Script Schedule Demo.
#[local] Existing Instances numerics storage recorder.

(** Equal counts stay in the order of first appearance; a missing entry is
    not counted. *)
Example value_counts_ties :
  value_counts
    [SStr "b"; SStr "a"; NaN; SStr "c"; SStr "a"; SStr "b"; SStr "d"; SStr "d";
     SStr "d"] =
  [(SStr "d", 3%nat); (SStr "b", 2%nat); (SStr "a", 2%nat); (SStr "c", 1%nat)].
Proof. reflexivity. Qed.

(** [unique] keeps a missing entry, once, and the first of the two zeros. *)
Example unique_missing_and_zeros :
  unique [SFloat (S754_zero true); NaN; SFloat (S754_zero false); NaN] =
  [SFloat (S754_zero true); NaN].
Proof. reflexivity. Qed.

(** A text that is no number stops the conversion of the column. *)
Example astype_int_text :
  astype_int (ObjCol [Some "19"; Some "abc"; Some "28"]) =
  Raise (TypeConversionError Int64 (SStr "abc")).
Proof. reflexivity. Qed.

Example astype_int_missing :
  astype_int (ObjCol [Some "19"; None]) = Raise (TypeConversionError Int64 NaN).
Proof. reflexivity. Qed.

Example astype_int_digits :
  astype_int (ObjCol [Some "19"; Some "-7"]) = Ok (IntCol [19; -7]).
Proof. reflexivity. Qed.

(** The next 09:00 after 08:59:59 is one second later; at 09:00:00 sharp it
    is a day later. *)
Example next_run_before_nine :
  schedule_next_run (at_ 9 0) (at_ 8 59 + 59 * second) = at_ 9 0.
Proof. reflexivity. Qed.

Example next_run_at_nine :
  schedule_next_run (at_ 9 0) (at_ 9 0) = day + at_ 9 0.
Proof. reflexivity. Qed.

(** The startup of the script on the three patients: the mean age 21.67 and
    the mean charges 7686.0, as binary64 values. *)
Example startup_log :
  w_log (startup clinic).2 =
  [(INFO, DataLoaded); (INFO, DataProcessed);
   (INFO, DataSaved "processed_insurance.csv");
   (INFO, AverageAge (S754_finite false 6099562745319916 (-48)));
   (INFO, SexDistribution [(SStr "male", 2%nat); (SStr "female", 1%nat)]);
   (INFO, AverageCharges (S754_finite false 8450846371086336 (-40)));
   (INFO, UniqueRegions [SStr "west"; SStr "east"])].
Proof. vm_compute. reflexivity. Qed.

(** The two charts of that startup: seven calls to the backend for the first,
    six for the second. *)
Example startup_display :
  length (w_display (startup clinic).2) = 13%nat.
Proof. vm_compute. reflexivity. Qed.

(** The poll of 09:00:00 runs the analysis of a table without [smoker]: four
    lines and the error of the second chart. *)
Example poll_at_nine :
  length
    (w_log
       ((jobs <- every_day_at_do (at_ 9 0) (automated_analysis 0%nat) [] ;;
         run_forever jobs [nine_sharp; nine_past])%script before_nine).2) =
  5%nat.
Proof. vm_compute. reflexivity. Qed.

(** Two jobs that are due at the same time run in the order in which they
    were registered, and an earlier one before them. *)
Example runnable_jobs_ties :
  runnable_jobs 10
    [Job 0 5 None (ret tt); Job 0 5 None (ret tt); Job 0 3 None (ret tt);
     Job 0 11 None (ret tt)] =
  [2%nat; 0%nat; 1%nat].
Proof. reflexivity. Qed.

(** A write that fails on a full disk leaves its empty file behind, and
    [save_data] logs the error and raises it again. *)
Example save_data_on_a_full_disk :
  @save_data Cases.full_disk recorder 0%nat "processed_insurance.csv"
    (@World Cases.full_disk recorder [] {[ 0%nat := no_smoker ]} [] [] 0) =
  (Raise (IOError "processed_insurance.csv"),
   @World Cases.full_disk recorder [("processed_insurance.csv", [])]
     {[ 0%nat := no_smoker ]}
     [(ERROR, ErrorSaving (IOError "processed_insurance.csv"))] [] 0).
Proof. vm_compute. reflexivity. Qed.

End Examples.
(* ===================================================================== *)
(** * The properties of the specification *)
(* ===================================================================== *)

Section Analyzer.
Import Frame Host Script FrameFacts ScriptFacts.
Context `{Storage} `{Backend}.

(** C4.  For every table with a [region] column, [unique_regions] returns
    the distinct values of the column with no key twice, every value of the
    column under its key, each returned value being the first row that holds
    its key, and the values in the order in which the column first meets
    them; on the regions west, east, west, north it returns west, east,
    north. *)
Theorem unique_regions_first_encounter :
  (∀ (w : world) (df : loc) (t : table) (region : column),
     w_heap w !! df = Some t → get_col "region" t = Some region →
     ∃ out,
       unique_regions {| self_df := df |} w = (Ok out, w) ∧
       NoDup (key <$> out) ∧
       (∀ v, v ∈ cells region → key v ∈ key <$> out) ∧
       first_rows (cells region) out ∧
       StronglySorted (met_before (cells region)) out) ∧
  (∀ (w : world) (df : loc) (t : table),
     w_heap w !! df = Some t →
     get_col "region" t =
       Some (ObjCol [Some "west"; Some "east"; Some "west"; Some "north"]) →
     unique_regions {| self_df := df |} w =
       (Ok [SStr "west"; SStr "east"; SStr "north"], w)).
Proof.
  split.
  - intros w df t region Hh Hc. exists (unique (cells region)).
    split; [|apply unique_spec].
    unfold unique_regions, bind. simpl. by rewrite (getitem_ok w df t _ _ Hh Hc).
  - intros w df t Hh Hc.
    unfold unique_regions, bind. simpl. by rewrite (getitem_ok w df t _ _ Hh Hc).
Qed.

(** C3.  For every table with a [sex] column, [analyze_sexes] returns one
    entry per distinct value of the column (a missing entry is no value),
    each with the number of rows that hold it, the larger count first and,
    of two equal counts, the value met first in the column; on male, female,
    male it returns male: 2, female: 1. *)
Theorem analyze_sexes_counts_by_frequency :
  (∀ (w : world) (df : loc) (t : table) (sex : column),
     w_heap w !! df = Some t → get_col "sex" t = Some sex →
     ∃ d,
       analyze_sexes {| self_df := df |} w = (Ok d, w) ∧
       NoDup (key <$> d.*1) ∧
       (∀ v, v ∈ cells sex → isna v = false → key v ∈ key <$> d.*1) ∧
       (∀ k n, (k, n) ∈ d →
          k ∈ cells sex ∧ isna k = false ∧ n = count_key k (cells sex)) ∧
       StronglySorted (freq_then_first (cells sex)) d) ∧
  (∀ (w : world) (df : loc) (t : table),
     w_heap w !! df = Some t →
     get_col "sex" t = Some (ObjCol [Some "male"; Some "female"; Some "male"]) →
     analyze_sexes {| self_df := df |} w =
       (Ok [(SStr "male", 2%nat); (SStr "female", 1%nat)], w)).
Proof.
  split.
  - intros w df t sex Hh Hc. exists (value_counts (cells sex)).
    destruct (value_counts_spec (cells sex)) as (H1 & H2 & H3 & _ & H5).
    split; [|done].
    unfold analyze_sexes, bind. simpl. by rewrite (getitem_ok w df t _ _ Hh Hc).
  - intros w df t Hh Hc.
    unfold analyze_sexes, bind. simpl. by rewrite (getitem_ok w df t _ _ Hh Hc).
Qed.

End Analyzer.

Section AnalyzerWitnesses.
Import Frame Host Script Demo.

Lemma unique_regions_first_encounter_witness :
  unique_regions {| self_df := 0%nat |} regions_world =
    (Ok [SStr "west"; SStr "east"; SStr "north"], regions_world).
Proof.
  refine (proj2 unique_regions_first_encounter regions_world 0%nat _ _ _);
    reflexivity.
Defined.

Lemma analyze_sexes_counts_by_frequency_witness :
  analyze_sexes {| self_df := 0%nat |} sexes_world =
    (Ok [(SStr "male", 2%nat); (SStr "female", 1%nat)], sexes_world).
Proof.
  refine (proj2 analyze_sexes_counts_by_frequency sexes_world 0%nat _ _ _);
    reflexivity.
Defined.

End AnalyzerWitnesses.

Section Transformer.
Import Frame Host Script Schedule FrameFacts ScriptFacts.
Context `{Numerics} `{Storage} `{Backend}.

(** [process_data] on a table with a value that does not convert. *)
Lemma process_data_conversion_fails (w : world) (df : loc) (t : table)
    (charges age : column) :
  w_heap w !! df = Some t →
  get_col "charges" t = Some charges → get_col "age" t = Some age →
  (∃ v, v ∈ cells charges ∧ to_float v = None) ∨
  (∃ v, v ∈ cells age ∧ to_int v = None) →
  ∃ target v w',
    process_data df w = (Raise (TypeConversionError target v), w') ∧
    (target = Float64 ∧ v ∈ cells charges ∧ to_float v = None ∨
     target = Int64 ∧ v ∈ cells age ∧ to_int v = None) ∧
    w_fs w' = w_fs w ∧ w_display w' = w_display w ∧
    w_log w' =
      w_log w ++ [(ERROR, ErrorProcessing (TypeConversionError target v))].
Proof.
  intros Hh Hc Ha Hbad.
  destruct (astype_float charges) as [charges'|e] eqn:Ef.
  - assert (Hage : ∃ v, v ∈ cells age ∧ to_int v = None).
    { destruct Hbad as [Hb|Hb]; [|done].
      apply (convert_fails to_float Float64) in Hb as (v & _ & _ & Hb).
      unfold astype_float in Ef. by rewrite Hb in Ef. }
    apply (convert_fails to_int Int64) in Hage as (v & Hv & Hf & Hr).
    exists Int64, v. eexists. split.
    + eapply process_data_age_raise; try done.
      unfold astype_int. by rewrite Hr.
    + split; [right; done|]. done.
  - unfold astype_float in Ef.
    destruct (convert to_float Float64 (cells charges)) as [l|e'] eqn:Er; [done|].
    injection Ef as ->.
    apply convert_raises in Er as Hv. destruct Hv as (v & Hv & Hf & ->).
    exists Float64, v. eexists. split.
    + eapply process_data_charges_raise; try done.
      unfold astype_float. by rewrite Er.
    + split; [left; done|]. done.
Qed.

(** C1.  When a value of the [charges] or of the [age] column of
    [insurance.csv] does not convert to its numeric type, [process_data]
    raises the type-conversion error of that value and returns no table;
    [main] ends with the same error whatever the schedule, having logged only
    the load and the error: [save_data] and [automated_analysis] never run,
    no file is written and nothing is drawn. *)
Theorem conversion_failure_aborts_run (w : world) (t : table)
    (charges age : column) :
  read_csv "insurance.csv" (w_fs w) = Ok t →
  get_col "charges" t = Some charges → get_col "age" t = Some age →
  (∃ v, v ∈ cells charges ∧ to_float v = None) ∨
  (∃ v, v ∈ cells age ∧ to_int v = None) →
  ∃ df w1 target v w',
    load_data "insurance.csv" w = (Ok df, w1) ∧
    process_data df w1 = (Raise (TypeConversionError target v), w') ∧
    (target = Float64 ∧ v ∈ cells charges ∧ to_float v = None ∨
     target = Int64 ∧ v ∈ cells age ∧ to_int v = None) ∧
    (∀ envs, main envs w = (Raise (TypeConversionError target v), w')) ∧
    w_fs w' = w_fs w ∧
    w_display w' = w_display w ∧
    w_log w' =
      w_log w ++ [(INFO, DataLoaded);
                  (ERROR, ErrorProcessing (TypeConversionError target v))].
Proof.
  intros Hr Hc Ha Hbad.
  pose proof (load_data_ok w "insurance.csv" t Hr) as Hl.
  set (df := fresh (dom (w_heap w))) in *.
  set (w1 := logged [(INFO, DataLoaded)] (set_heap (<[df := t]> (w_heap w)) w))
    in *.
  assert (Hh : w_heap w1 !! df = Some t) by apply lookup_insert_eq.
  destruct (process_data_conversion_fails w1 df t charges age Hh Hc Ha Hbad)
    as (target & v & w' & Hp & Hv & Hfs & Hd & Hlog).
  exists df, w1, target, v, w'.
  split; [done|]. split; [done|]. split; [done|].
  split; [|split; [done|split; [done|]]].
  - intros envs. unfold main, startup, bind. by rewrite Hl, Hp.
  - rewrite Hlog. simpl. by rewrite <- app_assoc.
Qed.

(** C9, amended.  [process_data] converts [charges] first and assigns it to
    the caller's table before it converts [age]: when [charges] converts and
    [age] does not, [process_data] raises and the table behind the caller's
    reference holds the float64 [charges] column.  The table then differs
    from the one passed in exactly when [charges] was not that float64 column
    already: a table whose [charges] is float64 is left unchanged.  Its other
    columns, the files and the display are as before. *)
Theorem failed_age_leaves_charges_coerced (w : world) (df : loc) (t : table)
    (charges age : column) (coerced : list spec_float) (e : exn) :
  w_heap w !! df = Some t →
  get_col "charges" t = Some charges → get_col "age" t = Some age →
  convert to_float Float64 (cells charges) = Ok coerced →
  astype_int age = Raise e →
  ∃ w',
    process_data df w = (Raise e, w') ∧
    w_heap w' !! df = Some (set_col "charges" (FloatCol coerced) t) ∧
    (∀ t', w_heap w' !! df = Some t' →
       get_col "charges" t' = Some (FloatCol coerced) ∧
       ∀ name, name ≠ "charges" → get_col name t' = get_col name t) ∧
    (w_heap w' !! df ≠ w_heap w !! df ↔ charges ≠ FloatCol coerced) ∧
    w_fs w' = w_fs w ∧ w_display w' = w_display w ∧
    w_log w' = w_log w ++ [(ERROR, ErrorProcessing e)].
Proof.
  intros Hh Hc Ha Hf He. eexists. split.
  - eapply process_data_age_raise; try done.
    unfold astype_float. by rewrite Hf.
  - simpl. rewrite lookup_insert_eq. split; [done|]. split; [|split; [|done]].
    + intros t' [= <-]. split; [apply get_col_set_col_eq|].
      intros name Hne. by apply get_col_set_col_ne.
    + rewrite Hh. split.
      * intros Hne ->. apply Hne. by rewrite (set_col_same "charges" _ t).
      * intros Hne [= E].
        by apply (set_col_changes "charges" charges (FloatCol coerced) t).
Qed.

End Transformer.

Section TransformerWitnesses.
Import Frame Host Script Schedule Demo.

Lemma conversion_failure_aborts_run_witness :
  ∃ df w1 target v w',
    @load_data storage recorder "insurance.csv"
      (boot recorder [] 0 unreadable_age) = (Ok df, w1) ∧
    @process_data numerics storage recorder df w1 =
      (Raise (TypeConversionError target v), w') ∧
    (target = Float64 ∧ v ∈ cells (IntCol [16884; 1725; 4449]) ∧
       @to_float numerics v = None ∨
     target = Int64 ∧ v ∈ cells (ObjCol [Some "19"; Some "abc"; Some "28"]) ∧
       @to_int numerics v = None) ∧
    (∀ envs, @main numerics storage recorder envs
               (boot recorder [] 0 unreadable_age) =
             (Raise (TypeConversionError target v), w')) ∧
    w_fs w' = w_fs (boot recorder [] 0 unreadable_age) ∧
    w_display w' = w_display (boot recorder [] 0 unreadable_age) ∧
    w_log w' =
      w_log (boot recorder [] 0 unreadable_age) ++
      [(INFO, DataLoaded);
       (ERROR, ErrorProcessing (TypeConversionError target v))].
Proof.
  apply (@conversion_failure_aborts_run numerics storage recorder
           (boot recorder [] 0 unreadable_age) unreadable_age).
  - reflexivity.
  - reflexivity.
  - reflexivity.
  - right. exists (SStr "abc"). split; [|reflexivity].
    apply list_elem_of_In. simpl. auto.
Defined.

Lemma failed_age_leaves_charges_coerced_witness :
  ∃ w',
    @process_data numerics storage recorder 0%nat
      (holding recorder [] unreadable_age) =
      (Raise (TypeConversionError Int64 (SStr "abc")), w') ∧
    w_heap w' !! 0%nat =
      Some (set_col "charges"
              (FloatCol [b64 16884; b64 1725; b64 4449]) unreadable_age) ∧
    (∀ t', w_heap w' !! 0%nat = Some t' →
       get_col "charges" t' = Some (FloatCol [b64 16884; b64 1725; b64 4449]) ∧
       ∀ name, name ≠ "charges" → get_col name t' = get_col name unreadable_age) ∧
    (w_heap w' !! 0%nat ≠
     w_heap (holding recorder [] unreadable_age) !! 0%nat ↔
     IntCol [16884; 1725; 4449] ≠ FloatCol [b64 16884; b64 1725; b64 4449]) ∧
    w_fs w' = [] ∧ w_display w' = [] ∧
    w_log w' =
      [] ++ [(ERROR, ErrorProcessing (TypeConversionError Int64 (SStr "abc")))].
Proof.
  apply (@failed_age_leaves_charges_coerced numerics storage recorder
           (holding recorder [] unreadable_age)
           0%nat unreadable_age (IntCol [16884; 1725; 4449])
           (ObjCol [Some "19"; Some "abc"; Some "28"])).
  - reflexivity.
  - reflexivity.
  - reflexivity.
  - reflexivity.
  - reflexivity.
Defined.

(** C9 as it was stated fails on a table whose [charges] is float64 already,
    as [read_csv] gives it for decimal charges: [charges] converts, [age] does
    not, [process_data] raises, and the table behind the reference is the
    table passed in. *)
Lemma failed_age_may_leave_table_unchanged :
  convert (@to_float numerics) Float64
    (cells (FloatCol [b64_half 33769; b64 1725; b64 4449])) =
    Ok [b64_half 33769; b64 1725; b64 4449] ∧
  @astype_int numerics (ObjCol [Some "19"; Some "abc"; Some "28"]) =
    Raise (TypeConversionError Int64 (SStr "abc")) ∧
  (@process_data numerics storage recorder 0%nat
     (holding recorder [] decimal_charges_bad_age)).1 =
    Raise (TypeConversionError Int64 (SStr "abc")) ∧
  w_heap (@process_data numerics storage recorder 0%nat
            (holding recorder [] decimal_charges_bad_age)).2 !! 0%nat =
    w_heap (holding recorder [] decimal_charges_bad_age) !! 0%nat ∧
  w_heap (holding recorder [] decimal_charges_bad_age) !! 0%nat =
    Some decimal_charges_bad_age.
Proof. repeat split; vm_compute; reflexivity. Qed.

End TransformerWitnesses.

Section Visualizer.
Import Frame Host Script Schedule FrameFacts ScriptFacts ScheduleFacts.
Context `{Numerics} `{Storage} `{Backend}.

(** Once the file is read, converted and saved and the four queries
    succeed, [main] goes on for ever: nothing the backend does stops it. *)
Lemma main_survives_the_backend (w : world) (t : table)
    (charges age charges' age' : column) (f : fs) (ls : list record) :
  read_csv "insurance.csv" (w_fs w) = Ok t →
  get_col "charges" t = Some charges → astype_float charges = Ok charges' →
  get_col "age" t = Some age → astype_int age = Ok age' →
  to_csv (set_col "age" age' (set_col "charges" charges' t))
    "processed_insurance.csv" false (w_fs w) = (f, None) →
  analysis_lines (set_col "age" age' (set_col "charges" charges' t)) = Ok ls →
  ∀ envs, ∃ jobs w', main envs w = (Ok jobs, w').
Proof.
  intros Hr Hc Hf Ha Hi Hs Hl envs.
  set (T := set_col "age" age' (set_col "charges" charges' t)) in *.
  set (df := fresh (dom (w_heap w))).
  pose proof (load_data_ok w "insurance.csv" t Hr) as El. fold df in El.
  set (w1 := logged [(INFO, DataLoaded)] (set_heap (<[df := t]> (w_heap w)) w))
    in *.
  assert (Hh1 : w_heap w1 !! df = Some t) by apply lookup_insert_eq.
  pose proof (process_data_ok w1 df t _ _ _ _ Hh1 Hc Hf Ha Hi) as Ep.
  fold T in Ep.
  set (w2 := logged [(INFO, DataProcessed)]
               (set_heap (<[df := T]> (w_heap w1)) w1)) in *.
  assert (Hh2 : w_heap w2 !! df = Some T) by apply lookup_insert_eq.
  pose proof (save_data_ok w2 df T "processed_insurance.csv" f Hh2 Hs) as Es.
  set (w3 := logged [(INFO, DataSaved "processed_insurance.csv")] (set_fs f w2))
    in *.
  assert (Hh3 : w_heap w3 !! df = Some T) by done.
  destruct (visualize_data_swallows df (logged ls w3)) as (w4 & Ev & _).
  assert (Ea : automated_analysis df w3 = (Ok tt, w4)).
  { by rewrite (automated_analysis_eq w3 df T Hh3), Hl. }
  apply automated_analysis_frame in Ea as Hfr. destruct Hfr as (Hh4 & _ & _).
  assert (HhT : w_heap w4 !! df = Some T) by by rewrite Hh4.
  set (j0 := Job (at_ 9 0) (schedule_next_run (at_ 9 0) (w_clock w4)) None
               (automated_analysis df)).
  destruct (steady_loop df T ls Hl envs j0 w4 eq_refl HhT)
    as (j' & blocks & d & _ & _ & _ & E).
  destruct (E envs w4 eq_refl eq_refl eq_refl eq_refl) as (w' & Er & _).
  assert (Hst : startup w = (Ok df, w4)).
  { unfold startup. rewrite bind_eq, El. cbv beta iota.
    rewrite bind_eq, Ep. cbv beta iota.
    rewrite bind_eq, Es. cbv beta iota.
    by rewrite bind_eq, Ea. }
  exists [j'], w'. unfold main. by rewrite bind_eq, Hst.
Qed.

(** C7.  Whatever the plotting backend does, [visualize_data] ends normally:
    an exception of its body is logged as one error line and goes no
    further.  So an analysis whose four queries succeed ends normally, and
    once the file is read, converted and saved, [main] runs on through every
    schedule.  The other stages let their exceptions through: [load_data],
    [process_data] and [save_data] log and raise again, and
    [automated_analysis] does not catch what a query raises. *)
Theorem visualization_failures_are_swallowed :
  (∀ (df : loc) (w : world),
     ∃ w',
       visualize_data df w = (Ok tt, w') ∧
       match visualize_body df w with
       | (Ok _, w0) => w' = w0
       | (Raise e, w0) => w' = logged [(ERROR, ErrorVisualizing e)] w0
       end) ∧
  (∀ (df : loc) (w : world) (t : table) (ls : list record),
     w_heap w !! df = Some t → analysis_lines t = Ok ls →
     ∃ w', automated_analysis df w = (Ok tt, w')) ∧
  (∀ (w : world) (t : table) (charges age charges' age' : column) (f : fs)
     (ls : list record),
     read_csv "insurance.csv" (w_fs w) = Ok t →
     get_col "charges" t = Some charges → astype_float charges = Ok charges' →
     get_col "age" t = Some age → astype_int age = Ok age' →
     to_csv (set_col "age" age' (set_col "charges" charges' t))
       "processed_insurance.csv" false (w_fs w) = (f, None) →
     analysis_lines (set_col "age" age' (set_col "charges" charges' t)) = Ok ls →
     ∀ envs, ∃ jobs w', main envs w = (Ok jobs, w')) ∧
  (∀ (w : world) (file_path : string) (e : exn),
     read_csv file_path (w_fs w) = Raise e →
     load_data file_path w = (Raise e, logged [(ERROR, ErrorLoading e)] w)) ∧
  (∀ (w : world) (df : loc) (t : table) (charges : column) (e : exn),
     w_heap w !! df = Some t → get_col "charges" t = Some charges →
     astype_float charges = Raise e →
     process_data df w = (Raise e, logged [(ERROR, ErrorProcessing e)] w)) ∧
  (∀ (w : world) (df : loc) (t : table) (file_path : string) (f : fs)
     (e : exn),
     w_heap w !! df = Some t →
     to_csv t file_path false (w_fs w) = (f, Some e) →
     save_data df file_path w =
       (Raise e, logged [(ERROR, ErrorSaving e)] (set_fs f w))) ∧
  (∀ (w : world) (df : loc) (t : table) (e : exn),
     w_heap w !! df = Some t → analysis_lines t = Raise e →
     automated_analysis df w = (Raise e, w)).
Proof.
  split; [apply visualize_data_swallows|].
  split; [|split; [apply main_survives_the_backend|
                   split; [apply load_data_raises|]]].
  - intros df w t ls Hh Hl. rewrite (automated_analysis_eq w df t Hh), Hl.
    destruct (visualize_data_swallows df (logged ls w)) as (w' & E & _).
    by exists w'.
  - split; [apply process_data_charges_raise|].
    split; [apply save_data_raises|].
    intros w df t e Hh Hl. by rewrite (automated_analysis_eq w df t Hh), Hl.
Qed.

(** C10.  On a table as [process_data] leaves it (numeric [age] and
    [charges]) that has [sex] and [region] but no [smoker] column, the four
    queries succeed and [automated_analysis] ends normally: it logs the four
    results and then one error line for the exception that [visualize_data]
    caught, which is the [KeyError] of [smoker] when the backend drew the
    first chart without failing; the files and the tables are as before. *)
Theorem missing_smoker_is_survived (w : world) (df : loc) (t : table)
    (age sex region charges : column) :
  w_heap w !! df = Some t →
  get_col "age" t = Some age → numeric age = true →
  get_col "sex" t = Some sex →
  get_col "region" t = Some region →
  get_col "charges" t = Some charges → numeric charges = true →
  get_col "smoker" t = None →
  ∃ avg_age avg_charges e w',
    analyze_ages {| self_df := df |} w = (Ok avg_age, w) ∧
    analyze_sexes {| self_df := df |} w = (Ok (value_counts (cells sex)), w) ∧
    average_charges {| self_df := df |} w = (Ok avg_charges, w) ∧
    unique_regions {| self_df := df |} w = (Ok (unique (cells region)), w) ∧
    automated_analysis df w = (Ok tt, w') ∧
    w_log w' =
      w_log w ++
      [(INFO, AverageAge avg_age);
       (INFO, SexDistribution (value_counts (cells sex)));
       (INFO, AverageCharges avg_charges);
       (INFO, UniqueRegions (unique (cells region)));
       (ERROR, ErrorVisualizing e)] ∧
    w_fs w' = w_fs w ∧ w_heap w' = w_heap w ∧
    ((∀ c d, (plot c d).2 = None) → e = KeyError "smoker").
Proof.
  intros Hh Ha Na Hs Hr Hc Nc Hk.
  destruct (col_mean_numeric age Na) as [ma Ema].
  destruct (col_mean_numeric charges Nc) as [mc Emc].
  set (ls := [(INFO, AverageAge (round_float ma 2));
              (INFO, SexDistribution (value_counts (cells sex)));
              (INFO, AverageCharges (round_float mc 2));
              (INFO, UniqueRegions (unique (cells region)))]).
  assert (Hl : analysis_lines t = Ok ls).
  { unfold analysis_lines. by rewrite Ha, Ema, Hs, Hc, Emc, Hr. }
  destruct (visualize_body_no_smoker (logged ls w) df t region charges)
    as (e & w0 & Eb & (Hfs & Hheap & Hlog & Hclock) & He); try done.
  exists (round_float ma 2), (round_float mc 2), e,
    (logged [(ERROR, ErrorVisualizing e)] w0).
  split.
  { unfold analyze_ages. cbn [self_df].
    by rewrite (mean_query_eq w df t "age" Hh), Ha, Ema. }
  split.
  { unfold analyze_sexes. cbn [self_df].
    by rewrite (column_query_eq w df t "sex" _ Hh), Hs. }
  split.
  { unfold average_charges. cbn [self_df].
    by rewrite (mean_query_eq w df t "charges" Hh), Hc, Emc. }
  split.
  { unfold unique_regions. cbn [self_df].
    by rewrite (column_query_eq w df t "region" _ Hh), Hr. }
  split.
  { rewrite (automated_analysis_eq w df t Hh), Hl.
    unfold visualize_data, try_except. by rewrite Eb. }
  split.
  { simpl. rewrite Hlog. simpl. by rewrite <- app_assoc. }
  split; [simpl; by rewrite Hfs|]. split; [simpl; by rewrite Hheap|]. done.
Qed.

End Visualizer.

Section VisualizerWitnesses.
Import Frame Host Script Schedule Demo.

Lemma visualization_failures_are_swallowed_witness :
  ∃ w',
    @automated_analysis numerics storage headless 0%nat
      (holding headless tt no_smoker) = (Ok tt, w').
Proof.
  refine (proj1 (proj2 (@visualization_failures_are_swallowed
                          numerics storage headless))
            0%nat (holding headless tt no_smoker) no_smoker _ _ _).
  - reflexivity.
  - reflexivity.
Defined.

Lemma missing_smoker_is_survived_witness :
  ∃ avg_age avg_charges e w',
    @analyze_ages numerics storage recorder {| self_df := 0%nat |}
      (holding recorder [] no_smoker) =
      (Ok avg_age, holding recorder [] no_smoker) ∧
    @analyze_sexes storage recorder {| self_df := 0%nat |}
      (holding recorder [] no_smoker) =
      (Ok (value_counts (cells (ObjCol [Some "male"; Some "female"; Some "male"]))),
       holding recorder [] no_smoker) ∧
    @average_charges numerics storage recorder {| self_df := 0%nat |}
      (holding recorder [] no_smoker) =
      (Ok avg_charges, holding recorder [] no_smoker) ∧
    @unique_regions storage recorder {| self_df := 0%nat |}
      (holding recorder [] no_smoker) =
      (Ok (unique (cells (ObjCol [Some "west"; Some "east"; Some "west"]))),
       holding recorder [] no_smoker) ∧
    @automated_analysis numerics storage recorder 0%nat
      (holding recorder [] no_smoker) = (Ok tt, w') ∧
    w_log w' =
      w_log (holding recorder [] no_smoker) ++
      [(INFO, AverageAge avg_age);
       (INFO, SexDistribution
                (value_counts
                   (cells (ObjCol [Some "male"; Some "female"; Some "male"]))));
       (INFO, AverageCharges avg_charges);
       (INFO, UniqueRegions
                (unique (cells (ObjCol [Some "west"; Some "east"; Some "west"]))));
       (ERROR, ErrorVisualizing e)] ∧
    w_fs w' = w_fs (holding recorder [] no_smoker) ∧
    w_heap w' = w_heap (holding recorder [] no_smoker) ∧
    ((∀ c d, (@plot recorder c d).2 = None) → e = KeyError "smoker").
Proof.
  apply (@missing_smoker_is_survived numerics storage recorder
           (holding recorder [] no_smoker) 0%nat no_smoker
           (IntCol [19; 18; 28])
           (ObjCol [Some "male"; Some "female"; Some "male"])
           (ObjCol [Some "west"; Some "east"; Some "west"])
           (FloatCol [b64 16884; b64 1725; b64 4449]));
    reflexivity.
Defined.

End VisualizerWitnesses.

Section Scheduling.
Import Frame Host Script Schedule FrameFacts ScriptFacts ScheduleFacts.
Context `{Numerics} `{Storage} `{Backend}.
Local Open Scope script_scope.

Lemma at_nine_in_day : 0 ≤ at_ 9 0 < day.
Proof. unfold at_, day, second. lia. Qed.

Lemma register_eq {B : Type} (t : Z) (f : M unit) (k : list job → M B)
    (w : world) :
  bind (every_day_at_do t f []) k w =
  k [Job t (schedule_next_run t (w_clock w)) None f] w.
Proof. done. Qed.

(** C8.  A job registered for 09:00 at 08:59:59 and polled at 08:59:59,
    09:00:00 and 09:00:01 runs once, at the poll of 09:00:00: the loop does
    what sleeping, running the job function once and sleeping again does, and
    leaves the job run at 09:00:00 and due the next day.  With polls one
    second apart that reach the trigger and stop before the trigger of the
    next day, the job runs once, at the first poll at or after the trigger,
    which comes less than one second after it.  The job function of the
    script keeps the simulated clock, as both statements ask. *)
Theorem daily_job_fires_once_at_nine :
  (∀ (d : Z) (f : M unit) (w : world) (e1 e2 : env),
     keeps_clock f →
     w_clock w = d * day + at_ 8 59 + 59 * second →
     env_clock e1 = d * day + at_ 9 0 →
     env_clock e2 = d * day + at_ 9 0 + second →
     (jobs <- every_day_at_do (at_ 9 0) f [] ;; run_forever jobs [e1; e2]) w =
     (sleep e1 ;; f ;; sleep e2 ;;
      ret [Job (at_ 9 0) ((d + 1) * day + at_ 9 0)
             (Some (d * day + at_ 9 0)) f]) w) ∧
  (∀ (f : M unit) (w : world) (envs : list env),
     keeps_clock f →
     ticking (w_clock w) envs →
     schedule_next_run (at_ 9 0) (w_clock w) ≤
       w_clock w + Z.of_nat (length envs) * second →
     w_clock w + Z.of_nat (length envs) * second <
       schedule_next_run (at_ 9 0) (w_clock w) + day →
     ∃ pre e post,
       envs = pre ++ e :: post ∧
       Forall (fun x => env_clock x < schedule_next_run (at_ 9 0) (w_clock w))
         pre ∧
       schedule_next_run (at_ 9 0) (w_clock w) ≤ env_clock e ∧
       env_clock e < schedule_next_run (at_ 9 0) (w_clock w) + second ∧
       (jobs <- every_day_at_do (at_ 9 0) f [] ;; run_forever jobs envs) w =
       (idle pre ;; sleep e ;; f ;; idle post ;;
        ret [Job (at_ 9 0) (schedule_next_run (at_ 9 0) (w_clock w) + day)
               (Some (env_clock e)) f]) w) ∧
  (∀ df : loc, keeps_clock (automated_analysis df)).
Proof.
  split; [|split; [|apply keeps_clock_automated_analysis]].
  - intros d f w e1 e2 Hk Hw He1 He2. rewrite register_eq.
    assert (Hnr : schedule_next_run (at_ 9 0) (w_clock w) = d * day + at_ 9 0).
    { rewrite Hw. unfold schedule_next_run, at_, day, second.
      destruct (Z.leb_spec
        ((d * (86400 * 1000000) + (8 * 3600 + 59 * 60) * 1000000 + 59 * 1000000)
           / (86400 * 1000000) * (86400 * 1000000) + (9 * 3600 + 0 * 60) * 1000000)
        (d * (86400 * 1000000) + (8 * 3600 + 59 * 60) * 1000000 + 59 * 1000000));
        Z.to_euclidean_division_equations; lia. }
    assert (Hnext : schedule_next_run (at_ 9 0) (env_clock e1) =
                    (d + 1) * day + at_ 9 0).
    { rewrite He1.
      rewrite (schedule_next_run_after (at_ 9 0) (d * day + at_ 9 0));
        [unfold day, second; lia|apply at_nine_in_day|
        |unfold day, second; lia].
      rewrite Z.add_comm, Z.mod_add by (unfold day, second; lia).
      apply Z.mod_small, at_nine_in_day. }
    rewrite (run_forever_fires_once _ [] [e2] e1); simpl; try done.
    + unfold ran_at. simpl. rewrite Hnext, He1.
      unfold bind, ret, sleep.
      by destruct (f (slept e1 w)) as [[[]|ex] w'].
    + rewrite Hnr, Hw. unfold at_, second. lia.
    + rewrite Hnr. lia.
    + constructor; [|done]. rewrite Hnext, He2. unfold day, second. lia.
  - intros f w envs Hk Ht Hreach Hstop.
    set (nr := schedule_next_run (at_ 9 0) (w_clock w)) in *.
    destruct (schedule_next_run_spec (at_ 9 0) (w_clock w) at_nine_in_day)
      as [[Hlt Hle] Hmod]. fold nr in Hlt, Hle, Hmod.
    destruct (first_tick_at_or_after nr (w_clock w) envs Ht Hlt Hreach)
      as (pre & e & post & -> & Hpre & He & Hpost).
    assert (Hnext : schedule_next_run (at_ 9 0) (env_clock e) = nr + day).
    { apply schedule_next_run_after; [apply at_nine_in_day|done|].
      unfold day, second in *. lia. }
    exists pre, e, post. split; [done|]. split; [done|].
    split; [lia|]. split; [lia|].
    rewrite register_eq. fold nr.
    rewrite (run_forever_fires_once _ pre post e); simpl; try done.
    + unfold ran_at. simpl. by rewrite Hnext.
    + lia.
    + rewrite Hnext. eapply list.Forall_impl; [done|].
      intros x Hx. simpl in Hx. lia.
Qed.

(** C2.  After a startup that succeeds, the scheduled job of [main] is the
    analysis and visualization of the table that [process_data] produced,
    behind the reference [df] that [main] holds: a run of the job logs the
    results of that table and calls [visualize_data] on it, and the loop is
    the daily runs of the job, one at every poll at which the job is due and
    none at any other, with the sleeps in between.  At a poll at which the
    job is due the log gets the lines of the analysis of that table with at
    most one error of the charts, at any other poll nothing.  The loop never
    raises, leaves every table as it was at the end of startup and writes no
    file (the files are as the last sleep left them).  Nothing is read from
    the files: with other file contents during the sleeps the log, the
    display, the tables and the job come out the same. *)
Theorem scheduled_runs_reuse_startup_table (w w1 : world) (df : loc) :
  startup w = (Ok df, w1) →
  ∃ (T : table) (ls : list record),
    (∃ wa wb,
       load_data "insurance.csv" w = (Ok df, wa) ∧
       process_data df wa = (Ok df, wb) ∧
       w_heap wb !! df = Some T) ∧
    w_heap w1 !! df = Some T ∧
    analysis_lines T = Ok ls ∧
    (∀ w2, w_heap w2 !! df = Some T →
       automated_analysis df w2 = visualize_data df (logged ls w2)) ∧
    ∀ envs : list env,
      ∃ j' blocks w',
        main envs w = (Ok [j'], w') ∧
        job_func j' = automated_analysis df ∧
        daily_runs (automated_analysis df)
          (due_polls (at_ 9 0) (schedule_next_run (at_ 9 0) (w_clock w1))
             (w_clock w1) envs)
          envs w1 = (Ok tt, w') ∧
        Forall2 (poll_block ls)
          (due_polls (at_ 9 0) (schedule_next_run (at_ 9 0) (w_clock w1))
             (w_clock w1) envs)
          blocks ∧
        w_heap w' = w_heap w1 ∧
        w_fs w' = final_fs envs (w_fs w1) ∧
        w_log w' = w_log w1 ++ concat blocks ∧
        Forall (poll_lines ls) blocks ∧
        ∀ envs2 : list env,
          env_clock <$> envs2 = env_clock <$> envs →
          ∃ w2',
            main envs2 w = (Ok [j'], w2') ∧
            w_heap w2' = w_heap w' ∧
            w_log w2' = w_log w' ∧
            w_display w2' = w_display w' ∧
            w_fs w2' = final_fs envs2 (w_fs w1).
Proof.
  intros Hs. pose proof Hs as Hs'. unfold startup in Hs'.
  rewrite bind_eq in Hs'.
  destruct (load_data "insurance.csv" w) as [[df0|e] wa] eqn:El; [|done].
  rewrite bind_eq in Hs'.
  destruct (process_data df0 wa) as [[df1|e] wb] eqn:Ep; [|done].
  rewrite bind_eq in Hs'.
  destruct (save_data df1 "processed_insurance.csv" wb) as [[[]|e] wc] eqn:Es;
    [|done].
  rewrite bind_eq in Hs'.
  destruct (automated_analysis df1 wc) as [[[]|e] wd] eqn:Ea; [|done].
  injection Hs' as <- <-.
  destruct (load_data_inv _ _ _ _ El) as (t0 & _ & Hh0).
  destruct (process_data_numeric _ _ _ _ _ Hh0 Ep)
    as (T & age & charges & -> & HhT & _).
  apply save_data_heap in Es as Hhc.
  apply automated_analysis_frame in Ea as Hfr. destruct Hfr as (Hhd & _ & _).
  assert (HhT' : w_heap wc !! df0 = Some T) by by rewrite Hhc.
  destruct (automated_analysis_ok_lines _ _ _ _ HhT' Ea) as [ls Hl].
  assert (HhT1 : w_heap wd !! df0 = Some T) by by rewrite Hhd.
  exists T, ls. split; [by exists wa, wb|]. split; [done|]. split; [done|].
  split.
  { intros w2 Hh2. by rewrite (automated_analysis_eq w2 df0 T Hh2), Hl. }
  intros envs.
  set (j0 := Job (at_ 9 0) (schedule_next_run (at_ 9 0) (w_clock wd)) None
               (automated_analysis df0)).
  destruct (steady_loop df0 T ls Hl envs j0 wd eq_refl HhT1)
    as (j' & blocks & d & Hf' & _ & Hbs & E).
  assert (Hmain : ∀ envs2, main envs2 w = run_forever [j0] envs2 wd).
  { intros envs2. unfold main. by rewrite bind_eq, Hs, register_eq. }
  destruct (E envs wd eq_refl eq_refl eq_refl eq_refl)
    as (w' & Er & Ed & Hh' & Hfs' & Hlog' & Hd').
  exists j', blocks, w'. rewrite Hmain.
  split; [done|]. split; [done|]. split; [done|]. split; [done|].
  split; [done|]. split; [done|]. split; [done|].
  split; [by eapply poll_blocks_lines|].
  intros envs2 Hc.
  destruct (E envs2 wd Hc eq_refl eq_refl eq_refl)
    as (w2' & Er2 & _ & Hh2 & Hfs2 & Hlog2 & Hd2).
  exists w2'. rewrite Hmain. split; [done|].
  split; [congruence|]. split; [congruence|]. split; [congruence|done].
Qed.

End Scheduling.

Section SchedulingWitnesses.
Import Frame Host Script Schedule Demo.
Local Open Scope script_scope.
#[local] Existing Instances numerics storage recorder.

Lemma daily_job_fires_once_at_nine_witness :
  w_clock before_nine = 0 * day + at_ 8 59 + 59 * second ∧
  env_clock nine_sharp = 0 * day + at_ 9 0 ∧
  env_clock nine_past = 0 * day + at_ 9 0 + second ∧
  (jobs <- every_day_at_do (at_ 9 0)
             (automated_analysis 0%nat) [] ;;
   run_forever jobs [nine_sharp; nine_past]) before_nine =
  (sleep nine_sharp ;;
   automated_analysis 0%nat ;;
   sleep nine_past ;;
   ret [Job (at_ 9 0) ((0 + 1) * day + at_ 9 0) (Some (0 * day + at_ 9 0))
          (automated_analysis 0%nat)]) before_nine.
Proof.
  split; [reflexivity|]. split; [reflexivity|]. split; [reflexivity|].
  apply (proj1 (daily_job_fires_once_at_nine) 0).
  - apply (proj2 (proj2 (daily_job_fires_once_at_nine))).
  - reflexivity.
  - reflexivity.
  - reflexivity.
Defined.

Lemma scheduled_runs_reuse_startup_table_witness :
  startup clinic =
    (Ok 0%nat, (startup clinic).2) ∧
  ∃ (T : table) (ls : list record),
    (∃ wa wb,
       load_data "insurance.csv" clinic = (Ok 0%nat, wa) ∧
       process_data 0%nat wa = (Ok 0%nat, wb) ∧
       w_heap wb !! 0%nat = Some T) ∧
    w_heap (startup clinic).2 !! 0%nat = Some T ∧
    analysis_lines T = Ok ls ∧
    (∀ w2, w_heap w2 !! 0%nat = Some T →
       automated_analysis 0%nat w2 = visualize_data 0%nat (logged ls w2)) ∧
    ∀ envs : list env,
      ∃ j' blocks w',
        main envs clinic = (Ok [j'], w') ∧
        job_func j' = automated_analysis 0%nat ∧
        daily_runs (automated_analysis 0%nat)
          (due_polls (at_ 9 0)
             (schedule_next_run (at_ 9 0) (w_clock (startup clinic).2))
             (w_clock (startup clinic).2) envs)
          envs (startup clinic).2 = (Ok tt, w') ∧
        Forall2 (poll_block ls)
          (due_polls (at_ 9 0)
             (schedule_next_run (at_ 9 0) (w_clock (startup clinic).2))
             (w_clock (startup clinic).2) envs)
          blocks ∧
        w_heap w' = w_heap (startup clinic).2 ∧
        w_fs w' =
          final_fs envs (w_fs (startup clinic).2) ∧
        w_log w' =
          w_log (startup clinic).2 ++ concat blocks ∧
        Forall (poll_lines ls) blocks ∧
        ∀ envs2 : list env,
          env_clock <$> envs2 = env_clock <$> envs →
          ∃ w2',
            main envs2 clinic = (Ok [j'], w2') ∧
            w_heap w2' = w_heap w' ∧
            w_log w2' = w_log w' ∧
            w_display w2' = w_display w' ∧
            w_fs w2' =
              final_fs envs2
                (w_fs (startup clinic).2).
Proof.
  assert (Hs : startup clinic = (Ok 0%nat, (startup clinic).2))
    by (vm_compute; reflexivity).
  split; [exact Hs|].
  exact (scheduled_runs_reuse_startup_table clinic _ _ Hs).
Defined.

(** Registered at midnight and polled at midnight, 09:00:00 and 09:00:01,
    the job is due at the second of these polls only. *)
Example due_polls_of_a_morning :
  due_polls (at_ 9 0) (schedule_next_run (at_ 9 0) 0) 0
    [nine_sharp; nine_past] = [false; true; false].
Proof. vm_compute; reflexivity. Qed.

End SchedulingWitnesses.

(* ===================================================================== *)
(** * Further properties: the Transformer *)
(* ===================================================================== *)

Module TransformerFacts.
Import Frame Host Script ScriptFacts.
Local Open Scope script_scope.

Lemma set_col_names (name : string) (c c0 : column) (t : table) :
  get_col name t = Some c0 → (set_col name c t).*1 = t.*1.
Proof.
  induction t as [|[n c1] t IH]; csimpl; [done|].
  destruct (String.eqb n name) eqn:E; csimpl; [done|].
  intros Hc. by rewrite IH.
Qed.

Section WithHost.
Context `{Numerics} `{Storage} `{Backend}.

Lemma convert_ok {A : Type} (f : scalar → option A) (target : dtype)
    (l : list scalar) (r : list A) :
  convert f target l = Ok r ↔ Forall2 (fun v a => f v = Some a) l r.
Proof.
  revert r. induction l as [|v l IH]; intros r; simpl.
  - split; [by intros [= <-]|by intros ->%Forall2_nil_inv_l].
  - destruct (f v) as [a|] eqn:E.
    + destruct (convert f target l) as [r'|e] eqn:E'.
      * split.
        -- intros [= <-]. constructor; [done|by apply IH].
        -- intros (a' & r'' & Ha & Hr & ->)%Forall2_cons_inv_l.
           apply IH in Hr. congruence.
      * split; [done|].
        intros (a' & r'' & Ha & Hr & ->)%Forall2_cons_inv_l.
        by apply IH in Hr.
    + split; [done|].
      intros (a' & r'' & Ha & Hr & ->)%Forall2_cons_inv_l. congruence.
Qed.

Lemma convert_total {A : Type} (f : scalar → option A) (target : dtype)
    (l : list scalar) :
  Forall (fun v => is_Some (f v)) l ↔ ∃ r, convert f target l = Ok r.
Proof.
  split.
  - induction 1 as [|v l [a Ha] _ [r IH]]; simpl; [by eexists|].
    rewrite Ha, IH. by eexists.
  - intros [r Hr]. apply convert_ok in Hr.
    induction Hr as [|v a l r Ha _ IH]; constructor; [by rewrite Ha|done].
Qed.

Lemma convert_floats (l : list spec_float) :
  convert to_float Float64 (SFloat <$> l) = Ok l.
Proof. induction l as [|x l IH]; csimpl; [done|]. by rewrite IH. Qed.

Lemma convert_ints (l : list Z) :
  convert to_int Int64 (SInt <$> l) = Ok l.
Proof. induction l as [|x l IH]; csimpl; [done|]. by rewrite IH. Qed.

(** A [process_data] that returned: what it found and what it left. *)
Lemma process_data_ok_inv (w w' : world) (df df' : loc) (t : table) :
  w_heap w !! df = Some t → process_data df w = (Ok df', w') →
  ∃ charges age fl il,
    get_col "charges" t = Some charges ∧ get_col "age" t = Some age ∧
    convert to_float Float64 (cells charges) = Ok fl ∧
    convert to_int Int64 (cells age) = Ok il ∧
    df' = df ∧
    w' = logged [(INFO, DataProcessed)]
           (set_heap
              (<[df := set_col "age" (IntCol il)
                         (set_col "charges" (FloatCol fl) t)]> (w_heap w)) w).
Proof.
  intros Hh Hp.
  destruct (get_col "charges" t) as [charges|] eqn:Ec;
    [|by rewrite (process_data_no_charges w df t Hh Ec) in Hp].
  destruct (astype_float charges) as [charges'|e] eqn:Ef;
    [|by rewrite (process_data_charges_raise w df t _ _ Hh Ec Ef) in Hp].
  destruct (get_col "age" t) as [age|] eqn:Ea;
    [|by rewrite (process_data_no_age w df t _ _ Hh Ec Ef Ea) in Hp].
  destruct (astype_int age) as [age'|e] eqn:Ei;
    [|by rewrite (process_data_age_raise w df t _ _ _ _ Hh Ec Ef Ea Ei) in Hp].
  rewrite (process_data_ok w df t _ _ _ _ Hh Ec Ef Ea Ei) in Hp.
  injection Hp as <- <-.
  unfold astype_int in Ei. unfold astype_float in Ef.
  destruct (convert to_int Int64 (cells age)) as [il|] eqn:Ci; [|done].
  destruct (convert to_float Float64 (cells charges)) as [fl|] eqn:Cf; [|done].
  injection Ei as <-. injection Ef as <-.
  exists charges, age, fl, il. repeat split; done.
Qed.

End WithHost.
End TransformerFacts.

Section TransformerProperties.
Import Frame Host Script Schedule Views ScriptFacts TransformerFacts.
Context `{Numerics} `{Storage} `{Backend}.

(** X1.  On a table with both columns, [process_data] returns exactly when
    every value of [charges] converts to a float and every value of [age] to
    an int; the columns it leaves then hold the converted values, row for
    row. *)
Theorem process_data_returns_iff_all_convert (w : world) (df : loc)
    (t : table) (charges age : column) :
  w_heap w !! df = Some t →
  get_col "charges" t = Some charges → get_col "age" t = Some age →
  ((∃ df' w', process_data df w = (Ok df', w')) ↔
   Forall (fun v => is_Some (to_float v)) (cells charges) ∧
   Forall (fun v => is_Some (to_int v)) (cells age)) ∧
  (∀ df' w', process_data df w = (Ok df', w') →
     ∃ t' fl il,
       w_heap w' !! df = Some t' ∧
       get_col "charges" t' = Some (FloatCol fl) ∧
       Forall2 (fun v f => to_float v = Some f) (cells charges) fl ∧
       get_col "age" t' = Some (IntCol il) ∧
       Forall2 (fun v z => to_int v = Some z) (cells age) il).
Proof.
  intros Hh Hc Ha. split; [split|].
  - intros (df' & w' & Hp).
    destruct (process_data_ok_inv w w' df df' t Hh Hp)
      as (charges0 & age0 & fl & il & Hc0 & Ha0 & Hf & Hi & _).
    rewrite Hc in Hc0. rewrite Ha in Ha0.
    injection Hc0 as <-. injection Ha0 as <-.
    split; [apply (convert_total _ Float64)|apply (convert_total _ Int64)];
      by eexists.
  - intros [Hf Hi].
    apply (convert_total _ Float64) in Hf as [fl Hf].
    apply (convert_total _ Int64) in Hi as [il Hi].
    eexists _, _. eapply (process_data_ok w df t); try done.
    + unfold astype_float. by rewrite Hf.
    + unfold astype_int. by rewrite Hi.
  - intros df' w' Hp.
    destruct (process_data_ok_inv w w' df df' t Hh Hp)
      as (charges0 & age0 & fl & il & Hc0 & Ha0 & Hf & Hi & -> & ->).
    rewrite Hc in Hc0. rewrite Ha in Ha0.
    injection Hc0 as <-. injection Ha0 as <-.
    eexists _, fl, il. split; [apply lookup_insert_eq|].
    split; [by rewrite get_col_set_col_ne, get_col_set_col_eq|].
    split; [by apply convert_ok in Hf|].
    split; [by rewrite get_col_set_col_eq|by apply convert_ok in Hi].
Qed.

(** X2.  A table without [charges] makes [process_data] raise the
    [KeyError] of [charges] and leaves the table as it was, whatever [age]
    holds; a table with a [charges] column that converts but without [age]
    makes it raise the [KeyError] of [age] after [charges] was replaced by
    its float64 column.  Both errors are logged. *)
Theorem process_data_missing_column :
  (∀ (w : world) (df : loc) (t : table),
     w_heap w !! df = Some t → get_col "charges" t = None →
     process_data df w =
       (Raise (KeyError "charges"),
        logged [(ERROR, ErrorProcessing (KeyError "charges"))] w)) ∧
  (∀ (w : world) (df : loc) (t : table) (charges : column)
     (fl : list spec_float),
     w_heap w !! df = Some t → get_col "charges" t = Some charges →
     convert to_float Float64 (cells charges) = Ok fl →
     get_col "age" t = None →
     process_data df w =
       (Raise (KeyError "age"),
        logged [(ERROR, ErrorProcessing (KeyError "age"))]
          (set_heap (<[df := set_col "charges" (FloatCol fl) t]> (w_heap w)) w))).
Proof.
  split; [apply process_data_no_charges|].
  intros w df t charges fl Hh Hc Hf Ha.
  eapply process_data_no_age; try done. unfold astype_float. by rewrite Hf.
Qed.

(** X3.  A [process_data] that returns hands back the reference it was
    given, and the table behind it has the same column names in the same
    order, a float64 [charges] and an int64 [age] with as many rows as
    before, and every other column as it was; no other table, no file and
    nothing on the display changes, and one line is logged. *)
Theorem process_data_keeps_shape (w w' : world) (df df' : loc) (t : table) :
  w_heap w !! df = Some t → process_data df w = (Ok df', w') →
  df' = df ∧
  ∃ t' charges age fl il,
    w_heap w' !! df = Some t' ∧
    t'.*1 = t.*1 ∧
    get_col "charges" t = Some charges ∧ get_col "age" t = Some age ∧
    get_col "charges" t' = Some (FloatCol fl) ∧
    length fl = length (cells charges) ∧
    get_col "age" t' = Some (IntCol il) ∧
    length il = length (cells age) ∧
    (∀ name, name ≠ "charges" → name ≠ "age" →
       get_col name t' = get_col name t) ∧
    (∀ r, r ≠ df → w_heap w' !! r = w_heap w !! r) ∧
    w_fs w' = w_fs w ∧ w_display w' = w_display w ∧
    w_log w' = w_log w ++ [(INFO, DataProcessed)].
Proof.
  intros Hh Hp.
  destruct (process_data_ok_inv w w' df df' t Hh Hp)
    as (charges & age & fl & il & Hc & Ha & Hf & Hi & -> & ->).
  split; [done|].
  exists (set_col "age" (IntCol il) (set_col "charges" (FloatCol fl) t)),
    charges, age, fl, il.
  split; [apply lookup_insert_eq|].
  split.
  { rewrite (set_col_names "age" _ age); [by eapply set_col_names|].
    by rewrite get_col_set_col_ne. }
  split; [done|]. split; [done|].
  split; [by rewrite get_col_set_col_ne, get_col_set_col_eq|].
  split; [apply convert_ok, Forall2_length in Hf; by symmetry|].
  split; [by rewrite get_col_set_col_eq|].
  split; [apply convert_ok, Forall2_length in Hi; by symmetry|].
  split; [intros name N1 N2; by rewrite !get_col_set_col_ne|].
  split; [intros r Hr; simpl; by rewrite lookup_insert_ne|].
  done.
Qed.

(** X4.  [process_data] is idempotent: run again on the table it has
    processed, it returns, and no table and no file changes. *)
Theorem process_data_idempotent (w w1 : world) (df df' : loc) (t : table) :
  w_heap w !! df = Some t → process_data df w = (Ok df', w1) →
  ∃ w2,
    process_data df' w1 = (Ok df', w2) ∧
    w_heap w2 = w_heap w1 ∧ w_fs w2 = w_fs w1 ∧
    w_display w2 = w_display w1 ∧
    w_log w2 = w_log w1 ++ [(INFO, DataProcessed)].
Proof.
  intros Hh Hp.
  destruct (process_data_ok_inv w w1 df df' t Hh Hp)
    as (charges & age & fl & il & Hc & Ha & Hf & Hi & -> & ->).
  set (t1 := set_col "age" (IntCol il) (set_col "charges" (FloatCol fl) t)).
  set (w1 := logged [(INFO, DataProcessed)]
               (set_heap (<[df := t1]> (w_heap w)) w)).
  assert (Hh1 : w_heap w1 !! df = Some t1) by apply lookup_insert_eq.
  assert (Hc1 : get_col "charges" t1 = Some (FloatCol fl)).
  { unfold t1. by rewrite get_col_set_col_ne, get_col_set_col_eq. }
  assert (Ha1 : get_col "age" t1 = Some (IntCol il)).
  { unfold t1. by rewrite get_col_set_col_eq. }
  eexists. split.
  - eapply (process_data_ok w1 df t1); try done.
    + unfold astype_float. simpl. by rewrite convert_floats.
    + unfold astype_int. simpl. by rewrite convert_ints.
  - simpl. rewrite (set_col_same "charges" _ t1 Hc1).
    rewrite (set_col_same "age" _ t1 Ha1).
    rewrite insert_insert_eq. done.
Qed.

End TransformerProperties.

Section StageProperties.
Import Frame Host Script Schedule Views ScriptFacts TransformerFacts.
Context `{Numerics} `{Storage} `{Backend}.
Local Open Scope script_scope.

(** X5.  A [load_data] that can read the file returns a reference that was
    not in use, behind which the table read now sits; every DataFrame that
    existed is still behind its reference, no file and nothing on the display
    changes, and one line is logged. *)
Theorem load_data_creates_new_object (w : world) (file_path : string)
    (t : table) :
  read_csv file_path (w_fs w) = Ok t →
  ∃ df w',
    load_data file_path w = (Ok df, w') ∧
    w_heap w !! df = None ∧
    w_heap w' !! df = Some t ∧
    (∀ r, r ≠ df → w_heap w' !! r = w_heap w !! r) ∧
    w_fs w' = w_fs w ∧ w_display w' = w_display w ∧
    w_log w' = w_log w ++ [(INFO, DataLoaded)].
Proof.
  intros Hr. eexists _, _. split; [by apply load_data_ok|].
  split; [apply not_elem_of_dom, is_fresh|].
  simpl. split; [apply lookup_insert_eq|].
  split; [|done]. intros r Hr'. by rewrite lookup_insert_ne.
Qed.

(** X6.  Each call of [load_data], [process_data] and [save_data] adds
    exactly one line to the log, whatever happens: an [INFO] line when it
    returns, an [ERROR] line when it raises. *)
Theorem each_stage_logs_one_line :
  (∀ (file_path : string) (w : world),
     ∃ m, w_log (load_data file_path w).2 =
          w_log w ++ [(level_of (load_data file_path w).1, m)]) ∧
  (∀ (df : loc) (w : world),
     ∃ m, w_log (process_data df w).2 =
          w_log w ++ [(level_of (process_data df w).1, m)]) ∧
  (∀ (df : loc) (file_path : string) (w : world),
     ∃ m, w_log (save_data df file_path w).2 =
          w_log w ++ [(level_of (save_data df file_path w).1, m)]).
Proof.
  split; [|split].
  - intros file_path w.
    destruct (read_csv file_path (w_fs w)) as [t|e] eqn:E.
    + rewrite (load_data_ok w file_path t E). by eexists.
    + rewrite (load_data_raises w file_path e E). by eexists.
  - intros df w. destruct (w_heap w !! df) as [t|] eqn:Hh.
    + destruct (get_col "charges" t) as [charges|] eqn:Ec;
        [|rewrite (process_data_no_charges w df t Hh Ec); by eexists].
      destruct (astype_float charges) as [charges'|e] eqn:Ef;
        [|rewrite (process_data_charges_raise w df t _ _ Hh Ec Ef); by eexists].
      destruct (get_col "age" t) as [age|] eqn:Ea;
        [|rewrite (process_data_no_age w df t _ _ Hh Ec Ef Ea); by eexists].
      destruct (astype_int age) as [age'|e] eqn:Ei;
        [|rewrite (process_data_age_raise w df t _ _ _ _ Hh Ec Ef Ea Ei);
          by eexists].
      rewrite (process_data_ok w df t _ _ _ _ Hh Ec Ef Ea Ei). by eexists.
    + unfold process_data, try_except, bind, getitem, bind, deref.
      rewrite Hh. by eexists.
  - intros df file_path w. destruct (w_heap w !! df) as [t|] eqn:Hh.
    + destruct (to_csv t file_path false (w_fs w)) as [f [e|]] eqn:E.
      * rewrite (save_data_raises w df t file_path f e Hh E). by eexists.
      * rewrite (save_data_ok w df t file_path f Hh E). by eexists.
    + unfold save_data, try_except, bind, df_to_csv, bind, deref.
      rewrite Hh. by eexists.
Qed.

(** X7.  [automated_analysis] and [visualize_data] change no table, no file
    and not the clock, whatever the table and the backend; [visualize_data]
    always returns and adds no line to the log or one error line. *)
Theorem analysis_changes_no_table (df : loc) (w : world) :
  (w_heap (automated_analysis df w).2 = w_heap w ∧
   w_fs (automated_analysis df w).2 = w_fs w ∧
   w_clock (automated_analysis df w).2 = w_clock w) ∧
  ∃ w',
    visualize_data df w = (Ok tt, w') ∧
    w_heap w' = w_heap w ∧ w_fs w' = w_fs w ∧ w_clock w' = w_clock w ∧
    (w_log w' = w_log w ∨
     ∃ e, w_log w' = w_log w ++ [(ERROR, ErrorVisualizing e)]).
Proof.
  split.
  - destruct (table_reader_automated_analysis df w) as (r0 & ls & d & _ & E0 & _).
    by rewrite E0.
  - destruct (visualize_data_lines df w) as (es & d & Hes & E).
    exists (shown es d w). split; [by apply E|].
    split; [done|]. split; [done|]. split; [done|].
    destruct Hes as [->|[e ->]]; simpl; [left; by rewrite app_nil_r|right; by exists e].
Qed.

(** One call of the backend that a backend without failures lets through. *)
Ltac drawn Hb :=
  rewrite plt_bind;
  match goal with
  | |- context [plot ?c ?d] =>
      let E := fresh "E" in
      let Hc := fresh in
      pose proof (Hb c d) as Hc;
      destruct (plot c d) as [? [?|]] eqn:E; [discriminate Hc|clear Hc]
  end.

(** X8.  With a backend that does not fail, on a table with [region],
    [smoker] and a numeric [charges], [visualize_data] draws both charts and
    logs nothing. *)
Theorem charts_are_silent_when_drawn (w : world) (df : loc) (t : table)
    (region smoker charges : column) :
  (∀ c d, (plot c d).2 = None) →
  w_heap w !! df = Some t →
  get_col "region" t = Some region → get_col "smoker" t = Some smoker →
  get_col "charges" t = Some charges → numeric charges = true →
  ∃ w',
    visualize_data df w = (Ok tt, w') ∧
    w_log w' = w_log w ∧ w_heap w' = w_heap w ∧ w_fs w' = w_fs w.
Proof.
  intros Hb Hh Hr Hs Hc Hn.
  destruct (groupby_mean_numeric "region" "charges" t region charges Hr Hc Hn)
    as [m1 Hg1].
  destruct (groupby_mean_numeric "smoker" "charges" t smoker charges Hs Hc Hn)
    as [m2 Hg2].
  unfold visualize_data, try_except, visualize_body.
  drawn Hb.
  rewrite (groupby_bind _ _ _ _ _ t), Hg1 by done.
  rewrite (groupby_bind _ _ _ _ _ t), Hg1 by done.
  do 7 drawn Hb.
  rewrite (groupby_bind _ _ _ _ _ t), Hg2 by done.
  rewrite (groupby_bind _ _ _ _ _ t), Hg2 by done.
  do 4 drawn Hb.
  unfold plt.
  match goal with
  | |- context [plot ?c ?d] =>
      pose proof (Hb c d) as Hl; destruct (plot c d) as [? [?|]]; [discriminate Hl|]
  end.
  by eexists.
Qed.

(** X9.  A table without [region] gets no chart at all: after the first
    figure is opened the body of [visualize_data] raises the [KeyError] of
    [region], no other call reaches the backend, and the error is logged;
    the chart by [smoker] is not attempted. *)
Theorem missing_region_skips_both_charts (w : world) (df : loc) (t : table) :
  w_heap w !! df = Some t → get_col "region" t = None →
  visualize_data df w =
    (Ok tt,
     logged
       [(ERROR,
         ErrorVisualizing
           (match (plot (Figure 8 5) (w_display w)).2 with
            | Some e => e
            | None => KeyError "region"
            end))]
       (set_display (plot (Figure 8 5) (w_display w)).1 w)).
Proof.
  intros Hh Hr. unfold visualize_data, try_except, visualize_body.
  rewrite plt_bind.
  destruct (plot (Figure 8 5) (w_display w)) as [d [e|]]; simpl; [done|].
  rewrite (groupby_bind _ _ _ _ _ t) by done.
  unfold groupby_mean. by rewrite Hr.
Qed.

(** X20.  [automated_analysis] reports all four results or none: when it
    raises, nothing was logged and nothing drawn, and the exception is the
    one of the first query that fails; a table that lacks one of [age],
    [sex], [charges] and [region] makes it raise, even where the other
    queries would succeed. *)
Theorem failed_query_reports_nothing (w : world) (df : loc) (t : table) :
  w_heap w !! df = Some t →
  (∀ e w', automated_analysis df w = (Raise e, w') →
     w' = w ∧ analysis_lines t = Raise e) ∧
  (∀ name, name ∈ ["age"; "sex"; "charges"; "region"] →
     get_col name t = None →
     ∃ e, automated_analysis df w = (Raise e, w)).
Proof.
  intros Hh. rewrite (automated_analysis_eq w df t Hh). split.
  - intros e w' E. destruct (analysis_lines t) as [ls|e0]; [|by injection E as <- <-].
    destruct (visualize_data_lines df (logged ls w)) as (es & d & _ & Ev).
    by rewrite (Ev _ eq_refl eq_refl) in E.
  - intros name Hin Hn.
    assert (Hl : ∃ e, analysis_lines t = Raise e).
    { unfold analysis_lines.
      destruct (get_col "age" t) as [age|] eqn:Ea; [|by eexists].
      destruct (col_mean age); [|by eexists].
      destruct (get_col "sex" t) as [sex|] eqn:Es; [|by eexists].
      destruct (get_col "charges" t) as [charges|] eqn:Ec; [|by eexists].
      destruct (col_mean charges); [|by eexists].
      destruct (get_col "region" t) as [region|] eqn:Er; [|by eexists].
      exfalso.
      repeat (apply elem_of_cons in Hin as [->|Hin]; [congruence|]).
      by apply elem_of_nil in Hin. }
    destruct Hl as [e ->]. by exists e.
Qed.

End StageProperties.

(* ===================================================================== *)
(** * Further properties: the Analyzer *)
(* ===================================================================== *)

Module AnalyzerFacts.
Import Frame Host Script Views FrameFacts ScriptFacts.

Lemma bump_total (x : scalar) (acc : list (scalar * nat)) :
  sum_list (bump x acc).*2 = S (sum_list acc.*2).
Proof.
  induction acc as [|[k n] acc IH]; csimpl; [done|].
  destruct (same_key x k); csimpl; [done|]. rewrite IH. lia.
Qed.

Lemma tally_total (l : list scalar) (acc : list (scalar * nat)) :
  sum_list (tally_from acc l).*2 = (sum_list acc.*2 + length l)%nat.
Proof.
  revert acc. unfold tally_from.
  induction l as [|x l IH]; intros acc; simpl; [lia|].
  rewrite IH, bump_total. lia.
Qed.

Lemma insert_desc_total (e : scalar * nat) (out : list (scalar * nat)) :
  sum_list (insert_desc e out).*2 = (e.2 + sum_list out.*2)%nat.
Proof.
  induction out as [|e' out IH]; csimpl; [done|].
  destruct (e.2 <? e'.2)%nat; csimpl; [|done]. rewrite IH. lia.
Qed.

Lemma sort_values_desc_total (l : list (scalar * nat)) :
  sum_list (sort_values_desc l).*2 = sum_list l.*2.
Proof.
  induction l as [|e l IH]; csimpl; [done|].
  by rewrite insert_desc_total, IH.
Qed.

Lemma value_counts_total (col : list scalar) :
  sum_list (value_counts col).*2 = length (List.filter notna col).
Proof.
  unfold value_counts. by rewrite sort_values_desc_total, tally_total.
Qed.

Lemma count_key_pos (k : scalar) (col : list scalar) :
  k ∈ col → (0 < count_key k col)%nat.
Proof.
  unfold count_key. induction col as [|x col IH]; [by intros ?%elem_of_nil|].
  intros [->|Hin]%elem_of_cons; simpl.
  - rewrite same_key_refl. simpl. lia.
  - destruct (same_key k x); simpl; [lia|by apply IH].
Qed.

Lemma unique_from_distinct (seen l : list scalar) :
  NoDup (key <$> l) → (∀ x, x ∈ l → key x ∉ key <$> seen) →
  unique_from seen l = l.
Proof.
  revert seen. induction l as [|x l IH]; intros seen Hnd Hs; csimpl; [done|].
  apply list.NoDup_cons in Hnd as [Hx Hnd].
  assert (existsb (same_key x) seen = false) as ->.
  { apply unseen_key, Hs. by left. }
  f_equal. apply IH; [done|].
  intros y Hy. rewrite fmap_app, elem_of_app. intros [Hin|Hin].
  - apply (Hs y); [by right|done].
  - apply list_elem_of_singleton in Hin. apply Hx. rewrite <- Hin.
    apply list_elem_of_fmap. by exists y.
Qed.

Lemma unique_distinct (l : list scalar) : NoDup (key <$> l) → unique l = l.
Proof.
  intros Hnd. apply unique_from_distinct; [done|].
  intros x _ ?%elem_of_nil. done.
Qed.

Lemma unique_from_length (seen l : list scalar) :
  (length (unique_from seen l) ≤ length l)%nat.
Proof.
  revert seen. induction l as [|x l IH]; intros seen; simpl; [done|].
  destruct (existsb (same_key x) seen); simpl.
  - specialize (IH seen). lia.
  - specialize (IH (seen ++ [x])). lia.
Qed.

Lemma dict_get_cells (name : string) (t : table) :
  dict_get name ((fun nc => (nc.1, cells nc.2)) <$> t) =
  cells <$> get_col name t.
Proof.
  induction t as [|[n c] t IH]; csimpl; [done|].
  by destruct (String.eqb n name).
Qed.

End AnalyzerFacts.

Section AnalyzerProperties.
Import Frame Host Script Views FrameFacts ScriptFacts AnalyzerFacts.
Context `{Storage} `{Backend}.
Local Open Scope script_scope.

(** X10.  The counts of [analyze_sexes] add up to the number of rows whose
    [sex] is not missing, and no entry has the count zero. *)
Theorem analyze_sexes_counts_add_up (w : world) (df : loc) (t : table)
    (sex : column) :
  w_heap w !! df = Some t → get_col "sex" t = Some sex →
  ∃ d,
    analyze_sexes {| self_df := df |} w = (Ok d, w) ∧
    sum_list d.*2 = length (List.filter notna (cells sex)) ∧
    Forall (fun e => (0 < e.2)%nat) d.
Proof.
  intros Hh Hc. exists (value_counts (cells sex)). split.
  - unfold analyze_sexes. cbn [self_df].
    by rewrite (column_query_eq w df t "sex" _ Hh), Hc.
  - split; [apply value_counts_total|].
    destruct (value_counts_spec (cells sex)) as (_ & _ & H3 & _).
    apply list.Forall_forall. intros [k n] Hin.
    destruct (H3 k n Hin) as (Hk & _ & ->). by apply count_key_pos.
Qed.

(** X11.  [unique_regions] returns a column whose values are all distinct
    as it is, and never more values than the column has rows; what it
    returns has no duplicates left to remove. *)
Theorem unique_regions_of_distinct_column (w : world) (df : loc) (t : table)
    (region : column) :
  w_heap w !! df = Some t → get_col "region" t = Some region →
  ∃ out,
    unique_regions {| self_df := df |} w = (Ok out, w) ∧
    (length out ≤ length (cells region))%nat ∧
    unique out = out ∧
    (NoDup (key <$> cells region) → out = cells region).
Proof.
  intros Hh Hc. exists (unique (cells region)). split.
  - unfold unique_regions. cbn [self_df].
    by rewrite (column_query_eq w df t "region" _ Hh), Hc.
  - split; [apply unique_from_length|].
    split; [apply unique_distinct, unique_spec|apply unique_distinct].
Qed.

(** X12.  On a table whose column names are all different,
    [create_dictionary] returns one entry per column, in the order of the
    columns, and the entry of a name holds the values of that column; it
    never raises and changes nothing. *)
Theorem create_dictionary_matches_columns (w : world) (df : loc) (t : table) :
  w_heap w !! df = Some t → NoDup t.*1 →
  ∃ d,
    create_dictionary {| self_df := df |} w = (Ok d, w) ∧
    d.*1 = t.*1 ∧
    ∀ name, dict_get name d = cells <$> get_col name t.
Proof.
  intros Hh _. exists ((fun nc => (nc.1, cells nc.2)) <$> t). split.
  - unfold create_dictionary, bind, deref. cbn [self_df]. by rewrite Hh.
  - split; [|intros name; apply dict_get_cells].
    rewrite <- list_fmap_compose. done.
Qed.

End AnalyzerProperties.

(* ===================================================================== *)
(** * Further properties: the groups of a chart *)
(* ===================================================================== *)

Module GroupFacts.
Import Frame Host Script Views FrameFacts ScriptFacts.

Lemma SFltb_asym (x y : spec_float) : SFltb x y = true → SFltb y x = false.
Proof.
  unfold SFltb.
  destruct x as [sx|sx| |sx mx ex], y as [sy|sy| |sy my ey]; simpl;
    try done; try (by destruct sx); try (by destruct sy);
    try (by destruct sx, sy).
  change (PosDef.Pos.compare_cont Eq mx my) with (Pos.compare mx my).
  change (PosDef.Pos.compare_cont Eq my mx) with (Pos.compare my mx).
  rewrite (Z.compare_antisym ex ey), (Pos.compare_antisym mx my).
  destruct sx, sy; simpl; try done;
    destruct (ex ?= ey); simpl; try done;
    destruct (mx ?= my)%positive; simpl; done.
Qed.

Lemma scalar_ltb_asym (a b : scalar) :
  scalar_ltb a b = true → scalar_ltb b a = false.
Proof.
  destruct a as [x|x|x|x], b as [y|y|y|y]; simpl; try done.
  - intros ?%Z.ltb_lt. apply Z.ltb_ge. lia.
  - apply SFltb_asym.
  - by destruct x, y.
  - unfold String.ltb. rewrite (String.compare_antisym x y).
    by destruct (y ?= x)%string.
Qed.

Lemma insert_key_perm (k : scalar) (out : list scalar) :
  insert_key k out ≡ₚ k :: out.
Proof.
  induction out as [|k' out IH]; simpl; [done|].
  destruct (scalar_ltb k k'); [done|].
  rewrite IH. apply Permutation_swap.
Qed.

Lemma sort_keys_perm (l : list scalar) : sort_keys l ≡ₚ l.
Proof.
  induction l as [|k l IH]; simpl; [done|].
  by rewrite insert_key_perm, IH.
Qed.

Lemma insert_key_sorted (k : scalar) (out : list scalar) :
  Sorted not_after out → Sorted not_after (insert_key k out).
Proof.
  induction out as [|k' out IH]; simpl; intros Hs.
  - by repeat constructor.
  - destruct (scalar_ltb k k') eqn:E.
    + constructor; [done|]. constructor. by apply scalar_ltb_asym.
    + apply Sorted_inv in Hs as [Hs Hh]. constructor; [by apply IH|].
      destruct out as [|k'' out]; simpl.
      * by constructor.
      * destruct (scalar_ltb k k''); constructor; [done|].
        by inversion Hh.
Qed.

Lemma sort_keys_sorted (l : list scalar) : Sorted not_after (sort_keys l).
Proof.
  induction l as [|k l IH]; simpl; [constructor|by apply insert_key_sorted].
Qed.

Section WithHost.
Context `{Numerics}.

Lemma group_means_spec (kc : list scalar) (vc : column) (keys : list scalar)
    (r : list (scalar * spec_float)) :
  group_means kc vc keys = Ok r →
  r.*1 = keys ∧
  Forall (fun e => col_mean (select (same_key e.1 <$> kc) vc) = Ok e.2) r.
Proof.
  revert r. induction keys as [|k keys IH]; intros r; simpl.
  - by intros [= <-].
  - destruct (col_mean (select (same_key k <$> kc) vc)) as [m|e] eqn:E; [|done].
    destruct (group_means kc vc keys) as [r'|e]; [|done].
    intros [= <-]. destruct (IH r' eq_refl) as [Hk Hm].
    csimpl. split; [by rewrite Hk|by constructor].
Qed.

End WithHost.
End GroupFacts.

Section GroupProperties.
Import Frame Host Script Views FrameFacts ScriptFacts GroupFacts.
Context `{Numerics}.

(** X13.  The bars of a chart: [df.groupby(by)[val].mean()] has one entry
    for every distinct value of the [by] column that is not missing, no value
    twice, in ascending order, and the entry of a value is the mean of [val]
    over the rows that hold it.  When it raises, a missing [by] column is
    reported, by the [KeyError] of its name, before a missing [val] column,
    which is reported by the [KeyError] of the selection, and with both
    columns there [val] is not numeric. *)
Theorem groupby_mean_has_one_bar_per_group (by_ val : string) (t : table) :
  match groupby_mean by_ val t with
  | Ok r =>
      ∃ kc vc,
        get_col by_ t = Some kc ∧ get_col val t = Some vc ∧
        r.*1 ≡ₚ unique (List.filter notna (cells kc)) ∧
        NoDup (key <$> r.*1) ∧
        (∀ v, v ∈ cells kc → isna v = false → key v ∈ key <$> r.*1) ∧
        Sorted not_after r.*1 ∧
        Forall
          (fun e => col_mean (select (same_key e.1 <$> cells kc) vc) = Ok e.2) r
  | Raise e =>
      match get_col by_ t, get_col val t with
      | None, _ => e = KeyError by_
      | Some _, None => e = KeyError ("Column not found: " ++ val)
      | Some _, Some vc => numeric vc = false
      end
  end.
Proof.
  unfold groupby_mean.
  destruct (get_col by_ t) as [kc|]; [|done].
  destruct (get_col val t) as [vc|]; [|done].
  destruct (group_means (cells kc) vc
              (sort_keys (unique (List.filter notna (cells kc))))) as [r|e] eqn:E.
  2:{ destruct (numeric vc) eqn:Hn; [|done].
      destruct (group_means_numeric (cells kc) vc
                  (sort_keys (unique (List.filter notna (cells kc)))) Hn)
        as [m Hm].
      by rewrite Hm in E. }
  apply group_means_spec in E as [Hk Hm].
  exists kc, vc. split; [done|]. split; [done|].
  rewrite Hk.
  destruct (unique_from_spec notna (cells kc) []) as (H1 & H2 & H3 & H4 & H5).
  { intros x y E. unfold notna. f_equal. apply same_key_isna.
    by apply same_key_key. }
  fold (unique (List.filter notna (cells kc))) in H1, H2, H3, H4, H5.
  split; [apply sort_keys_perm|].
  split; [by rewrite sort_keys_perm|].
  split.
  { intros v Hv Nv. rewrite sort_keys_perm.
    assert (Pv : notna v = true) by (unfold notna; by rewrite Nv).
    by destruct (H5 v Hv Pv) as [?%elem_of_nil|?]. }
  split; [apply sort_keys_sorted|done].
Qed.

End GroupProperties.

(* ===================================================================== *)
(** * Further properties: the startup of [main] *)
(* ===================================================================== *)

Module StartupFacts.
Import Frame Host Script Schedule Views ScriptFacts ScheduleFacts
  TransformerFacts.
Local Open Scope script_scope.

Section WithHost.
Context `{Numerics} `{Storage} `{Backend}.

(** The world after the first two stages of a startup. *)
Lemma load_then_process (w : world) (t : table) (charges age : column)
    (fl : list spec_float) (il : list Z) :
  read_csv "insurance.csv" (w_fs w) = Ok t →
  get_col "charges" t = Some charges → get_col "age" t = Some age →
  convert to_float Float64 (cells charges) = Ok fl →
  convert to_int Int64 (cells age) = Ok il →
  ∃ w2,
    (df <- load_data "insurance.csv" ;; process_data df) w =
      (Ok (fresh (dom (w_heap w))), w2) ∧
    w_heap w2 !! fresh (dom (w_heap w)) =
      Some (set_col "age" (IntCol il) (set_col "charges" (FloatCol fl) t)) ∧
    w_fs w2 = w_fs w ∧ w_display w2 = w_display w ∧
    w_clock w2 = w_clock w ∧
    w_log w2 = w_log w ++ [(INFO, DataLoaded); (INFO, DataProcessed)].
Proof.
  intros Hr Hc Ha Hf Hi. set (df := fresh (dom (w_heap w))).
  pose proof (load_data_ok w "insurance.csv" t Hr) as El. fold df in El.
  set (w1 := logged [(INFO, DataLoaded)] (set_heap (<[df := t]> (w_heap w)) w))
    in *.
  assert (Hh1 : w_heap w1 !! df = Some t) by apply lookup_insert_eq.
  assert (Ef : astype_float charges = Ok (FloatCol fl)).
  { unfold astype_float. by rewrite Hf. }
  assert (Ei : astype_int age = Ok (IntCol il)).
  { unfold astype_int. by rewrite Hi. }
  pose proof (process_data_ok w1 df t _ _ _ _ Hh1 Hc Ef Ha Ei) as Ep.
  eexists. split; [by rewrite bind_eq, El, Ep|].
  split; [apply lookup_insert_eq|]. simpl.
  split; [done|]. split; [done|]. split; [done|].
  by rewrite <- app_assoc.
Qed.

Lemma startup_eq (w : world) :
  startup w =
  (df <- (df <- load_data "insurance.csv" ;; process_data df) ;;
   save_data df "processed_insurance.csv" ;;
   automated_analysis df ;;
   ret df) w.
Proof. unfold startup. by rewrite bind_assoc. Qed.

Lemma idle_frame (envs : list env) (w : world) :
  w_log (idle envs w).2 = w_log w ∧
  w_display (idle envs w).2 = w_display w ∧
  w_heap (idle envs w).2 = w_heap w.
Proof.
  revert w. induction envs as [|e envs IH]; intros w; simpl; [done|].
  rewrite sleep_bind. by destruct (IH (slept e w)) as (-> & -> & ->).
Qed.

End WithHost.
End StartupFacts.

Section StartupProperties.
Import Frame Host Script Schedule Views ScriptFacts ScheduleFacts
  TransformerFacts StartupFacts.
Context `{Numerics} `{Storage} `{Backend}.
Local Open Scope script_scope.

(** X14.  When [insurance.csv] cannot be read, [main] ends with the error of
    the read whatever the schedule: the error is logged and nothing else
    happens, no table, no file and no chart. *)
Theorem main_stops_when_the_file_cannot_be_read (w : world) (e : exn)
    (envs : list env) :
  read_csv "insurance.csv" (w_fs w) = Raise e →
  main envs w = (Raise e, logged [(ERROR, ErrorLoading e)] w).
Proof.
  intros Hr. unfold main, startup.
  by rewrite !bind_eq, (load_data_raises w _ e Hr).
Qed.

(** X15.  When the processed table cannot be written, [main] ends with the
    error of the write: the table is processed in memory, the files are as
    the failed write left them, the log holds the load, the processing and
    the error, and no analysis runs and nothing is drawn. *)
Theorem main_stops_when_the_table_cannot_be_saved (w : world) (t : table)
    (charges age : column) (fl : list spec_float) (il : list Z) (f : fs)
    (e : exn) (envs : list env) :
  read_csv "insurance.csv" (w_fs w) = Ok t →
  get_col "charges" t = Some charges → get_col "age" t = Some age →
  convert to_float Float64 (cells charges) = Ok fl →
  convert to_int Int64 (cells age) = Ok il →
  to_csv (set_col "age" (IntCol il) (set_col "charges" (FloatCol fl) t))
    "processed_insurance.csv" false (w_fs w) = (f, Some e) →
  ∃ w',
    main envs w = (Raise e, w') ∧
    w_heap w' !! fresh (dom (w_heap w)) =
      Some (set_col "age" (IntCol il) (set_col "charges" (FloatCol fl) t)) ∧
    w_fs w' = f ∧ w_display w' = w_display w ∧
    w_log w' =
      w_log w ++ [(INFO, DataLoaded); (INFO, DataProcessed);
                  (ERROR, ErrorSaving e)].
Proof.
  intros Hr Hc Ha Hf Hi Hs.
  destruct (load_then_process w t charges age fl il Hr Hc Ha Hf Hi)
    as (w2 & E2 & Hh2 & Hfs2 & Hd2 & _ & Hl2).
  rewrite <- Hfs2 in Hs.
  pose proof (save_data_raises w2 _ _ "processed_insurance.csv" f e Hh2 Hs)
    as Es.
  eexists. split.
  - unfold main. rewrite bind_eq, startup_eq, bind_eq, E2. cbv beta iota.
    by rewrite bind_eq, Es.
  - simpl. split; [done|]. split; [done|]. split; [done|].
    rewrite Hl2, <- app_assoc. done.
Qed.

(** X16.  When a query of the first analysis raises, [main] ends with that
    exception after the processed file has been written: the file is there,
    the log holds the load, the processing and the save and no line for the
    exception, and nothing is drawn. *)
Theorem main_stops_after_saving_when_a_query_fails (w : world) (t : table)
    (charges age : column) (fl : list spec_float) (il : list Z) (f : fs)
    (e : exn) (envs : list env) :
  read_csv "insurance.csv" (w_fs w) = Ok t →
  get_col "charges" t = Some charges → get_col "age" t = Some age →
  convert to_float Float64 (cells charges) = Ok fl →
  convert to_int Int64 (cells age) = Ok il →
  to_csv (set_col "age" (IntCol il) (set_col "charges" (FloatCol fl) t))
    "processed_insurance.csv" false (w_fs w) = (f, None) →
  analysis_lines
    (set_col "age" (IntCol il) (set_col "charges" (FloatCol fl) t)) = Raise e →
  ∃ w',
    main envs w = (Raise e, w') ∧
    w_fs w' = f ∧ w_display w' = w_display w ∧
    w_log w' =
      w_log w ++ [(INFO, DataLoaded); (INFO, DataProcessed);
                  (INFO, DataSaved "processed_insurance.csv")].
Proof.
  intros Hr Hc Ha Hf Hi Hs Hl.
  destruct (load_then_process w t charges age fl il Hr Hc Ha Hf Hi)
    as (w2 & E2 & Hh2 & Hfs2 & Hd2 & _ & Hl2).
  rewrite <- Hfs2 in Hs.
  pose proof (save_data_ok w2 _ _ "processed_insurance.csv" f Hh2 Hs) as Es.
  eexists. split.
  - unfold main. rewrite bind_eq, startup_eq, bind_eq, E2. cbv beta iota.
    rewrite bind_eq, Es. cbv beta iota.
    rewrite bind_eq.
    rewrite (automated_analysis_eq
               (logged [(INFO, DataSaved "processed_insurance.csv")]
                  (set_fs f w2)) _ _ Hh2), Hl.
    done.
  - simpl. split; [done|]. split; [done|].
    rewrite Hl2, <- app_assoc. done.
Qed.

(** X17.  A startup that succeeds has read a table from [insurance.csv],
    written the processed table (not the one read) to
    [processed_insurance.csv] without an index, and logged, in this order,
    the load, the processing, the save, the four results of the analysis of
    the processed table and at most one error of the charts. *)
Theorem startup_saves_then_analyses (w w1 : world) (df : loc) :
  startup w = (Ok df, w1) →
  ∃ t T ls es,
    read_csv "insurance.csv" (w_fs w) = Ok t ∧
    w_heap w1 !! df = Some T ∧ T.*1 = t.*1 ∧
    to_csv T "processed_insurance.csv" false (w_fs w) = (w_fs w1, None) ∧
    analysis_lines T = Ok ls ∧
    (es = [] ∨ ∃ e, es = [(ERROR, ErrorVisualizing e)]) ∧
    w_log w1 =
      w_log w ++
      [(INFO, DataLoaded); (INFO, DataProcessed);
       (INFO, DataSaved "processed_insurance.csv")] ++ ls ++ es.
Proof.
  intros Hs. unfold startup in Hs. rewrite bind_eq in Hs.
  destruct (read_csv "insurance.csv" (w_fs w)) as [t|e] eqn:Hr;
    [|by rewrite (load_data_raises w _ e Hr) in Hs].
  rewrite (load_data_ok w _ t Hr) in Hs. cbv beta iota in Hs.
  set (df0 := fresh (dom (w_heap w))) in *.
  set (wa := logged [(INFO, DataLoaded)] (set_heap (<[df0 := t]> (w_heap w)) w))
    in *.
  assert (Hha : w_heap wa !! df0 = Some t) by apply lookup_insert_eq.
  rewrite bind_eq in Hs.
  destruct (process_data df0 wa) as [[df1|e] wb] eqn:Ep; [|done].
  destruct (process_data_ok_inv wa wb df0 df1 t Hha Ep)
    as (charges & age & fl & il & Hc & Ha & Hf & Hi & -> & ->).
  set (T := set_col "age" (IntCol il) (set_col "charges" (FloatCol fl) t)) in *.
  set (wb := logged [(INFO, DataProcessed)]
               (set_heap (<[df0 := T]> (w_heap wa)) wa)) in *.
  assert (Hhb : w_heap wb !! df0 = Some T) by apply lookup_insert_eq.
  rewrite bind_eq in Hs.
  destruct (to_csv T "processed_insurance.csv" false (w_fs wb)) as [f [e|]] eqn:Es;
    [by rewrite (save_data_raises wb df0 T _ f e Hhb Es) in Hs|].
  rewrite (save_data_ok wb df0 T _ f Hhb Es) in Hs. cbv beta iota in Hs.
  set (wc := logged [(INFO, DataSaved "processed_insurance.csv")] (set_fs f wb))
    in *.
  assert (Hhc : w_heap wc !! df0 = Some T) by done.
  rewrite bind_eq, (automated_analysis_eq wc df0 T Hhc) in Hs.
  destruct (analysis_lines T) as [ls|e] eqn:Hl; [|done].
  destruct (visualize_data_lines df0 (logged ls wc)) as (es & d & Hes & E).
  rewrite (E (logged ls wc) eq_refl eq_refl) in Hs.
  injection Hs as <- <-.
  exists t, T, ls, es. split; [done|]. split; [done|].
  split.
  { unfold T. rewrite (set_col_names "age" _ age); [by eapply set_col_names|].
    by rewrite get_col_set_col_ne. }
  split; [done|]. split; [done|]. split; [done|].
  simpl. by rewrite <- !app_assoc.
Qed.

(** X18.  After a startup that succeeds, as long as no poll comes at or
    after the next 09:00, the loop runs nothing: the job has never run, and
    the log, the display and the tables are as the startup left them. *)
Theorem no_scheduled_run_before_nine (w w1 : world) (df : loc)
    (envs : list env) :
  startup w = (Ok df, w1) →
  Forall (fun e => env_clock e < schedule_next_run (at_ 9 0) (w_clock w1))
    envs →
  ∃ w',
    main envs w =
      (Ok [Job (at_ 9 0) (schedule_next_run (at_ 9 0) (w_clock w1)) None
             (automated_analysis df)], w') ∧
    w_log w' = w_log w1 ∧ w_display w' = w_display w1 ∧
    w_heap w' = w_heap w1.
Proof.
  intros Hs Hf. exists (idle envs w1).2. split.
  - unfold main. rewrite bind_eq, Hs. cbv beta iota.
    unfold bind at 1. unfold every_day_at_do at 1. simpl app.
    apply run_forever_idle; [|done]. simpl.
    apply schedule_next_run_spec. unfold at_, day, second. lia.
  - apply idle_frame.
Qed.

End StartupProperties.

(* ===================================================================== *)
(** * Further properties: the loop of [main] over several days *)
(* ===================================================================== *)

Module LoopFacts.
Import Frame Host Script Schedule ScriptFacts ScheduleFacts.
Local Open Scope script_scope.

Section WithHost.
Context `{Numerics} `{Storage} `{Backend}.

Lemma next_run_is_later (t now : Z) : 0 ≤ t → now < schedule_next_run t now.
Proof.
  intros Ht. unfold schedule_next_run. cbv zeta.
  change day with 86400000000.
  destruct (Z.leb_spec (now / 86400000000 * 86400000000 + t) now);
    Z.to_euclidean_division_equations; lia.
Qed.

(** A poll at which the job is due runs it, and the loop goes on with the job
    as the run leaves it. *)
Lemma run_forever_resume (j : job) (post : list env) (w : world) :
  keeps_clock (job_func j) → 0 ≤ at_time j →
  next_run j ≤ w_clock w →
  run_forever [j] post w =
  (job_func j ;; run_forever [ran_at (w_clock w) j] post) w.
Proof.
  intros Hk Ht Hw. rewrite (bind_eq (job_func j)).
  assert (Hidle : ∀ w1, w_clock w1 = w_clock w →
            run_pending [ran_at (w_clock w) j] w1 =
              (Ok [ran_at (w_clock w) j], w1)).
  { intros w1 Hc. apply run_pending_idle. simpl. rewrite Hc.
    by apply next_run_is_later. }
  destruct post as [|p post]; cbn [run_forever].
  - rewrite run_pending_due, bind_eq by done.
    destruct (job_func j w) as [[[]|ex] w1] eqn:Ef; [|done].
    pose proof (Hk _ _ _ Ef) as Hc. by rewrite Hidle, Hc.
  - rewrite bind_eq, run_pending_due, bind_eq by done.
    destruct (job_func j w) as [[[]|ex] w1] eqn:Ef; [|done].
    pose proof (Hk _ _ _ Ef) as Hc.
    by rewrite (bind_eq (run_pending _)), Hidle, Hc.
Qed.

Lemma run_forever_reach (j : job) (pre post : list env) (e : env) (w : world) :
  keeps_clock (job_func j) → 0 ≤ at_time j →
  w_clock w < next_run j →
  Forall (fun x => env_clock x < next_run j) pre →
  next_run j ≤ env_clock e →
  run_forever [j] (pre ++ e :: post) w =
  (idle pre ;; sleep e ;; job_func j ;;
   run_forever [ran_at (env_clock e) j] post) w.
Proof.
  intros Hk Ht. revert w.
  induction pre as [|x pre IH]; intros w Hw Hpre He.
  - simpl app. rewrite run_forever_skip by done.
    rewrite idle_bind, sleep_bind. simpl idle. unfold ret at 1. simpl snd.
    by rewrite run_forever_resume.
  - apply list.Forall_cons in Hpre as [Hx Hpre]. simpl app.
    rewrite run_forever_skip by done.
    rewrite IH by done. simpl idle. by rewrite bind_assoc, sleep_bind.
Qed.

End WithHost.
End LoopFacts.

Section LoopProperties.
Import Frame Host Script Schedule ScriptFacts ScheduleFacts LoopFacts.
Context `{Numerics} `{Storage} `{Backend}.
Local Open Scope script_scope.

(** X19.  The analysis is run again at the trigger that follows a run: after
    a startup that succeeds, [main] does what the startup followed by
    sleeping, one analysis at the first poll at or after the next 09:00,
    sleeping, one analysis at the first poll at or after the 09:00 that
    follows that run, and sleeping does.  The job is left run at the second
    of these polls. *)
Theorem analysis_runs_again_at_the_following_trigger (w w1 : world) (df : loc)
    (pre mid post : list env) (e1 e2 : env) :
  startup w = (Ok df, w1) →
  Forall (fun x => env_clock x < schedule_next_run (at_ 9 0) (w_clock w1))
    pre →
  schedule_next_run (at_ 9 0) (w_clock w1) ≤ env_clock e1 →
  Forall (fun x => env_clock x < schedule_next_run (at_ 9 0) (env_clock e1))
    mid →
  schedule_next_run (at_ 9 0) (env_clock e1) ≤ env_clock e2 →
  Forall (fun x => env_clock x < schedule_next_run (at_ 9 0) (env_clock e2))
    post →
  main (pre ++ e1 :: mid ++ e2 :: post) w =
  (idle pre ;; sleep e1 ;; automated_analysis df ;;
   idle mid ;; sleep e2 ;; automated_analysis df ;;
   idle post ;;
   ret [Job (at_ 9 0) (schedule_next_run (at_ 9 0) (env_clock e2))
          (Some (env_clock e2)) (automated_analysis df)]) w1.
Proof.
  intros Hs Hpre He1 Hmid He2 Hpost.
  assert (H9 : 0 ≤ at_ 9 0) by (unfold at_, second; lia).
  unfold main. rewrite bind_eq, Hs. cbv beta iota.
  unfold bind at 1. unfold every_day_at_do at 1. simpl app.
  set (j := Job (at_ 9 0) (schedule_next_run (at_ 9 0) (w_clock w1)) None
              (automated_analysis df)).
  rewrite (run_forever_reach j pre (mid ++ e2 :: post) e1);
    [|apply keeps_clock_automated_analysis|done
     |by apply next_run_is_later|done|done].
  rewrite !idle_bind, !sleep_bind. simpl job_func.
  rewrite !(bind_eq (automated_analysis df)).
  destruct (automated_analysis df (slept e1 (idle pre w1).2))
    as [[[]|ex] wa] eqn:Ea; [|done].
  pose proof (keeps_clock_automated_analysis df _ _ _ Ea) as Hca.
  simpl in Hca.
  rewrite (run_forever_fires_once (ran_at (env_clock e1) j) mid post e2);
    [|apply keeps_clock_automated_analysis
     |rewrite Hca; by apply next_run_is_later|done|done|done].
  done.
Qed.

End LoopProperties.

(* ===================================================================== *)
(** * Further properties: the averages *)
(* ===================================================================== *)

Section AverageProperties.
Import Frame Host Script Views FrameFacts ScriptFacts.
Context `{Numerics} `{Storage} `{Backend}.
Local Open Scope script_scope.

(** X21.  The averages need the columns that [process_data] makes numeric:
    on a table whose [age] is a text column with an entry that is not
    missing, [analyze_ages] raises the [TypeError] of the mean of a text
    column; on the table that a
    [process_data] that returned leaves behind, [analyze_ages] and
    [average_charges] both return, and change nothing. *)
Theorem averages_need_numeric_columns :
  (∀ (w : world) (df : loc) (t : table) (l : list (option string)),
     w_heap w !! df = Some t → get_col "age" t = Some (ObjCol l) →
     forallb is_missing l = false →
     analyze_ages {| self_df := df |} w =
       (Raise (TypeError (mean_text_message l)), w)) ∧
  (∀ (w w' : world) (df df' : loc) (t : table),
     w_heap w !! df = Some t → process_data df w = (Ok df', w') →
     ∃ avg_age avg_charges,
       analyze_ages {| self_df := df' |} w' = (Ok avg_age, w') ∧
       average_charges {| self_df := df' |} w' = (Ok avg_charges, w')).
Proof.
  split.
  - intros w df t l Hh Ha Hm. unfold analyze_ages. cbn [self_df].
    rewrite (mean_query_eq w df t "age" Hh), Ha. simpl. by rewrite Hm.
  - intros w w' df df' t Hh Hp.
    destruct (process_data_numeric w w' df df' t Hh Hp)
      as (t' & age & charges & -> & Hh' & Ha & Hna & Hc & Hnc).
    destruct (col_mean_numeric age Hna) as [ma Hma].
    destruct (col_mean_numeric charges Hnc) as [mc Hmc].
    exists (round_float ma 2), (round_float mc 2).
    unfold analyze_ages, average_charges. cbn [self_df].
    rewrite (mean_query_eq w' df t' "age" Hh'), Ha, Hma.
    by rewrite (mean_query_eq w' df t' "charges" Hh'), Hc, Hmc.
Qed.

End AverageProperties.

(* ===================================================================== *)
(** * The further properties on concrete inputs *)
(* ===================================================================== *)

Section FurtherWitnesses.
Import Frame Host Script Schedule Views Demo Cases.
Local Open Scope script_scope.
#[local] Existing Instances numerics storage recorder.

Lemma process_data_returns_iff_all_convert_witness :
  ((∃ df' w',
      @process_data numerics storage recorder 0%nat
        (holding recorder [] patients) = (Ok df', w')) ↔
   Forall (fun v => is_Some (to_float v)) (cells (IntCol [16884; 1725; 4449])) ∧
   Forall (fun v => is_Some (to_int v))
     (cells (ObjCol [Some "19"; Some "18"; Some "28"]))) ∧
  (∀ df' w',
     @process_data numerics storage recorder 0%nat
       (holding recorder [] patients) = (Ok df', w') →
     ∃ t' fl il,
       w_heap w' !! 0%nat = Some t' ∧
       get_col "charges" t' = Some (FloatCol fl) ∧
       Forall2 (fun v f => to_float v = Some f)
         (cells (IntCol [16884; 1725; 4449])) fl ∧
       get_col "age" t' = Some (IntCol il) ∧
       Forall2 (fun v z => to_int v = Some z)
         (cells (ObjCol [Some "19"; Some "18"; Some "28"])) il).
Proof.
  apply (@process_data_returns_iff_all_convert numerics storage recorder
           (holding recorder [] patients) 0%nat patients
           (IntCol [16884; 1725; 4449])
           (ObjCol [Some "19"; Some "18"; Some "28"])).
  - reflexivity.
  - reflexivity.
  - reflexivity.
Defined.

Lemma process_data_missing_column_witness :
  @process_data numerics storage recorder 0%nat
    (holding recorder [] no_charges) =
    (Raise (KeyError "charges"),
     logged [(ERROR, ErrorProcessing (KeyError "charges"))]
       (holding recorder [] no_charges)) ∧
  @process_data numerics storage recorder 0%nat (holding recorder [] no_age) =
    (Raise (KeyError "age"),
     logged [(ERROR, ErrorProcessing (KeyError "age"))]
       (set_heap
          (<[0%nat := set_col "charges"
                        (FloatCol [b64 16884; b64 1725; b64 4449]) no_age]>
             (w_heap (holding recorder [] no_age)))
          (holding recorder [] no_age))).
Proof.
  split.
  - apply (proj1 (@process_data_missing_column numerics storage recorder)
             (holding recorder [] no_charges) 0%nat no_charges);
      reflexivity.
  - apply (proj2 (@process_data_missing_column numerics storage recorder)
             (holding recorder [] no_age) 0%nat no_age
             (IntCol [16884; 1725; 4449])
             [b64 16884; b64 1725; b64 4449]);
      reflexivity.
Defined.

Lemma process_data_keeps_shape_witness :
  0%nat = 0%nat ∧
  ∃ t' charges age fl il,
    w_heap patients_processed !! 0%nat = Some t' ∧
    t'.*1 = patients.*1 ∧
    get_col "charges" patients = Some charges ∧
    get_col "age" patients = Some age ∧
    get_col "charges" t' = Some (FloatCol fl) ∧
    length fl = length (cells charges) ∧
    get_col "age" t' = Some (IntCol il) ∧
    length il = length (cells age) ∧
    (∀ name, name ≠ "charges" → name ≠ "age" →
       get_col name t' = get_col name patients) ∧
    (∀ r, r ≠ 0%nat →
       w_heap patients_processed !! r =
       w_heap (holding recorder [] patients) !! r) ∧
    w_fs patients_processed = w_fs (holding recorder [] patients) ∧
    w_display patients_processed = w_display (holding recorder [] patients) ∧
    w_log patients_processed =
      w_log (holding recorder [] patients) ++ [(INFO, DataProcessed)].
Proof.
  apply (@process_data_keeps_shape numerics storage recorder
           (holding recorder [] patients) patients_processed
           0%nat 0%nat patients).
  - reflexivity.
  - vm_compute; reflexivity.
Defined.

Lemma process_data_idempotent_witness :
  ∃ w2,
    @process_data numerics storage recorder 0%nat patients_processed =
      (Ok 0%nat, w2) ∧
    w_heap w2 = w_heap patients_processed ∧
    w_fs w2 = w_fs patients_processed ∧
    w_display w2 = w_display patients_processed ∧
    w_log w2 = w_log patients_processed ++ [(INFO, DataProcessed)].
Proof.
  apply (@process_data_idempotent numerics storage recorder
           (holding recorder [] patients) patients_processed
           0%nat 0%nat patients).
  - reflexivity.
  - vm_compute; reflexivity.
Defined.

Lemma load_data_creates_new_object_witness :
  ∃ df w',
    @load_data storage recorder "insurance.csv" clinic = (Ok df, w') ∧
    w_heap clinic !! df = None ∧
    w_heap w' !! df = Some patients ∧
    (∀ r, r ≠ df → w_heap w' !! r = w_heap clinic !! r) ∧
    w_fs w' = w_fs clinic ∧ w_display w' = w_display clinic ∧
    w_log w' = w_log clinic ++ [(INFO, DataLoaded)].
Proof.
  apply (load_data_creates_new_object clinic "insurance.csv" patients).
  reflexivity.
Defined.

Lemma charts_are_silent_when_drawn_witness :
  ∃ w',
    @visualize_data numerics storage recorder 0%nat
      (holding recorder [] processed) = (Ok tt, w') ∧
    w_log w' = w_log (holding recorder [] processed) ∧
    w_heap w' = w_heap (holding recorder [] processed) ∧
    w_fs w' = w_fs (holding recorder [] processed).
Proof.
  apply (@charts_are_silent_when_drawn numerics storage recorder
           (holding recorder [] processed) 0%nat processed
           (ObjCol [Some "west"; Some "east"; Some "west"])
           (ObjCol [Some "yes"; Some "no"; Some "no"])
           (FloatCol [b64 16884; b64 1725; b64 4449])).
  - intros c d. reflexivity.
  - reflexivity.
  - reflexivity.
  - reflexivity.
  - reflexivity.
  - reflexivity.
Defined.

Lemma missing_region_skips_both_charts_witness :
  @visualize_data numerics storage recorder 0%nat
    (holding recorder [] no_region) =
    (Ok tt,
     logged [(ERROR, ErrorVisualizing (KeyError "region"))]
       (set_display [Figure 8 5] (holding recorder [] no_region))).
Proof.
  apply (@missing_region_skips_both_charts numerics storage recorder
           (holding recorder [] no_region) 0%nat no_region).
  - reflexivity.
  - reflexivity.
Defined.

Lemma failed_query_reports_nothing_witness :
  (∀ e w',
     @automated_analysis numerics storage recorder 0%nat
       (holding recorder [] no_region) = (Raise e, w') →
     w' = holding recorder [] no_region ∧
     analysis_lines no_region = Raise e) ∧
  (∀ name, name ∈ ["age"; "sex"; "charges"; "region"] →
     get_col name no_region = None →
     ∃ e, @automated_analysis numerics storage recorder 0%nat
            (holding recorder [] no_region) =
          (Raise e, holding recorder [] no_region)).
Proof.
  apply (@failed_query_reports_nothing numerics storage recorder
           (holding recorder [] no_region) 0%nat no_region).
  reflexivity.
Defined.

Lemma analyze_sexes_counts_add_up_witness :
  ∃ d,
    @analyze_sexes storage recorder {| self_df := 0%nat |} sexes_world =
      (Ok d, sexes_world) ∧
    sum_list d.*2 =
      length (List.filter notna
                (cells (ObjCol [Some "male"; Some "female"; Some "male"]))) ∧
    Forall (fun e => (0 < e.2)%nat) d.
Proof.
  apply (@analyze_sexes_counts_add_up storage recorder sexes_world 0%nat
           [("sex", ObjCol [Some "male"; Some "female"; Some "male"])]).
  - reflexivity.
  - reflexivity.
Defined.

Lemma unique_regions_of_distinct_column_witness :
  ∃ out,
    @unique_regions storage recorder {| self_df := 0%nat |} regions_world =
      (Ok out, regions_world) ∧
    (length out ≤
     length (cells (ObjCol [Some "west"; Some "east"; Some "west";
                            Some "north"])))%nat ∧
    unique out = out ∧
    (NoDup (key <$> cells (ObjCol [Some "west"; Some "east"; Some "west";
                                   Some "north"])) →
     out = cells (ObjCol [Some "west"; Some "east"; Some "west";
                          Some "north"])).
Proof.
  apply (@unique_regions_of_distinct_column storage recorder regions_world
           0%nat
           [("region",
             ObjCol [Some "west"; Some "east"; Some "west"; Some "north"])]).
  - reflexivity.
  - reflexivity.
Defined.

Lemma create_dictionary_matches_columns_witness :
  ∃ d,
    @create_dictionary storage recorder {| self_df := 0%nat |}
      (holding recorder [] patients) =
      (Ok d, holding recorder [] patients) ∧
    d.*1 = patients.*1 ∧
    ∀ name, dict_get name d = cells <$> get_col name patients.
Proof.
  apply (@create_dictionary_matches_columns storage recorder
           (holding recorder [] patients) 0%nat patients).
  - reflexivity.
  - apply (bool_decide_unpack _). vm_compute. reflexivity.
Defined.

Lemma main_stops_when_the_file_cannot_be_read_witness :
  @main numerics storage recorder [first_second] empty_dir =
    (Raise (IOError "insurance.csv"),
     logged [(ERROR, ErrorLoading (IOError "insurance.csv"))] empty_dir).
Proof.
  apply (@main_stops_when_the_file_cannot_be_read numerics storage recorder
           empty_dir (IOError "insurance.csv") [first_second]).
  reflexivity.
Defined.

Lemma main_stops_when_the_table_cannot_be_saved_witness :
  ∃ w',
    @main numerics full_disk recorder [] full_dir =
      (Raise (IOError "processed_insurance.csv"), w') ∧
    w_heap w' !! fresh (dom (w_heap full_dir)) =
      Some (set_col "age" (IntCol [19; 18; 28])
              (set_col "charges" (FloatCol [b64 16884; b64 1725; b64 4449])
                 patients)) ∧
    w_fs w' =
      [("processed_insurance.csv", []); ("insurance.csv", patients)] ∧
    w_display w' = w_display full_dir ∧
    w_log w' =
      w_log full_dir ++
      [(INFO, DataLoaded); (INFO, DataProcessed);
       (ERROR, ErrorSaving (IOError "processed_insurance.csv"))].
Proof.
  apply (@main_stops_when_the_table_cannot_be_saved numerics full_disk recorder
           full_dir patients (IntCol [16884; 1725; 4449])
           (ObjCol [Some "19"; Some "18"; Some "28"])
           [b64 16884; b64 1725; b64 4449] [19; 18; 28]
           [("processed_insurance.csv", []); ("insurance.csv", patients)]
           (IOError "processed_insurance.csv") []).
  - reflexivity.
  - reflexivity.
  - reflexivity.
  - reflexivity.
  - reflexivity.
  - reflexivity.
Defined.

Lemma main_stops_after_saving_when_a_query_fails_witness :
  ∃ w',
    @main numerics storage recorder [] (boot recorder [] 0 no_sex) =
      (Raise (KeyError "sex"), w') ∧
    w_fs w' =
      [("processed_insurance.csv",
        set_col "age" (IntCol [19; 18; 28])
          (set_col "charges" (FloatCol [b64 16884; b64 1725; b64 4449])
             no_sex));
       ("insurance.csv", no_sex)] ∧
    w_display w' = w_display (boot recorder [] 0 no_sex) ∧
    w_log w' =
      w_log (boot recorder [] 0 no_sex) ++
      [(INFO, DataLoaded); (INFO, DataProcessed);
       (INFO, DataSaved "processed_insurance.csv")].
Proof.
  apply (@main_stops_after_saving_when_a_query_fails numerics storage recorder
           (boot recorder [] 0 no_sex) no_sex (IntCol [16884; 1725; 4449])
           (ObjCol [Some "19"; Some "18"; Some "28"])
           [b64 16884; b64 1725; b64 4449] [19; 18; 28]).
  - reflexivity.
  - reflexivity.
  - reflexivity.
  - reflexivity.
  - reflexivity.
  - reflexivity.
  - vm_compute; reflexivity.
Defined.

Lemma startup_saves_then_analyses_witness :
  ∃ t T ls es,
    @read_csv storage "insurance.csv" (w_fs clinic) = Ok t ∧
    w_heap clinic_started !! 0%nat = Some T ∧ T.*1 = t.*1 ∧
    @to_csv storage T "processed_insurance.csv" false (w_fs clinic) =
      (w_fs clinic_started, None) ∧
    analysis_lines T = Ok ls ∧
    (es = [] ∨ ∃ e, es = [(ERROR, ErrorVisualizing e)]) ∧
    w_log clinic_started =
      w_log clinic ++
      [(INFO, DataLoaded); (INFO, DataProcessed);
       (INFO, DataSaved "processed_insurance.csv")] ++ ls ++ es.
Proof.
  apply (@startup_saves_then_analyses numerics storage recorder
           clinic clinic_started 0%nat).
  vm_compute; reflexivity.
Defined.

Lemma no_scheduled_run_before_nine_witness :
  ∃ w',
    @main numerics storage recorder [first_second] clinic =
      (Ok [Job (at_ 9 0)
             (schedule_next_run (at_ 9 0) (w_clock clinic_started)) None
             (automated_analysis 0%nat)], w') ∧
    w_log w' = w_log clinic_started ∧
    w_display w' = w_display clinic_started ∧
    w_heap w' = w_heap clinic_started.
Proof.
  apply (@no_scheduled_run_before_nine numerics storage recorder
           clinic clinic_started 0%nat [first_second]).
  - vm_compute; reflexivity.
  - apply list.Forall_cons. split; [vm_compute; reflexivity|].
    apply list.Forall_nil_2.
Defined.

Lemma analysis_runs_again_at_the_following_trigger_witness :
  @main numerics storage recorder
    ([first_second] ++ nine_sharp :: [nine_past] ++ next_nine :: []) clinic =
  (idle [first_second] ;; sleep nine_sharp ;; automated_analysis 0%nat ;;
   idle [nine_past] ;; sleep next_nine ;; automated_analysis 0%nat ;;
   idle [] ;;
   ret [Job (at_ 9 0) (schedule_next_run (at_ 9 0) (env_clock next_nine))
          (Some (env_clock next_nine)) (automated_analysis 0%nat)])
    clinic_started.
Proof.
  apply (@analysis_runs_again_at_the_following_trigger
           numerics storage recorder clinic clinic_started 0%nat
           [first_second] [nine_past] [] nine_sharp next_nine).
  - vm_compute; reflexivity.
  - apply list.Forall_cons. split; [vm_compute; reflexivity|].
    apply list.Forall_nil_2.
  - apply Z.leb_le. vm_compute; reflexivity.
  - apply list.Forall_cons. split; [vm_compute; reflexivity|].
    apply list.Forall_nil_2.
  - apply Z.leb_le. vm_compute; reflexivity.
  - apply list.Forall_nil_2.
Defined.

Lemma averages_need_numeric_columns_witness :
  @analyze_ages numerics storage recorder {| self_df := 0%nat |}
    (holding recorder [] patients) =
    (Raise (TypeError
              (@mean_text_message numerics [Some "19"; Some "18"; Some "28"])),
     holding recorder [] patients) ∧
  ∃ avg_age avg_charges,
    @analyze_ages numerics storage recorder {| self_df := 0%nat |}
      patients_processed = (Ok avg_age, patients_processed) ∧
    @average_charges numerics storage recorder {| self_df := 0%nat |}
      patients_processed = (Ok avg_charges, patients_processed).
Proof.
  split.
  - apply (proj1 (@averages_need_numeric_columns numerics storage recorder)
             (holding recorder [] patients) 0%nat patients
             [Some "19"; Some "18"; Some "28"]);
      reflexivity.
  - apply (proj2 (@averages_need_numeric_columns numerics storage recorder)
             (holding recorder [] patients) patients_processed
             0%nat 0%nat patients).
    + reflexivity.
    + vm_compute; reflexivity.
Defined.

End FurtherWitnesses.
